(* ===================================================================== *)
(* Out-of-band invitation lifecycle of the agent (OutOfBandApi) and the  *)
(* signing-provider registry, embedded shallowly.                        *)
(*                                                                       *)
(* Asynchronous TypeScript methods become computations in a small monad  *)
(* that threads the persisted store and a log of the calls made on the   *)
(* collaborators, and that distinguishes a returned value, a thrown      *)
(* error and a promise that never settles.                               *)
(* ===================================================================== *)

From Stdlib Require Import NArith.
From stdpp Require Import gmap strings list fin_maps pretty.


(* --------------------------------------------------------------------- *)
(* JavaScript idioms used by the sources                                 *)
(* --------------------------------------------------------------------- *)
Module Js.

(* ToBoolean on a string: only the empty string is falsy. *)
Definition truthy_string (s : string) : bool := negb (bool_decide (s = "")).

(* ToBoolean on `string | undefined`. *)
Definition truthy_opt_string (o : option string) : bool :=
  match o with
  | Some s => truthy_string s
  | None => false
  end.

(* ToBoolean on `T | undefined` where T is an object or array type:
   every object, also the empty array, is truthy. *)
Definition truthy_obj {A} (o : option A) : bool :=
  match o with
  | Some _ => true
  | None => false
  end.

(* Array.prototype.find *)
Definition find {A} (p : A → bool) (l : list A) : option A := List.find p l.

(* Array.prototype.includes on strings (strict equality) *)
Definition includes (l : list string) (s : string) : bool := bool_decide (s ∈ l).

(* Array.prototype.every *)
Definition every {A} (p : A → bool) (l : list A) : bool := forallb p l.

(* a ?? b *)
Definition nullish {A} (o : option A) (d : A) : A := default d o.

(* Array.from(new Set(l)): duplicates dropped, first occurrences kept in
   insertion order. *)
Definition set_add `{EqDecision A} (acc : list A) (x : A) : list A :=
  if decide (x ∈ acc) then acc else acc ++ [x].

Definition from_set `{EqDecision A} (l : list A) : list A :=
  foldl set_add [] l.

End Js.

(* --------------------------------------------------------------------- *)
(* packages/core/src/crypto/signing-provider/SigningProviderRegistry.ts  *)
(* --------------------------------------------------------------------- *)
Module SigningProviderRegistry.
Section Registry.

(* `KeyType` is a string enum and `SigningProvider` an interface; both are
   declared outside this file. The registry only reads `keyType`. *)
Context {KeyType : Type} `{EqDecision KeyType}.
Context {SigningProvider : Type}.
Variable keyType : SigningProvider → KeyType.

(* Element of the injected array: the placeholder 'default' or a provider. *)
Inductive Injected :=
| DefaultToken
| Provider (p : SigningProvider).

Record t := { signingProviders : list SigningProvider }.

Inductive RegistryError :=
| NoKeyProviderForKeyType (k : KeyType).

Definition new (injected : list Injected) : t :=
  {| signingProviders :=
       omap (λ i, match i with DefaultToken => None | Provider p => Some p end)
            injected |}.

Definition hasProviderForKeyType (r : t) (k : KeyType) : bool :=
  let signingKeyProvider :=
    Js.find (λ x, bool_decide (keyType x = k)) (signingProviders r) in
  match signingKeyProvider with
  | Some _ => true
  | None => false
  end.

Definition getProviderForKeyType (r : t) (k : KeyType)
  : RegistryError + SigningProvider :=
  let signingKeyProvider :=
    Js.find (λ x, bool_decide (keyType x = k)) (signingProviders r) in
  match signingKeyProvider with
  | None => inl (NoKeyProviderForKeyType k)   (* !undefined *)
  | Some p => inr p                           (* an object is truthy *)
  end.

Definition supportedKeyTypes (r : t) : list KeyType :=
  Js.from_set (map keyType (signingProviders r)).

End Registry.
End SigningProviderRegistry.

(* --------------------------------------------------------------------- *)
(* The part of rxjs that handleHandshakeReuse composes                   *)
(* --------------------------------------------------------------------- *)
Module Rx.

Inductive RxError :=
| EmptyError
| TimeoutError.

(* What a subscriber observes from the moment it subscribes. Every
   notification carries the delay in milliseconds since the previous one
   (since subscription for the first), so arrival order is the order of
   the constructors. *)
Inductive Observable (A : Type) :=
| Next (delay : N) (value : A) (rest : Observable A)
| Complete (delay : N)
| Error (delay : N) (e : RxError)
| Silent.                       (* nothing is ever notified again *)
Arguments Next {A}.
Arguments Complete {A}.
Arguments Error {A}.
Arguments Silent {A}.

(* Postpone the first notification of a stream by d. *)
Definition delayed {A} (d : N) (o : Observable A) : Observable A :=
  match o with
  | Next d' v rest => Next (d + d') v rest
  | Complete d' => Complete (d + d')
  | Error d' e => Error (d + d') e
  | Silent => Silent
  end.

(* filter(p) *)
Fixpoint filter {A} (p : A → bool) (o : Observable A) : Observable A :=
  match o with
  | Next d v rest => if p v then Next d v (filter p rest) else delayed d (filter p rest)
  | Complete d => Complete d
  | Error d e => Error d e
  | Silent => Silent
  end.

(* first(p): the first value satisfying p, then completion; EmptyError
   when the source completes before any value satisfied p. *)
Fixpoint first {A} (p : A → bool) (o : Observable A) : Observable A :=
  match o with
  | Next d v rest => if p v then Next d v (Complete 0) else delayed d (first p rest)
  | Complete d => Error d EmptyError
  | Error d e => Error d e
  | Silent => Silent
  end.

(* map(f) *)
Fixpoint map {A B} (f : A → B) (o : Observable A) : Observable B :=
  match o with
  | Next d v rest => Next d (f v) (map f rest)
  | Complete d => Complete d
  | Error d e => Error d e
  | Silent => Silent
  end.

(* timeout(ms): TimeoutError once ms milliseconds pass without a
   notification, counted from subscription and again from each value. *)
Fixpoint timeout {A} (ms : N) (o : Observable A) : Observable A :=
  match o with
  | Next d v rest => if (d <? ms)%N then Next d v (timeout ms rest) else Error ms TimeoutError
  | Complete d => if (d <? ms)%N then Complete d else Error ms TimeoutError
  | Error d e => if (d <? ms)%N then Error d e else Error ms TimeoutError
  | Silent => Error ms TimeoutError
  end.

(* of(v) *)
Definition of_ {A} (v : A) : Observable A := Next 0 v (Complete 0).

(* catchError(h): on an error, continue with the stream h returns. *)
Fixpoint catchError {A} (h : RxError → Observable A) (o : Observable A) : Observable A :=
  match o with
  | Next d v rest => Next d v (catchError h rest)
  | Complete d => Complete d
  | Error d e => delayed d (h e)
  | Silent => Silent
  end.

(* How a promise ends. *)
Inductive Settled (A : Type) :=
| Resolved (at_ms : N) (v : A)
| Rejected (at_ms : N) (e : RxError)
| Pending.
Arguments Resolved {A}.
Arguments Rejected {A}.
Arguments Pending {A}.

(* firstValueFrom(o) *)
Definition firstValueFrom {A} (o : Observable A) : Settled A :=
  match o with
  | Next d v _ => Resolved d v
  | Complete d => Rejected d EmptyError
  | Error d e => Rejected d e
  | Silent => Pending
  end.

End Rx.

(* --------------------------------------------------------------------- *)
(* modules/oob: data model                                               *)
(* --------------------------------------------------------------------- *)
Module OutOfBand.

(* enum HandshakeProtocol: protocol URIs *)
Abbreviation HandshakeProtocol := string (only parsing).

Inductive OutOfBandRole :=
| Sender
| Receiver.

Inductive OutOfBandState :=
| Initial
| AwaitResponse
| PrepareResponse
| Done.

#[global] Instance OutOfBandRole_eq_dec : EqDecision OutOfBandRole.
Proof. solve_decision. Defined.

#[global] Instance OutOfBandState_eq_dec : EqDecision OutOfBandState.
Proof. solve_decision. Defined.

Record Key := { fingerprint : string }.

(* Key.fromFingerprint *)
Definition fromFingerprint (f : string) : Key := {| fingerprint := f |}.

Record Routing := {
  endpoints : list string;
  recipientKey : Key;
  routingKeys : list Key;
  routing_mediatorId : option string }.

Record OutOfBandDidCommService := {
  service_id : string;
  serviceEndpoint : string;
  recipientKeys : list string;
  service_routingKeys : list string }.

(* Array<OutOfBandDidCommService | string> *)
Inductive InvitationService :=
| InlineService (s : OutOfBandDidCommService)
| DidService (did : string).

Record PlaintextMessage := {
  message_id : string;
  message_type : string;                 (* '@type' *)
  message_service : option string }.     (* '~service' *)

Record Attachment := {
  attachment_id : string;
  attachment_data : string }.

(* The v1 invitation message. `handshakeProtocols` and the request list are
   optional properties: the API tests them for truthiness, so an absent
   property (None) and an empty array (Some []) are kept apart. *)
Record OutOfBandInvitation := {
  invitation_id : string;
  label : option string;
  goal : option string;
  goalCode : option string;
  imageUrl : option string;
  accept : option (list string);
  services : list InvitationService;
  handshakeProtocols : option (list HandshakeProtocol);
  requests : option (list PlaintextMessage);
  appendedAttachments : option (list Attachment) }.

Record V2OutOfBandInvitation := {
  v2_id : string;
  v2_goal : option string;
  v2_goalCode : option string;
  v2_accept : option (list string);
  v2_attachments : list Attachment }.

(* The legacy connection invitation (RFC 0160). *)
Record ConnectionInvitationMessage := {
  legacy_id : string;
  legacy_label : string;
  legacy_endpoint : string;
  legacy_recipientKeys : list string;
  legacy_routingKeys : list string }.

Inductive ReceivedInvitation :=
| IsOutOfBandInvitation (i : OutOfBandInvitation)
| IsConnectionInvitationMessage (i : ConnectionInvitationMessage)
| IsV2OutOfBandInvitation (i : V2OutOfBandInvitation).

(* metadata[OutOfBandRecordMetadataKeys.RecipientRouting] *)
Record RecipientRouting := {
  recipientKeyFingerprint : string;
  routingKeyFingerprints : list string;
  rr_endpoints : list string;
  rr_mediatorId : option string }.

Record OutOfBandRecord := {
  record_id : string;
  role : OutOfBandRole;
  state : OutOfBandState;
  alias : option string;
  outOfBandInvitation : option OutOfBandInvitation;
  v2OutOfBandInvitation : option V2OutOfBandInvitation;
  mediatorId : option string;
  reusable : bool;
  autoAcceptConnection : option bool;
  recipientKeyFingerprints : list string;          (* tags *)
  recipientRouting : option RecipientRouting }.    (* metadata *)

Definition set_state (r : OutOfBandRecord) (s : OutOfBandState) : OutOfBandRecord :=
  {| record_id := record_id r; role := role r; state := s; alias := alias r;
     outOfBandInvitation := outOfBandInvitation r;
     v2OutOfBandInvitation := v2OutOfBandInvitation r;
     mediatorId := mediatorId r; reusable := reusable r;
     autoAcceptConnection := autoAcceptConnection r;
     recipientKeyFingerprints := recipientKeyFingerprints r;
     recipientRouting := recipientRouting r |}.

Definition set_recipientRouting (r : OutOfBandRecord) (m : RecipientRouting) : OutOfBandRecord :=
  {| record_id := record_id r; role := role r; state := state r; alias := alias r;
     outOfBandInvitation := outOfBandInvitation r;
     v2OutOfBandInvitation := v2OutOfBandInvitation r;
     mediatorId := mediatorId r; reusable := reusable r;
     autoAcceptConnection := autoAcceptConnection r;
     recipientKeyFingerprints := recipientKeyFingerprints r;
     recipientRouting := Some m |}.

(* The relationship, owned by the connections module. *)
Record ConnectionRecord := {
  connection_id : string;
  isReady : bool }.

Record HandshakeReuseMessage := { threadId : string }.

Record HandshakeReusedEvent := {
  event_contextCorrelationId : string;         (* metadata *)
  reuseThreadId : string;                      (* payload *)
  event_outOfBandRecord : OutOfBandRecord;
  event_connectionRecord : ConnectionRecord }.

Record ResolvedDidCommService := { resolved_recipientKeys : list Key }.

(* Options of connectionsApi.acceptOutOfBandInvitation *)
Record HandshakeConfig := {
  hs_label : option string;
  hs_alias : option string;
  hs_imageUrl : option string;
  hs_autoAcceptConnection : option bool;
  protocol : HandshakeProtocol;
  hs_routing : option Routing }.

Record ParsedMessageType := {
  messageTypeUri : string;
  documentUri : string;
  protocolName : string;
  protocolMajorVersion : nat;
  protocolMinorVersion : nat;
  messageName : string }.

(* T | null | undefined, for the one function that returns all three *)
Inductive Nullable (A : Type) :=
| Value (a : A)
| Null
| Undefined.
Arguments Value {A}.
Arguments Null {A}.
Arguments Undefined {A}.

Definition truthy_nullable {A} (n : Nullable A) : option A :=
  match n with
  | Value a => Some a
  | Null | Undefined => None
  end.

(* --------------------------------------------------------------------- *)
(* Errors, collaborator calls, and the monad of the API methods          *)
(* --------------------------------------------------------------------- *)

(* The messages of the AriesFrameworkError thrown by OutOfBandApi. *)
Inductive ErrorMessage :=
| HandshakeOrRequestsRequired        (* 'One or both of handshake_protocols and requests~attach MUST be included ...' *)
| HandshakeFalseWithProtocols        (* 'Attribute handshake can not be false when handshakeProtocols is defined.' *)
| MultiUseWithMessages               (* 'Attribute multiUseInvitation can not be true when messages is defined.' *)
| InvitationAlreadyReceived (invitationId : string)
| UnableToReceive
| NoHandshakeProtocolSupported       (* 'There is no handshake protocol supported. Agent can not create a connection.' *)
| HandshakeProtocolsNotSupported (requested supported : list HandshakeProtocol)
| NoServices                         (* 'There are no services. We can not emit messages' *)
| NoSupportedRequestMessage.         (* 'There is no message in requests~attach supported by agent.' *)

Inductive Failure :=
| AriesFrameworkError (m : ErrorMessage)
| RecordNotFoundError (id : string)
| Rejection (e : Rx.RxError).

(* Calls that leave the API: on the repository, the event emitter, the
   connections module, the routing service, the message sender. *)
Inductive Effect :=
| RepositorySave (r : OutOfBandRecord)
| RepositoryUpdate (r : OutOfBandRecord)
| RepositoryDelete (id : string)
| StateChangedEvent (r : OutOfBandRecord) (previousState : option OutOfBandState)
| FindByInvitationDid (did : string)
| FindAllByOutOfBandId (id : string)
| AcceptOutOfBandInvitation (r : OutOfBandRecord) (c : HandshakeConfig)
| ReturnWhenIsConnected (connectionId : string) (timeoutMs : Z)
| V2CreateInvitation (i : V2OutOfBandInvitation)
| V2AcceptInvitation (i : V2OutOfBandInvitation)
| GetRouting
| RemoveRouting (keys : list Key) (mediator : string)
| ResolveServicesFromDid (did : string)
| CreateHandShakeReuse (r : OutOfBandRecord) (c : ConnectionRecord)
| SendMessage (m : HandshakeReuseMessage) (c : ConnectionRecord)
| AgentMessageReceived (m : PlaintextMessage) (connection : option ConnectionRecord).

(* What the injected collaborators answer. The API never looks inside them,
   so each is a function of its arguments. *)
Record Agent := {
  (* agentContext *)
  config_label : string;
  config_connectionImageUrl : option string;
  contextCorrelationId : string;
  uuid : nat → string;
  (* connectionsApi *)
  autoAcceptConnections : bool;
  findByInvitationDid : string → list ConnectionRecord;
  findAllByOutOfBandId : string → list ConnectionRecord;
  acceptOutOfBandInvitation : OutOfBandRecord → HandshakeConfig → ConnectionRecord;
  (* messageHandlerRegistry and utils/messageType *)
  filterSupportedProtocolsByMessageFamilies : list string → list HandshakeProtocol;
  supportedMessageTypes : list ParsedMessageType;
  parseMessageType : string → ParsedMessageType;
  supportsIncomingMessageType : ParsedMessageType → ParsedMessageType → bool;
  (* routingService, didCommDocumentService, dids *)
  getRouting : Routing;
  resolveServicesFromDid : string → list ResolvedDidCommService;
  didKey_did : Key → string;                   (* new DidKey(key).did *)
  didKey_fingerprint : string → string;        (* DidKey.fromDid(did).key.fingerprint *)
  (* oob services, helpers and message classes *)
  invitationDids : OutOfBandInvitation → list string;
  convertToNewInvitation : ConnectionInvitationMessage → OutOfBandInvitation;
  v2_createInvitation : option string → option string → option (list string) →
                        list Attachment → string → V2OutOfBandInvitation;
  v2_acceptInvitation : V2OutOfBandInvitation → option ConnectionRecord;
  createJSONV2Attachment : string → PlaintextMessage → Attachment;
  createHandShakeReuse : OutOfBandRecord → ConnectionRecord → HandshakeReuseMessage;
  (* eventEmitter.observable(OutOfBandEventTypes.HandshakeReused), as seen
     from the subscription made by handleHandshakeReuse *)
  handshakeReused : Rx.Observable HandshakeReusedEvent }.

Record World := {
  store : gmap string OutOfBandRecord;    (* the out-of-band repository *)
  log : list Effect;                      (* collaborator calls, oldest first *)
  uuids : nat }.                          (* uuid() calls made so far *)

Inductive Outcome (A : Type) :=
| Returned (a : A)
| Thrown (e : Failure)
| NeverSettles.
Arguments Returned {A}.
Arguments Thrown {A}.
Arguments NeverSettles {A}.

Definition M (A : Type) : Type := World → Outcome A * World.

Definition ret {A} (a : A) : M A := λ w, (Returned a, w).

Definition bind {A B} (m : M A) (k : A → M B) : M B :=
  λ w, match m w with
       | (Returned a, w') => k a w'
       | (Thrown e, w') => (Thrown e, w')
       | (NeverSettles, w') => (NeverSettles, w')
       end.

Definition throw {A} (e : Failure) : M A := λ w, (Thrown e, w).

Definition throwAries {A} (m : ErrorMessage) : M A := throw (AriesFrameworkError m).

Notation "x <- m ;; k" := (bind m (λ x, k))
  (at level 100, m at next level, right associativity).
Notation "m ;;; k" := (bind m (λ _, k))
  (at level 100, right associativity).

Definition perform (e : Effect) : M unit :=
  λ w, (Returned tt, {| store := store w; log := log w ++ [e]; uuids := uuids w |}).

Definition readStore : M (gmap string OutOfBandRecord) := λ w, (Returned (store w), w).

Definition writeStore (f : gmap string OutOfBandRecord → gmap string OutOfBandRecord) : M unit :=
  λ w, (Returned tt, {| store := f (store w); log := log w; uuids := uuids w |}).

(* A synchronous helper that may throw. *)
Definition lift {A} (r : Failure + A) : M A :=
  match r with
  | inl e => throw e
  | inr a => ret a
  end.

(* await p *)
Definition await {A} (p : Rx.Settled A) : M A :=
  match p with
  | Rx.Resolved _ v => ret v
  | Rx.Rejected _ e => throw (Rejection e)
  | Rx.Pending => λ w, (NeverSettles, w)
  end.

(* for (const x of l) { body }, where the body may `return` from the
   enclosing function. *)
Inductive LoopStep (R : Type) :=
| Continue
| Return (r : R).
Arguments Continue {R}.
Arguments Return {R}.

Fixpoint for_of {A R} (l : list A) (body : A → M (LoopStep R)) : M (option R) :=
  match l with
  | [] => ret None
  | x :: rest =>
      s <- body x ;;
      match s with
      | Return r => ret (Some r)
      | Continue => for_of rest body
      end
  end.

Section Api.

Variable agent : Agent.

Definition freshUuid : M string :=
  λ w, (Returned (uuid agent (uuids w)),
        {| store := store w; log := log w; uuids := S (uuids w) |}).

(* --------------------------------------------------------------------- *)
(* OutOfBandService and its repository                                   *)
(* --------------------------------------------------------------------- *)

(** Modelled from the spec: OutOfBandRecord.getTags is not under src. The
    record is looked up by "invitation identity", the identifier of the one
    invitation variant it holds. *)
Definition record_invitationId (r : OutOfBandRecord) : option string :=
  match outOfBandInvitation r with
  | Some i => Some (invitation_id i)
  | None => v2_id <$> v2OutOfBandInvitation r
  end.

(** Modelled from the spec: OutOfBandService.save is not under src. The
    record is persisted under its own identity. *)
Definition save (r : OutOfBandRecord) : M unit :=
  writeStore (insert (record_id r) r) ;;;
  perform (RepositorySave r).

(** Modelled from the spec: OutOfBandService.emitStateChangedEvent is not
    under src. A state-changed event carries the record and its previous
    state. *)
Definition emitStateChangedEvent (r : OutOfBandRecord) (previousState : option OutOfBandState) : M unit :=
  perform (StateChangedEvent r previousState).

(** Modelled from the spec: OutOfBandService.getById is not under src. It
    fails when no record has the identity (see the @throws of
    OutOfBandApi.getById). *)
Definition getById (outOfBandId : string) : M OutOfBandRecord :=
  s <- readStore ;;
  match s !! outOfBandId with
  | Some r => ret r
  | None => throw (RecordNotFoundError outOfBandId)
  end.

(** Modelled from the spec: OutOfBandService.findAllByQuery is not under
    src. Query by field predicate, here `{ invitationId, role }`. *)
Definition findAllByQuery (invitationId : string) (queryRole : OutOfBandRole) : M (list OutOfBandRecord) :=
  s <- readStore ;;
  ret (List.filter
         (λ r, bool_decide (record_invitationId r = Some invitationId) &&
               bool_decide (role r = queryRole))
         (map snd (map_to_list s))).

(** Modelled from the spec: OutOfBandService.updateState is not under src.
    An explicit state transition: the record object is mutated, persisted,
    and a state-changed event with the previous state is emitted. The
    mutated object is the one the caller keeps using, so it is returned. *)
Definition updateState (r : OutOfBandRecord) (newState : OutOfBandState) : M OutOfBandRecord :=
  let previousState := state r in
  let r' := set_state r newState in
  writeStore (insert (record_id r') r') ;;;
  perform (RepositoryUpdate r') ;;;
  emitStateChangedEvent r' (Some previousState) ;;;
  ret r'.

(** Modelled from the spec: OutOfBandService.deleteById is not under src.
    The record is deleted explicitly. *)
Definition service_deleteById (outOfBandId : string) : M unit :=
  writeStore (delete outOfBandId) ;;;
  perform (RepositoryDelete outOfBandId).

(* --------------------------------------------------------------------- *)
(* OutOfBandApi: private helpers                                         *)
(* --------------------------------------------------------------------- *)

(* outOfBandInvitation.getRequests() *)
Definition getRequests (i : OutOfBandInvitation) : option (list PlaintextMessage) := requests i.

(* outOfBandInvitation.getServices() *)
Definition getServices (i : OutOfBandInvitation) : list InvitationService := services i.

(* String.prototype.startsWith *)
Definition startsWith (s searchString : string) : bool := String.prefix searchString s.

Definition handshakeMessageFamilies : list string :=
  ["https://didcomm.org/didexchange"; "https://didcomm.org/connections"].

(* .filter((item): item is string => !!item) on Array<string | undefined> *)
Definition filter_truthy (l : list (option string)) : list string :=
  omap (λ item, match item with
                | Some s => if Js.truthy_string s then Some s else None
                | None => None
                end) l.

Definition getSupportedHandshakeProtocols : Failure + list HandshakeProtocol :=
  let handshakeProtocols :=
    filterSupportedProtocolsByMessageFamilies agent handshakeMessageFamilies in
  if (length handshakeProtocols =? 0)%nat
  then inl (AriesFrameworkError NoHandshakeProtocolSupported)
  else
    (* Order protocols according to `handshakeMessageFamilies` array *)
    let orderedProtocols :=
      filter_truthy
        (map (λ messageFamily, Js.find (λ p, startsWith p messageFamily) handshakeProtocols)
             handshakeMessageFamilies) in
    inr orderedProtocols.

Definition areHandshakeProtocolsSupported (handshakeProtocols : list HandshakeProtocol)
  : Failure + bool :=
  match getSupportedHandshakeProtocols with
  | inl e => inl e
  | inr supportedProtocols =>
      inr (Js.every (λ p, Js.includes supportedProtocols p) handshakeProtocols)
  end.

Definition assertHandshakeProtocols (handshakeProtocols : list HandshakeProtocol)
  : Failure + unit :=
  match areHandshakeProtocolsSupported handshakeProtocols with
  | inl e => inl e
  | inr true => inr tt
  | inr false =>
      match getSupportedHandshakeProtocols with
      | inl e => inl e
      | inr supportedProtocols =>
          inl (AriesFrameworkError
                 (HandshakeProtocolsNotSupported handshakeProtocols supportedProtocols))
      end
  end.

Definition getFirstSupportedProtocol (handshakeProtocols : list HandshakeProtocol)
  : Failure + HandshakeProtocol :=
  match getSupportedHandshakeProtocols with
  | inl e => inl e
  | inr supportedProtocols =>
      let handshakeProtocol :=
        Js.find (λ p, Js.includes supportedProtocols p) handshakeProtocols in
      match handshakeProtocol with
      | Some p =>
          if Js.truthy_string p then inr p
          else inl (AriesFrameworkError
                      (HandshakeProtocolsNotSupported handshakeProtocols supportedProtocols))
      | None =>
          inl (AriesFrameworkError
                 (HandshakeProtocolsNotSupported handshakeProtocols supportedProtocols))
      end
  end.

(* const [firstConnection] = connections *)
Definition firstOf {A} (l : list A) : Nullable A :=
  match l with
  | x :: _ => Value x
  | [] => Undefined
  end.

Definition findExistingConnection (outOfBandInvitation : OutOfBandInvitation)
  : M (Nullable ConnectionRecord) :=
  r <- for_of (invitationDids agent outOfBandInvitation)
         (λ invitationDid,
            perform (FindByInvitationDid invitationDid) ;;;
            let connections := findByInvitationDid agent invitationDid in
            if (length connections =? 1)%nat then
              ret (Return (firstOf connections))
            else if (1 <? length connections)%nat then
              (* warns that more than one connection exists, takes the first *)
              ret (Return (firstOf connections))
            else
              ret (Return Null)) ;;
  match r with
  | Some c => ret c
  | None => ret Undefined      (* the loop body never ran *)
  end.

(* The predicate both emit helpers pass to messages.find *)
Definition canProcess (message : PlaintextMessage) : bool :=
  let parsedMessageType := parseMessageType agent (message_type message) in
  Js.truthy_obj
    (Js.find (λ type, supportsIncomingMessageType agent parsedMessageType type)
             (supportedMessageTypes agent)).

Definition emitWithConnection (connectionRecord : ConnectionRecord)
    (messages : list PlaintextMessage) : M unit :=
  let plaintextMessage := Js.find canProcess messages in
  match plaintextMessage with
  | None => throwAries NoSupportedRequestMessage
  | Some m => perform (AgentMessageReceived m (Some connectionRecord))
  end.

Definition emitWithServices (services : list InvitationService)
    (messages : list PlaintextMessage) : M unit :=
  if (length services =? 0)%nat then throwAries NoServices
  else
    let plaintextMessage := Js.find canProcess messages in
    match plaintextMessage with
    | None => throwAries NoSupportedRequestMessage
    | Some m => perform (AgentMessageReceived m None)
    end.

(* filterContextCorrelationId, from agent/Events *)
Definition filterContextCorrelationId (contextCorrelationId : string)
    (source : Rx.Observable HandshakeReusedEvent) : Rx.Observable HandshakeReusedEvent :=
  Rx.filter (λ event, bool_decide (event_contextCorrelationId event = contextCorrelationId))
            source.

Definition REUSE_TIMEOUT_MS : N := 15000.

(* The predicate given to first(...) *)
Definition reuseAccepted (reuseMessage : HandshakeReuseMessage)
    (outOfBandRecord : OutOfBandRecord) (connectionRecord : ConnectionRecord)
    (event : HandshakeReusedEvent) : bool :=
  bool_decide (reuseThreadId event = threadId reuseMessage) &&
  bool_decide (record_id (event_outOfBandRecord event) = record_id outOfBandRecord) &&
  bool_decide (connection_id (event_connectionRecord event) = connection_id connectionRecord).

Definition reuseAcceptedEventPromise (reuseMessage : HandshakeReuseMessage)
    (outOfBandRecord : OutOfBandRecord) (connectionRecord : ConnectionRecord)
  : Rx.Settled bool :=
  Rx.firstValueFrom
    (Rx.catchError (λ _, Rx.of_ false)
       (Rx.timeout REUSE_TIMEOUT_MS
          (Rx.map (λ _, true)
             (Rx.first (reuseAccepted reuseMessage outOfBandRecord connectionRecord)
                (filterContextCorrelationId (contextCorrelationId agent)
                   (handshakeReused agent)))))).

Definition handleHandshakeReuse (outOfBandRecord : OutOfBandRecord)
    (connectionRecord : ConnectionRecord) : M bool :=
  perform (CreateHandShakeReuse outOfBandRecord connectionRecord) ;;;
  let reuseMessage := createHandShakeReuse agent outOfBandRecord connectionRecord in
  let promise := reuseAcceptedEventPromise reuseMessage outOfBandRecord connectionRecord in
  perform (SendMessage reuseMessage connectionRecord) ;;;
  await promise.

(* --------------------------------------------------------------------- *)
(* OutOfBandApi.acceptInvitation                                         *)
(* --------------------------------------------------------------------- *)

Record AcceptInvitationConfig := {
  accept_autoAcceptConnection : option bool;
  accept_reuseConnection : option bool;
  accept_label : option string;
  accept_alias : option string;
  accept_imageUrl : option string;
  accept_routing : option Routing;
  timeoutMs : option Z }.

Definition AcceptResult : Type := OutOfBandRecord * option ConnectionRecord.

Definition routingOfRecipientRouting (m : RecipientRouting) : Routing :=
  {| recipientKey := fromFingerprint (recipientKeyFingerprint m);
     routingKeys := map fromFingerprint (routingKeyFingerprints m);
     endpoints := rr_endpoints m;
     routing_mediatorId := rr_mediatorId m |}.

Definition DEFAULT_ACCEPT_TIMEOUT_MS : Z := 20000.

Definition acceptInvitation (outOfBandId : string) (config : AcceptInvitationConfig)
  : M AcceptResult :=
  outOfBandRecord <- getById outOfBandId ;;
  match v2OutOfBandInvitation outOfBandRecord with
  | Some v2Invitation =>
      perform (V2AcceptInvitation v2Invitation) ;;;
      let connectionRecord := v2_acceptInvitation agent v2Invitation in
      ret (outOfBandRecord, connectionRecord)
  | None =>
  match outOfBandInvitation outOfBandRecord with
  | Some outOfBandInvitation =>
      let reuseConnection := accept_reuseConnection config in
      let services := getServices outOfBandInvitation in
      let messages := getRequests outOfBandInvitation in
      let timeoutMs := Js.nullish (timeoutMs config) DEFAULT_ACCEPT_TIMEOUT_MS in
      let routing :=
        match accept_routing config with
        | Some r => Some r
        | None => routingOfRecipientRouting <$> recipientRouting outOfBandRecord
        end in
      existingConnection <- findExistingConnection outOfBandInvitation ;;
      outOfBandRecord <- updateState outOfBandRecord PrepareResponse ;;
      match handshakeProtocols outOfBandInvitation with
      | Some handshakeProtocols =>
          reused <-
            match truthy_nullable existingConnection, reuseConnection with
            | Some existing, Some true =>
                match messages with
                | None =>
                    isHandshakeReuseSuccessful <-
                      handleHandshakeReuse outOfBandRecord existing ;;
                    if isHandshakeReuseSuccessful : bool
                    then ret (Some existing)
                    else ret None
                | Some _ => ret (Some existing)
                end
            | _, _ => ret None
            end ;;
          connectionRecord <-
            match reused with
            | Some c => ret c
            | None =>
                handshakeProtocol <- lift (getFirstSupportedProtocol handshakeProtocols) ;;
                let c := {| hs_label := accept_label config;
                            hs_alias := accept_alias config;
                            hs_imageUrl := accept_imageUrl config;
                            hs_autoAcceptConnection := accept_autoAcceptConnection config;
                            protocol := handshakeProtocol;
                            hs_routing := routing |} in
                perform (AcceptOutOfBandInvitation outOfBandRecord c) ;;;
                ret (acceptOutOfBandInvitation agent outOfBandRecord c)
            end ;;
          match messages with
          | Some messages =>
              if isReady connectionRecord
              then emitWithConnection connectionRecord messages
              else
                (* the promise is not awaited: only the wait is registered
                   before the method returns *)
                perform (ReturnWhenIsConnected (connection_id connectionRecord) timeoutMs)
          | None => ret tt
          end ;;;
          ret (outOfBandRecord, Some connectionRecord)
      | None =>
          match messages with
          | Some messages =>
              match truthy_nullable existingConnection with
              | Some existing => emitWithConnection existing messages
              | None => emitWithServices services messages
              end
          | None => ret tt
          end ;;;
          ret (outOfBandRecord, None)
      end
  | None => ret (outOfBandRecord, None)
  end
  end.

(* --------------------------------------------------------------------- *)
(* OutOfBandApi: reception                                               *)
(* --------------------------------------------------------------------- *)

Record BaseReceiveOutOfBandInvitationConfig := {
  receive_label : option string;
  receive_alias : option string;
  receive_imageUrl : option string;
  autoAcceptInvitation : option bool;
  receive_autoAcceptConnection : option bool;
  receive_reuseConnection : option bool;
  receive_routing : option Routing;
  acceptInvitationTimeoutMs : option Z;
  isImplicit : option bool }.

(* for (const x of l) { acc = body(acc, x) } without early exit *)
Fixpoint for_each {A S} (l : list A) (acc : S) (body : S → A → M S) : M S :=
  match l with
  | [] => ret acc
  | x :: rest => acc' <- body acc x ;; for_each rest acc' body
  end.

(* a length test on `T[] | undefined`: !l || l.length === 0 *)
Definition absentOrEmpty {A} (l : option (list A)) : bool :=
  match l with
  | None => true
  | Some l => (length l =? 0)%nat
  end.

(* The two instanceof tests of _receiveInvitation: a v2 invitation is kept,
   a v1 invitation is kept, anything else is a legacy connection invitation
   and is converted to the v1 representation. *)
Definition normalized (invitation : ReceivedInvitation)
  : V2OutOfBandInvitation + OutOfBandInvitation :=
  match invitation with
  | IsV2OutOfBandInvitation v2Invitation => inl v2Invitation
  | IsOutOfBandInvitation outOfBandInvitation => inr outOfBandInvitation
  | IsConnectionInvitationMessage legacy => inr (convertToNewInvitation agent legacy)
  end.

Definition _receiveInvitation (invitation : ReceivedInvitation)
    (config : BaseReceiveOutOfBandInvitationConfig) : M AcceptResult :=
  let routing := receive_routing config in
  let autoAcceptInvitation := Js.nullish (autoAcceptInvitation config) true in
  let autoAcceptConnection := Js.nullish (receive_autoAcceptConnection config) true in
  let reuseConnection := Js.nullish (receive_reuseConnection config) false in
  let label := Js.nullish (receive_label config) (config_label agent) in
  let alias := receive_alias config in
  let imageUrl :=
    match receive_imageUrl config with
    | Some u => Some u
    | None => config_connectionImageUrl agent
    end in
  outOfBandRecord <-
    match normalized invitation with
    | inl v2Invitation =>
        rid <- freshUuid ;;
        ret {| record_id := rid; role := Receiver; state := Initial; alias := None;
               outOfBandInvitation := None;
               v2OutOfBandInvitation := Some v2Invitation;
               mediatorId := None; reusable := false;
               autoAcceptConnection := Some autoAcceptConnection;
               recipientKeyFingerprints := []; recipientRouting := None |}
    | inr outOfBandInvitation =>
        let handshakeProtocols := handshakeProtocols outOfBandInvitation in
        let messages := getRequests outOfBandInvitation in
        let isConnectionless := absentOrEmpty handshakeProtocols in
        if absentOrEmpty handshakeProtocols && absentOrEmpty messages
        then throwAries HandshakeOrRequestsRequired
        else
          (* Make sure we haven't received this invitation before *)
          (if negb (Js.nullish (isImplicit config) false) then
             existingOobRecordsFromThisId <-
               findAllByQuery (invitation_id outOfBandInvitation) Receiver ;;
             if (0 <? length existingOobRecordsFromThisId)%nat
             then throwAries (InvitationAlreadyReceived (invitation_id outOfBandInvitation))
             else ret tt
           else ret tt) ;;;
          recipientKeyFingerprints <-
            for_each (getServices outOfBandInvitation) []
              (λ acc service,
                 match service with
                 | DidService did =>
                     perform (ResolveServicesFromDid did) ;;;
                     let resolvedDidCommServices := resolveServicesFromDid agent did in
                     ret (acc ++ map fingerprint
                                   (concat (map resolved_recipientKeys resolvedDidCommServices)))
                 | InlineService s =>
                     ret (acc ++ map (didKey_fingerprint agent) (recipientKeys s))
                 end) ;;
          rid <- freshUuid ;;
          let outOfBandRecord :=
            {| record_id := rid; role := Receiver; state := Initial; alias := None;
               outOfBandInvitation := Some outOfBandInvitation;
               v2OutOfBandInvitation := None;
               mediatorId := routing ≫= routing_mediatorId;
               reusable := false;
               autoAcceptConnection := Some autoAcceptConnection;
               recipientKeyFingerprints := recipientKeyFingerprints;
               recipientRouting := None |} in
          (* store the routing for the first message sent in response *)
          match routing with
          | Some routing =>
              if isConnectionless || negb autoAcceptInvitation
              then ret (set_recipientRouting outOfBandRecord
                          {| recipientKeyFingerprint := fingerprint (recipientKey routing);
                             routingKeyFingerprints := map fingerprint (routingKeys routing);
                             rr_endpoints := endpoints routing;
                             rr_mediatorId := routing_mediatorId routing |})
              else ret outOfBandRecord
          | None => ret outOfBandRecord
          end
    end ;;
  save outOfBandRecord ;;;
  emitStateChangedEvent outOfBandRecord None ;;;
  if autoAcceptInvitation then
    acceptInvitation (record_id outOfBandRecord)
      {| accept_label := Some label;
         accept_alias := alias;
         accept_imageUrl := imageUrl;
         accept_autoAcceptConnection := Some autoAcceptConnection;
         accept_reuseConnection := Some reuseConnection;
         accept_routing := routing;
         timeoutMs := acceptInvitationTimeoutMs config |}
  else ret (outOfBandRecord, None).

(* ReceiveOutOfBandInvitationConfig = Omit<Base..., 'isImplicit'> *)
Record ReceiveOutOfBandInvitationConfig := {
  r_label : option string;
  r_alias : option string;
  r_imageUrl : option string;
  r_autoAcceptInvitation : option bool;
  r_autoAcceptConnection : option bool;
  r_reuseConnection : option bool;
  r_routing : option Routing;
  r_acceptInvitationTimeoutMs : option Z }.

Definition receiveInvitation (invitation : ReceivedInvitation)
    (config : ReceiveOutOfBandInvitationConfig) : M AcceptResult :=
  _receiveInvitation invitation
    {| receive_label := r_label config; receive_alias := r_alias config;
       receive_imageUrl := r_imageUrl config;
       autoAcceptInvitation := r_autoAcceptInvitation config;
       receive_autoAcceptConnection := r_autoAcceptConnection config;
       receive_reuseConnection := r_reuseConnection config;
       receive_routing := r_routing config;
       acceptInvitationTimeoutMs := r_acceptInvitationTimeoutMs config;
       isImplicit := None |}.

(* Omit<Base..., 'isImplicit' | 'reuseConnection'> & { did, handshakeProtocols? } *)
Record ReceiveOutOfBandImplicitInvitationConfig := {
  did : string;
  implicit_handshakeProtocols : option (list HandshakeProtocol);
  i_label : option string;
  i_alias : option string;
  i_imageUrl : option string;
  i_autoAcceptInvitation : option bool;
  i_autoAcceptConnection : option bool;
  i_routing : option Routing;
  i_acceptInvitationTimeoutMs : option Z }.

(* HandshakeProtocol.DidExchange *)
Definition DidExchange : HandshakeProtocol := "https://didcomm.org/didexchange/1.0".

(* HandshakeProtocol.Connections *)
Definition Connections : HandshakeProtocol := "https://didcomm.org/connections/1.0".

Definition receiveImplicitInvitation (config : ReceiveOutOfBandImplicitInvitationConfig)
  : M AcceptResult :=
  let invitation :=
    {| invitation_id := did config;
       label := Some (Js.nullish (i_label config) "");
       goal := None; goalCode := None; imageUrl := None; accept := None;
       services := [DidService (did config)];
       handshakeProtocols :=
         Some (Js.nullish (implicit_handshakeProtocols config) [DidExchange]);
       requests := None; appendedAttachments := None |} in
  _receiveInvitation (IsOutOfBandInvitation invitation)
    {| receive_label := i_label config; receive_alias := i_alias config;
       receive_imageUrl := i_imageUrl config;
       autoAcceptInvitation := i_autoAcceptInvitation config;
       receive_autoAcceptConnection := i_autoAcceptConnection config;
       receive_reuseConnection := None;
       receive_routing := i_routing config;
       acceptInvitationTimeoutMs := i_acceptInvitationTimeoutMs config;
       isImplicit := Some true |}.

(* --------------------------------------------------------------------- *)
(* OutOfBandApi: creation                                                *)
(* --------------------------------------------------------------------- *)

Record CreateV11OutOfBandInvitationConfig := {
  create_alias : option string;
  create_goalCode : option string;
  create_goal : option string;
  create_label : option string;
  create_imageUrl : option string;
  handshake : option bool;
  create_handshakeProtocols : option (list HandshakeProtocol);
  messages : option (list PlaintextMessage);
  multiUseInvitation : option bool;
  create_autoAcceptConnection : option bool;
  create_routing : option Routing;
  create_appendedAttachments : option (list Attachment) }.

Record CreateV20OutOfBandInvitationConfig := {
  v2_create_alias : option string;
  v2_create_goalCode : option string;
  v2_create_goal : option string;
  v2_create_accept : option (list string);
  v2_create_messages : option (list PlaintextMessage);
  v2_create_appendedAttachments : option (list Attachment) }.

(* discriminated by `config.version === OutOfBandVersion.V2` *)
Inductive CreateOutOfBandInvitationConfig :=
| VersionV1 (c : CreateV11OutOfBandInvitationConfig)
| VersionV2 (c : CreateV20OutOfBandInvitationConfig).

Definition didCommProfiles : list string := ["didcomm/aip1"; "didcomm/aip2;env=rfc19"].

(* l && l.length > 0 ? l : undefined *)
Definition nonEmptyOrUndefined {A} (l : option (list A)) : option (list A) :=
  match l with
  | Some l' => if (0 <? length l')%nat then Some l' else None
  | None => None
  end.

(* message.service = undefined, when set *)
Definition clearService (m : PlaintextMessage) : PlaintextMessage :=
  {| message_id := message_id m; message_type := message_type m; message_service := None |}.

(** Modelled from the spec: OutOfBandInvitation.addRequest is not under src.
    The message is attached as a request; the attachment that wraps it takes
    a fresh identifier, which the request list of this model does not keep. *)
Definition addRequest (message : PlaintextMessage) : M unit :=
  _ <- freshUuid ;; ret tt.

Definition createInvitation (config : CreateOutOfBandInvitationConfig) : M OutOfBandRecord :=
  outOfBandRecord <-
    match config with
    | VersionV2 config =>
        attachments <-
          for_each (Js.nullish (v2_create_messages config) [])
            (Js.nullish (v2_create_appendedAttachments config) [])
            (λ attachments message,
               u <- freshUuid ;;
               ret (attachments ++ [createJSONV2Attachment agent u message])) ;;
        u <- freshUuid ;;
        let outOfBandInvitation :=
          v2_createInvitation agent (v2_create_goal config) (v2_create_goalCode config)
            (v2_create_accept config) attachments u in
        perform (V2CreateInvitation outOfBandInvitation) ;;;
        rid <- freshUuid ;;
        ret {| record_id := rid; role := Sender; state := AwaitResponse;
               alias := v2_create_alias config;
               outOfBandInvitation := None;
               v2OutOfBandInvitation := Some outOfBandInvitation;
               mediatorId := None; reusable := false; autoAcceptConnection := None;
               recipientKeyFingerprints := []; recipientRouting := None |}
    | VersionV1 config =>
        let multiUseInvitation := Js.nullish (multiUseInvitation config) false in
        let handshake := Js.nullish (handshake config) true in
        let customHandshakeProtocols := create_handshakeProtocols config in
        let autoAcceptConnection :=
          Js.nullish (create_autoAcceptConnection config) (autoAcceptConnections agent) in
        (* We don't want to treat an empty array as messages being provided *)
        let messages := nonEmptyOrUndefined (messages config) in
        let label := Js.nullish (create_label config) (config_label agent) in
        let imageUrl :=
          match create_imageUrl config with
          | Some u => Some u
          | None => config_connectionImageUrl agent
          end in
        let appendedAttachments := nonEmptyOrUndefined (create_appendedAttachments config) in
        if negb handshake && negb (Js.truthy_obj messages) then
          throwAries HandshakeOrRequestsRequired
        else if negb handshake && Js.truthy_obj customHandshakeProtocols then
          throwAries HandshakeFalseWithProtocols
        else if Js.truthy_obj messages && multiUseInvitation then
          throwAries MultiUseWithMessages
        else
          handshakeProtocols <-
            (if handshake then
               match customHandshakeProtocols with
               | Some custom =>
                   lift (assertHandshakeProtocols custom) ;;;
                   ret (Some custom)
               | None =>
                   supported <- lift getSupportedHandshakeProtocols ;;
                   ret (Some supported)
               end
             else ret None) ;;
          routing <-
            match create_routing config with
            | Some r => ret r
            | None => perform GetRouting ;;; ret (getRouting agent)
            end ;;
          let services :=
            imap (λ index endpoint,
                    {| service_id := "#inline-" +:+ pretty index;
                       serviceEndpoint := endpoint;
                       recipientKeys := map (didKey_did agent) [recipientKey routing];
                       service_routingKeys := map (didKey_did agent) (routingKeys routing) |})
                 (endpoints routing) in
          iid <- freshUuid ;;
          let outOfBandInvitation :=
            {| invitation_id := iid;
               label := Some label;
               goal := create_goal config;
               goalCode := create_goalCode config;
               imageUrl := imageUrl;
               accept := Some didCommProfiles;
               services := map InlineService services;
               handshakeProtocols := handshakeProtocols;
               (* the requests added below, service cleared *)
               requests := map clearService <$> messages;
               appendedAttachments := appendedAttachments |} in
          (* if (messages) messages.forEach((message) => ...addRequest(message)) *)
          for_each (Js.nullish messages []) tt (λ _ message, addRequest message) ;;;
          rid <- freshUuid ;;
          ret {| record_id := rid;
                 mediatorId := routing_mediatorId routing;
                 role := Sender;
                 state := AwaitResponse;
                 alias := create_alias config;
                 outOfBandInvitation := Some outOfBandInvitation;
                 v2OutOfBandInvitation := None;
                 reusable := multiUseInvitation;
                 autoAcceptConnection := Some autoAcceptConnection;
                 recipientKeyFingerprints :=
                   map (didKey_fingerprint agent) (concat (map recipientKeys services));
                 recipientRouting := None |}
    end ;;
  save outOfBandRecord ;;;
  emitStateChangedEvent outOfBandRecord None ;;;
  ret outOfBandRecord.

(* --------------------------------------------------------------------- *)
(* OutOfBandApi: deletion                                                *)
(* --------------------------------------------------------------------- *)

Definition deleteById (outOfBandId : string) : M unit :=
  outOfBandRecord <- getById outOfBandId ;;
  perform (FindAllByOutOfBandId outOfBandId) ;;;
  let relatedConnections := findAllByOutOfBandId agent outOfBandId in
  (* If it uses mediation and there are no related connections, proceed to
     delete keys from mediator *)
  match mediatorId outOfBandRecord with
  | Some mediator =>
      if Js.truthy_string mediator &&
         ((length relatedConnections =? 0)%nat || reusable outOfBandRecord)
      then
        let recipientKeys :=
          map fromFingerprint (recipientKeyFingerprints outOfBandRecord) in
        perform (RemoveRouting recipientKeys mediator)
      else ret tt
  | None => ret tt
  end ;;;
  service_deleteById outOfBandId.

End Api.

(* Running a method from a given world. *)
Definition run {A} (m : M A) (w : World) : Outcome A * World := m w.

Definition emptyWorld : World := {| store := ∅; log := []; uuids := 0 |}.

End OutOfBand.

(* --------------------------------------------------------------------- *)
(* Vocabulary of the statements                                          *)
(* --------------------------------------------------------------------- *)
Module Spec.
Import OutOfBand.

(* x is the first element of l that satisfies p. *)
Definition first_satisfying {A} (p : A → bool) (l : list A) (x : A) : Prop :=
  ∃ pre post, l = pre ++ x :: post ∧ p x = true ∧ Forall (λ y, p y = false) pre.

Definition none_satisfying {A} (p : A → bool) (l : list A) : Prop :=
  Forall (λ y, p y = false) l.

(* The collaborator calls a method makes when started in w. *)
Definition emitted {A} (m : M A) (w : World) : list Effect :=
  drop (length (log w)) (log (m w).2).

(* The locally supported handshake protocols: what
   getSupportedHandshakeProtocols yields, nothing when it throws. *)
Definition locallySupported (agent : Agent) : list HandshakeProtocol :=
  match getSupportedHandshakeProtocols agent with
  | inr l => l
  | inl _ => []
  end.

(* The errors that report that no usable handshake protocol was found. *)
Definition unsupportedProtocolError (e : Failure) : Prop :=
  e = AriesFrameworkError NoHandshakeProtocolSupported ∨
  ∃ requested supported,
    e = AriesFrameworkError (HandshakeProtocolsNotSupported requested supported).


(* w after the calls es have been logged. *)
Definition logged (w : World) (es : list Effect) : World :=
  {| store := store w; log := log w ++ es; uuids := uuids w |}.

(* The relationship findExistingConnection settles on: the lookup for the
   first invitation-derived identifier, nothing else. *)
Definition existingConnectionOf (agent : Agent) (i : OutOfBandInvitation)
  : Nullable ConnectionRecord :=
  match invitationDids agent i with
  | [] => Undefined
  | d :: _ =>
      match findByInvitationDid agent d with
      | c :: _ => Value c
      | [] => Null
      end
  end.

(* A method that leaves the repository alone and only adds to the log. *)
Definition onlyLogs {A} (m : M A) : Prop :=
  ∀ w, ∃ es, (m w).2 = {| store := store w; log := log w ++ es; uuids := uuids (m w).2 |}.

Definition isRemoveRouting (e : Effect) : bool :=
  match e with
  | RemoveRouting _ _ => true
  | _ => false
  end.

Definition isReturnWhenIsConnected (e : Effect) : bool :=
  match e with
  | ReturnWhenIsConnected _ _ => true
  | _ => false
  end.

Definition isAgentMessageReceived (e : Effect) : bool :=
  match e with
  | AgentMessageReceived _ _ => true
  | _ => false
  end.

Definition isAcceptOutOfBandInvitation (e : Effect) : bool :=
  match e with
  | AcceptOutOfBandInvitation _ _ => true
  | _ => false
  end.

Definition isFindByInvitationDid (e : Effect) : bool :=
  match e with
  | FindByInvitationDid _ => true
  | _ => false
  end.

(* The part of acceptInvitation that follows the transition to
   PrepareResponse, for a v1 invitation: the decision tree on handshake
   protocols, reuse and attached requests. `acceptInvitation_v1` below
   proves that acceptInvitation is the lookup, the transition, and this. *)
Definition decisionTree (agent : Agent) (config : AcceptInvitationConfig)
    (outOfBandRecord : OutOfBandRecord) (outOfBandInvitation : OutOfBandInvitation)
    (existingConnection : Nullable ConnectionRecord) (routing : option Routing)
  : M AcceptResult :=
  match handshakeProtocols outOfBandInvitation with
  | Some handshakeProtocols =>
      reused <-
        match truthy_nullable existingConnection, accept_reuseConnection config with
        | Some existing, Some true =>
            match getRequests outOfBandInvitation with
            | None =>
                isHandshakeReuseSuccessful <-
                  handleHandshakeReuse agent outOfBandRecord existing ;;
                if isHandshakeReuseSuccessful : bool
                then ret (Some existing)
                else ret None
            | Some _ => ret (Some existing)
            end
        | _, _ => ret None
        end ;;
      connectionRecord <-
        match reused with
        | Some c => ret c
        | None =>
            handshakeProtocol <- lift (getFirstSupportedProtocol agent handshakeProtocols) ;;
            let c := {| hs_label := accept_label config;
                        hs_alias := accept_alias config;
                        hs_imageUrl := accept_imageUrl config;
                        hs_autoAcceptConnection := accept_autoAcceptConnection config;
                        protocol := handshakeProtocol;
                        hs_routing := routing |} in
            perform (AcceptOutOfBandInvitation outOfBandRecord c) ;;;
            ret (acceptOutOfBandInvitation agent outOfBandRecord c)
        end ;;
      match getRequests outOfBandInvitation with
      | Some messages =>
          if isReady connectionRecord
          then emitWithConnection agent connectionRecord messages
          else
            perform (ReturnWhenIsConnected (connection_id connectionRecord)
                       (Js.nullish (timeoutMs config) DEFAULT_ACCEPT_TIMEOUT_MS))
      | None => ret tt
      end ;;;
      ret (outOfBandRecord, Some connectionRecord)
  | None =>
      match getRequests outOfBandInvitation with
      | Some messages =>
          match truthy_nullable existingConnection with
          | Some existing => emitWithConnection agent existing messages
          | None => emitWithServices agent (getServices outOfBandInvitation) messages
          end
      | None => ret tt
      end ;;;
      ret (outOfBandRecord, None)
  end.

(* The routing acceptInvitation settles on: the caller's, else the one
   stashed in the record's metadata, else none. *)
Definition routingFor (config : AcceptInvitationConfig) (r : OutOfBandRecord)
  : option Routing :=
  match accept_routing config with
  | Some routing => Some routing
  | None => routingOfRecipientRouting <$> recipientRouting r
  end.

(* What acceptInvitation logs before the decision tree of a v1 invitation. *)
Definition prepareEffects (agent : Agent) (r : OutOfBandRecord) (i : OutOfBandInvitation)
  : list Effect :=
  match invitationDids agent i with
  | [] => []
  | d :: _ => [FindByInvitationDid d]
  end ++
  [RepositoryUpdate (set_state r PrepareResponse);
   StateChangedEvent (set_state r PrepareResponse) (Some (state r))].

(* The options acceptInvitation hands to the connections module. *)
Definition handshakeConfigFor (config : AcceptInvitationConfig) (p : HandshakeProtocol)
    (routing : option Routing) : HandshakeConfig :=
  {| hs_label := accept_label config;
     hs_alias := accept_alias config;
     hs_imageUrl := accept_imageUrl config;
     hs_autoAcceptConnection := accept_autoAcceptConnection config;
     protocol := p;
     hs_routing := routing |}.

(* The relationship acceptance settles on when the invitation carries
   requests: the existing one when reuse is asked for (no reuse handshake is
   run in the presence of requests), a new one otherwise, and, without
   handshake protocols, the existing one if there is any. `r` is the record
   as acceptance holds it, already in PrepareResponse. *)
Inductive chosenRelationship (agent : Agent) (config : AcceptInvitationConfig)
    (r : OutOfBandRecord) (i : OutOfBandInvitation) (routing : option Routing)
  : ConnectionRecord → Prop :=
| chosen_existing hs c :
    handshakeProtocols i = Some hs →
    truthy_nullable (existingConnectionOf agent i) = Some c →
    accept_reuseConnection config = Some true →
    chosenRelationship agent config r i routing c
| chosen_created hs p :
    handshakeProtocols i = Some hs →
    truthy_nullable (existingConnectionOf agent i) = None ∨
      accept_reuseConnection config ≠ Some true →
    getFirstSupportedProtocol agent hs = inr p →
    chosenRelationship agent config r i routing
      (acceptOutOfBandInvitation agent r (handshakeConfigFor config p routing))
| chosen_connectionless c :
    handshakeProtocols i = None →
    truthy_nullable (existingConnectionOf agent i) = Some c →
    chosenRelationship agent config r i routing c.

(* The three configurations createInvitation rejects for v1, on the values
   it works with: `handshake` defaults to true, `multiUseInvitation` to
   false, and an empty `messages` array counts as no messages. *)
Definition handshakeDisabled (c : CreateV11OutOfBandInvitationConfig) : Prop :=
  Js.nullish (handshake c) true = false.

Definition messagesAttached (c : CreateV11OutOfBandInvitationConfig) : Prop :=
  ∃ ms, messages c = Some ms ∧ ms ≠ [].

Definition protocolListGiven (c : CreateV11OutOfBandInvitationConfig) : Prop :=
  ∃ l, create_handshakeProtocols c = Some l.

Definition multiUse (c : CreateV11OutOfBandInvitationConfig) : Prop :=
  Js.nullish (multiUseInvitation c) false = true.

Definition rejectedConfiguration (c : CreateV11OutOfBandInvitationConfig) : Prop :=
  (handshakeDisabled c ∧ ¬ messagesAttached c) ∨
  (handshakeDisabled c ∧ protocolListGiven c) ∨
  (messagesAttached c ∧ multiUse c).

(* The agent can serve the handshake protocols the configuration needs: it
   supports at least one, and every protocol of an explicit list. *)
Definition protocolsServed (agent : Agent) (c : CreateV11OutOfBandInvitationConfig) : Prop :=
  ∃ supported,
    getSupportedHandshakeProtocols agent = inr supported ∧
    ∀ l, create_handshakeProtocols c = Some l → Forall (λ p, p ∈ supported) l.

Definition configurationError (e : Failure) : Prop :=
  e = AriesFrameworkError HandshakeOrRequestsRequired ∨
  e = AriesFrameworkError HandshakeFalseWithProtocols ∨
  e = AriesFrameworkError MultiUseWithMessages.

(* The handshake protocols an implicit invitation is built with. *)
Definition implicitProtocols (c : ReceiveOutOfBandImplicitInvitationConfig)
  : list HandshakeProtocol :=
  Js.nullish (implicit_handshakeProtocols c) [DidExchange].

(* The invitation receiveImplicitInvitation synthesizes, the record that
   reception builds for it in world w, and the options it accepts with. *)
Definition implicitInvitation (c : ReceiveOutOfBandImplicitInvitationConfig)
  : OutOfBandInvitation :=
  {| invitation_id := did c;
     label := Some (Js.nullish (i_label c) "");
     goal := None; goalCode := None; imageUrl := None; accept := None;
     services := [DidService (did c)];
     handshakeProtocols := Some (implicitProtocols c);
     requests := None; appendedAttachments := None |}.

Definition implicitRecord (agent : Agent) (c : ReceiveOutOfBandImplicitInvitationConfig)
    (w : World) : OutOfBandRecord :=
  let outOfBandRecord :=
    {| record_id := uuid agent (uuids w); role := Receiver; state := Initial;
       alias := None;
       outOfBandInvitation := Some (implicitInvitation c);
       v2OutOfBandInvitation := None;
       mediatorId := i_routing c ≫= routing_mediatorId;
       reusable := false;
       autoAcceptConnection := Some (Js.nullish (i_autoAcceptConnection c) true);
       recipientKeyFingerprints :=
         map fingerprint
           (concat (map resolved_recipientKeys (resolveServicesFromDid agent (did c))));
       recipientRouting := None |} in
  match i_routing c with
  | Some routing =>
      if absentOrEmpty (Some (implicitProtocols c)) ||
         negb (Js.nullish (i_autoAcceptInvitation c) true)
      then set_recipientRouting outOfBandRecord
             {| recipientKeyFingerprint := fingerprint (recipientKey routing);
                routingKeyFingerprints := map fingerprint (routingKeys routing);
                rr_endpoints := endpoints routing;
                rr_mediatorId := routing_mediatorId routing |}
      else outOfBandRecord
  | None => outOfBandRecord
  end.

Definition implicitAccept (agent : Agent) (c : ReceiveOutOfBandImplicitInvitationConfig)
  : AcceptInvitationConfig :=
  {| accept_label := Some (Js.nullish (i_label c) (config_label agent));
     accept_alias := i_alias c;
     accept_imageUrl :=
       match i_imageUrl c with
       | Some u => Some u
       | None => config_connectionImageUrl agent
       end;
     accept_autoAcceptConnection := Some (Js.nullish (i_autoAcceptConnection c) true);
     accept_reuseConnection := Some false;
     accept_routing := i_routing c;
     timeoutMs := i_acceptInvitationTimeoutMs c |}.

(* The records the duplicate query of _receiveInvitation finds. *)
Definition receivedFor (w : World) (invitationId : string) : list OutOfBandRecord :=
  List.filter
    (λ r, bool_decide (record_invitationId r = Some invitationId) &&
          bool_decide (role r = Receiver))
    (map snd (map_to_list (store w))).

(* What the service loop of _receiveInvitation collects and the resolutions
   it asks for. *)
Definition fingerprintsOf (agent : Agent) (svcs : list InvitationService) : list string :=
  concat (map (λ service,
                 match service with
                 | DidService d =>
                     map fingerprint
                       (concat (map resolved_recipientKeys (resolveServicesFromDid agent d)))
                 | InlineService s => map (didKey_fingerprint agent) (recipientKeys s)
                 end) svcs).

Definition resolutionsOf (svcs : list InvitationService) : list Effect :=
  omap (λ service,
          match service with
          | DidService d => Some (ResolveServicesFromDid d)
          | InlineService _ => None
          end) svcs.

(* The record _receiveInvitation builds for a v1 invitation in world w, and
   the options it accepts with. *)
Definition receivedRecordOf (agent : Agent) (i : OutOfBandInvitation)
    (config : BaseReceiveOutOfBandInvitationConfig) (w : World) : OutOfBandRecord :=
  let outOfBandRecord :=
    {| record_id := uuid agent (uuids w); role := Receiver; state := Initial;
       alias := None;
       outOfBandInvitation := Some i;
       v2OutOfBandInvitation := None;
       mediatorId := receive_routing config ≫= routing_mediatorId;
       reusable := false;
       autoAcceptConnection :=
         Some (Js.nullish (receive_autoAcceptConnection config) true);
       recipientKeyFingerprints := fingerprintsOf agent (getServices i);
       recipientRouting := None |} in
  match receive_routing config with
  | Some routing =>
      if absentOrEmpty (handshakeProtocols i) ||
         negb (Js.nullish (autoAcceptInvitation config) true)
      then set_recipientRouting outOfBandRecord
             {| recipientKeyFingerprint := fingerprint (recipientKey routing);
                routingKeyFingerprints := map fingerprint (routingKeys routing);
                rr_endpoints := endpoints routing;
                rr_mediatorId := routing_mediatorId routing |}
      else outOfBandRecord
  | None => outOfBandRecord
  end.

Definition acceptAfterReceive (agent : Agent)
    (config : BaseReceiveOutOfBandInvitationConfig) : AcceptInvitationConfig :=
  {| accept_label := Some (Js.nullish (receive_label config) (config_label agent));
     accept_alias := receive_alias config;
     accept_imageUrl :=
       match receive_imageUrl config with
       | Some u => Some u
       | None => config_connectionImageUrl agent
       end;
     accept_autoAcceptConnection :=
       Some (Js.nullish (receive_autoAcceptConnection config) true);
     accept_reuseConnection := Some (Js.nullish (receive_reuseConnection config) false);
     accept_routing := receive_routing config;
     timeoutMs := acceptInvitationTimeoutMs config |}.

(* receiveInvitation is _receiveInvitation without the implicit marker. *)
Definition asBase (config : ReceiveOutOfBandInvitationConfig)
  : BaseReceiveOutOfBandInvitationConfig :=
  {| receive_label := r_label config; receive_alias := r_alias config;
     receive_imageUrl := r_imageUrl config;
     autoAcceptInvitation := r_autoAcceptInvitation config;
     receive_autoAcceptConnection := r_autoAcceptConnection config;
     receive_reuseConnection := r_reuseConnection config;
     receive_routing := r_routing config;
     acceptInvitationTimeoutMs := r_acceptInvitationTimeoutMs config;
     isImplicit := None |}.

(* The store holds a record received for the invitation identifier. *)
Definition alreadyReceived (w : World) (invitationId : string) : Prop :=
  ∃ k r, store w !! k = Some r ∧ role r = Receiver ∧
         record_invitationId r = Some invitationId.

Definition returned {A} (o : Outcome A) : bool :=
  match o with
  | Returned _ => true
  | _ => false
  end.

(* A stream that starts with the timed values `pre` and goes on as o. *)
Definition prepend {A} (pre : list (N * A)) (o : Rx.Observable A) : Rx.Observable A :=
  foldr (λ dv rest, Rx.Next dv.1 dv.2 rest) o pre.

(* The time the values of `pre` take to arrive. *)
Definition elapsed {A} (pre : list (N * A)) : N :=
  foldr (λ dv t, (dv.1 + t)%N) 0%N pre.

(* The reuse-accepted signals that arrive at the agent: the HandshakeReused
   events of its own context, as handleHandshakeReuse subscribes to them. *)
Definition arrivingReuseAccepted (agent : Agent) : Rx.Observable HandshakeReusedEvent :=
  filterContextCorrelationId (contextCorrelationId agent) (handshakeReused agent).

(* Such a signal, matching the thread of the reuse message, the record and
   the relationship, arrives less than 15000 ms after the subscription. *)
Definition reuseAcceptedInTime (agent : Agent) (m : HandshakeReuseMessage)
    (r : OutOfBandRecord) (c : ConnectionRecord) : Prop :=
  ∃ pre d event rest,
    arrivingReuseAccepted agent = prepend pre (Rx.Next d event rest) ∧
    reuseThreadId event = threadId m ∧
    record_id (event_outOfBandRecord event) = record_id r ∧
    connection_id (event_connectionRecord event) = connection_id c ∧
    (elapsed pre + d < REUSE_TIMEOUT_MS)%N.

(* `mediatorId` is set: the property holds a non-empty string, the values
   the guard of deleteById takes for true. *)
Definition mediatorIdSet (r : OutOfBandRecord) : Prop :=
  Js.truthy_opt_string (mediatorId r) = true.

(* --------------------------------------------------------------------- *)
(* Creation, in closed form                                              *)
(* --------------------------------------------------------------------- *)

(* The routing createInvitation works with: the caller's, else the routing
   service's. *)
Definition routingOfCreate (agent : Agent) (c : CreateV11OutOfBandInvitationConfig)
  : Routing :=
  Js.nullish (create_routing c) (getRouting agent).

(* The handshake-protocol list createInvitation settles on, or the error it
   stops with: the explicit list once asserted, else the agent's supported
   list, and no list at all when the handshake is disabled. *)
Definition negotiatedProtocols (agent : Agent) (c : CreateV11OutOfBandInvitationConfig)
  : Failure + option (list HandshakeProtocol) :=
  if Js.nullish (handshake c) true then
    match create_handshakeProtocols c with
    | Some custom =>
        match assertHandshakeProtocols agent custom with
        | inl e => inl e
        | inr _ => inr (Some custom)
        end
    | None =>
        match getSupportedHandshakeProtocols agent with
        | inl e => inl e
        | inr supported => inr (Some supported)
        end
    end
  else inr None.

(* The inline services of a created invitation, one per endpoint. *)
Definition createdServices (agent : Agent) (routing : Routing)
  : list OutOfBandDidCommService :=
  imap (λ index endpoint,
          {| service_id := "#inline-" +:+ pretty index;
             serviceEndpoint := endpoint;
             recipientKeys := map (didKey_did agent) [recipientKey routing];
             service_routingKeys := map (didKey_did agent) (routingKeys routing) |})
       (endpoints routing).

(* The invitation and the record createInvitation builds in world w once
   the handshake-protocol list hp is settled: the invitation takes the next
   identifier, each attached request one more, the record the one after. *)
Definition createdInvitation (agent : Agent) (c : CreateV11OutOfBandInvitationConfig)
    (hp : option (list HandshakeProtocol)) (w : World) : OutOfBandInvitation :=
  {| invitation_id := uuid agent (uuids w);
     label := Some (Js.nullish (create_label c) (config_label agent));
     goal := create_goal c;
     goalCode := create_goalCode c;
     imageUrl :=
       match create_imageUrl c with
       | Some u => Some u
       | None => config_connectionImageUrl agent
       end;
     accept := Some didCommProfiles;
     services := map InlineService (createdServices agent (routingOfCreate agent c));
     handshakeProtocols := hp;
     requests := map clearService <$> nonEmptyOrUndefined (messages c);
     appendedAttachments := nonEmptyOrUndefined (create_appendedAttachments c) |}.

Definition createdRecord (agent : Agent) (c : CreateV11OutOfBandInvitationConfig)
    (hp : option (list HandshakeProtocol)) (w : World) : OutOfBandRecord :=
  {| record_id :=
       uuid agent (S (uuids w + length (Js.nullish (nonEmptyOrUndefined (messages c)) [])));
     mediatorId := routing_mediatorId (routingOfCreate agent c);
     role := Sender;
     state := AwaitResponse;
     alias := create_alias c;
     outOfBandInvitation := Some (createdInvitation agent c hp w);
     v2OutOfBandInvitation := None;
     reusable := Js.nullish (multiUseInvitation c) false;
     autoAcceptConnection :=
       Some (Js.nullish (create_autoAcceptConnection c) (autoAcceptConnections agent));
     recipientKeyFingerprints :=
       map (didKey_fingerprint agent)
         (concat (map recipientKeys (createdServices agent (routingOfCreate agent c))));
     recipientRouting := None |}.

(* The first of the three checks of createInvitation that fires, if any. *)
Definition configurationCheck (c : CreateV11OutOfBandInvitationConfig)
  : option ErrorMessage :=
  let handshake := Js.nullish (handshake c) true in
  let messages := nonEmptyOrUndefined (messages c) in
  if negb handshake && negb (Js.truthy_obj messages) then
    Some HandshakeOrRequestsRequired
  else if negb handshake && Js.truthy_obj (create_handshakeProtocols c) then
    Some HandshakeFalseWithProtocols
  else if Js.truthy_obj messages && Js.nullish (multiUseInvitation c) false then
    Some MultiUseWithMessages
  else None.

Definition isSendMessage (e : Effect) : bool :=
  match e with
  | SendMessage _ _ => true
  | _ => false
  end.

(* The attachments of a created v2 invitation in world w: the appended ones,
   then one per message, each under an identifier of its own. *)
Definition v2Attachments (agent : Agent) (c : CreateV20OutOfBandInvitationConfig)
    (w : World) : list Attachment :=
  Js.nullish (v2_create_appendedAttachments c) [] ++
  imap (λ k message, createJSONV2Attachment agent (uuid agent (uuids w + k)) message)
       (Js.nullish (v2_create_messages c) []).

Definition createdV2Invitation (agent : Agent) (c : CreateV20OutOfBandInvitationConfig)
    (w : World) : V2OutOfBandInvitation :=
  v2_createInvitation agent (v2_create_goal c) (v2_create_goalCode c) (v2_create_accept c)
    (v2Attachments agent c w)
    (uuid agent (uuids w + length (Js.nullish (v2_create_messages c) []))).

Definition createdV2Record (agent : Agent) (c : CreateV20OutOfBandInvitationConfig)
    (w : World) : OutOfBandRecord :=
  {| record_id := uuid agent (S (uuids w + length (Js.nullish (v2_create_messages c) [])));
     role := Sender; state := AwaitResponse;
     alias := v2_create_alias c;
     outOfBandInvitation := None;
     v2OutOfBandInvitation := Some (createdV2Invitation agent c w);
     mediatorId := None; reusable := false; autoAcceptConnection := None;
     recipientKeyFingerprints := []; recipientRouting := None |}.

(* The calls the decision tree of acceptInvitation makes: the reuse
   sub-protocol, the handshake, the wait for readiness, the dispatch of a
   request. The lookup of a relationship, the repository and the state
   announcement are not among them. *)
Definition isDecisionCall (e : Effect) : bool :=
  match e with
  | CreateHandShakeReuse _ _ | SendMessage _ _ | AcceptOutOfBandInvitation _ _
  | ReturnWhenIsConnected _ _ | AgentMessageReceived _ _ => true
  | _ => false
  end.

(* A method that leaves the repository and the identifier supply alone and
   only logs calls that satisfy P. *)
Definition logsOnly {A} (P : Effect → Prop) (m : M A) : Prop :=
  ∀ w, ∃ es, (m w).2 = logged w es ∧ Forall P es.

(* The errors the decision tree of acceptInvitation ends with. *)
Definition acceptanceError (e : Failure) : Prop :=
  unsupportedProtocolError e ∨
  e = AriesFrameworkError NoServices ∨
  e = AriesFrameworkError NoSupportedRequestMessage.

(* The record _receiveInvitation builds for a v2 invitation in world w. *)
Definition receivedV2RecordOf (agent : Agent) (v2 : V2OutOfBandInvitation)
    (config : BaseReceiveOutOfBandInvitationConfig) (w : World) : OutOfBandRecord :=
  {| record_id := uuid agent (uuids w); role := Receiver; state := Initial; alias := None;
     outOfBandInvitation := None;
     v2OutOfBandInvitation := Some v2;
     mediatorId := None; reusable := false;
     autoAcceptConnection := Some (Js.nullish (receive_autoAcceptConnection config) true);
     recipientKeyFingerprints := []; recipientRouting := None |}.

(* The two errors reception raises before it persists anything. *)
Definition receptionError (i : OutOfBandInvitation) (e : Failure) : Prop :=
  e = AriesFrameworkError HandshakeOrRequestsRequired ∨
  e = AriesFrameworkError (InvitationAlreadyReceived (invitation_id i)).

(* A method that always settles: with a value in Q or an error in E. *)
Definition endsWith {A} (Q : A → Prop) (E : Failure → Prop) (m : M A) : Prop :=
  ∀ w, match (m w).1 with
       | Returned a => Q a
       | Thrown e => E e
       | NeverSettles => False
       end.

(* The one situation in which acceptance runs the reuse sub-protocol. *)
Definition reuseAttempted (agent : Agent) (config : AcceptInvitationConfig)
    (i : OutOfBandInvitation) : Prop :=
  is_Some (handshakeProtocols i) ∧
  is_Some (truthy_nullable (existingConnectionOf agent i)) ∧
  accept_reuseConnection config = Some true ∧
  requests i = None.

End Spec.

(* --------------------------------------------------------------------- *)
(* A concrete agent and concrete records, used to run the methods        *)
(* --------------------------------------------------------------------- *)
Module Demo.
Import OutOfBand.

Definition connections10 : HandshakeProtocol := "https://didcomm.org/connections/1.0".
Definition didexchange10 : HandshakeProtocol := "https://didcomm.org/didexchange/1.0".
Definition offerType : string := "https://didcomm.org/issue-credential/1.0/offer-credential".
Definition pingType : string := "https://didcomm.org/trust_ping/1.0/ping".

Definition parsed (uri : string) : ParsedMessageType :=
  {| messageTypeUri := uri; documentUri := "https://didcomm.org";
     protocolName := ""; protocolMajorVersion := 1; protocolMinorVersion := 0;
     messageName := "" |}.

Definition readyConnection : ConnectionRecord :=
  {| connection_id := "conn-ready"; isReady := true |}.

Definition otherConnection : ConnectionRecord :=
  {| connection_id := "conn-other"; isReady := true |}.

Definition newConnection : ConnectionRecord :=
  {| connection_id := "conn-new"; isReady := false |}.

Definition v2Connection : ConnectionRecord :=
  {| connection_id := "conn-v2"; isReady := true |}.

Definition demoRouting : Routing :=
  {| endpoints := ["https://agent.example/didcomm"];
     recipientKey := {| fingerprint := "z6MkRecipient" |};
     routingKeys := [];
     routing_mediatorId := None |}.

(* An agent whose handler registry knows the handshake protocols `registry`
   and which observes `events` after subscribing to HandshakeReused. *)
Definition agentWith (registry : list HandshakeProtocol)
    (events : Rx.Observable HandshakeReusedEvent) : Agent :=
  {| config_label := "demo";
     config_connectionImageUrl := None;
     contextCorrelationId := "default";
     uuid := λ n, "uuid-" +:+ pretty n;
     autoAcceptConnections := true;
     findByInvitationDid := λ d,
       if bool_decide (d = "did:peer:known") then [readyConnection]
       else if bool_decide (d = "did:peer:shared") then [otherConnection; readyConnection]
       else [];
     findAllByOutOfBandId := λ i,
       if bool_decide (i = "oob-used") then [readyConnection] else [];
     acceptOutOfBandInvitation := λ _ _, newConnection;
     filterSupportedProtocolsByMessageFamilies := λ _, registry;
     supportedMessageTypes := [parsed offerType];
     parseMessageType := parsed;
     supportsIncomingMessageType := λ a b,
       bool_decide (messageTypeUri a = messageTypeUri b);
     getRouting := demoRouting;
     resolveServicesFromDid := λ _,
       [{| resolved_recipientKeys := [{| fingerprint := "z6MkResolved" |}] |}];
     didKey_did := λ k, "did:key:" +:+ fingerprint k;
     didKey_fingerprint := λ d, String.substring 8 (String.length d - 8) d;
     invitationDids := λ i,
       map (λ s, match s with
                 | DidService d => d
                 | InlineService s => "did:peer:2" +:+ service_id s
                 end) (services i);
     convertToNewInvitation := λ l,
       {| invitation_id := legacy_id l; label := Some (legacy_label l);
          goal := None; goalCode := None; imageUrl := None; accept := None;
          services := [InlineService
                         {| service_id := "#inline"; serviceEndpoint := legacy_endpoint l;
                            recipientKeys := legacy_recipientKeys l;
                            service_routingKeys := legacy_routingKeys l |}];
          handshakeProtocols := Some [connections10];
          requests := None; appendedAttachments := None |};
     v2_createInvitation := λ g gc a atts u,
       {| v2_id := u; v2_goal := g; v2_goalCode := gc; v2_accept := a;
          v2_attachments := atts |};
     v2_acceptInvitation := λ _, Some v2Connection;
     createJSONV2Attachment := λ u m,
       {| attachment_id := u; attachment_data := message_type m |};
     createHandShakeReuse := λ r _, {| threadId := "thread-" +:+ record_id r |};
     handshakeReused := events |}.

Definition demoAgent : Agent := agentWith [connections10; didexchange10] Rx.Silent.

(* An agent with no handshake protocol registered at all. *)
Definition bareAgent : Agent := agentWith [] Rx.Silent.

Definition offer : PlaintextMessage :=
  {| message_id := "m-offer"; message_type := offerType; message_service := None |}.

Definition ping : PlaintextMessage :=
  {| message_id := "m-ping"; message_type := pingType; message_service := None |}.

Definition inlineService : InvitationService :=
  InlineService {| service_id := "#inline-0";
                   serviceEndpoint := "https://inviter.example";
                   recipientKeys := ["did:key:z6MkInviter"];
                   service_routingKeys := [] |}.

Definition invitationWith (iid : string) (svcs : list InvitationService)
    (hs : option (list HandshakeProtocol)) (ms : option (list PlaintextMessage))
  : OutOfBandInvitation :=
  {| invitation_id := iid; label := Some "inviter"; goal := None; goalCode := None;
     imageUrl := None; accept := None; services := svcs;
     handshakeProtocols := hs; requests := ms; appendedAttachments := None |}.

(* Inline service, a handshake asked for, nothing attached. *)
Definition handshakeInvitation : OutOfBandInvitation :=
  invitationWith "inv-1" [inlineService] (Some [didexchange10; connections10]) None.

(* No handshake asked for; a ping and an offer attached. *)
Definition connectionlessInvitation : OutOfBandInvitation :=
  invitationWith "inv-2" [inlineService] None (Some [ping; offer]).

(* The same without any declared service. *)
Definition noServiceInvitation : OutOfBandInvitation :=
  invitationWith "inv-3" [] None (Some [offer]).

(* An empty handshake-protocol array next to an attached offer. *)
Definition emptyHandshakeInvitation : OutOfBandInvitation :=
  invitationWith "inv-4" [inlineService] (Some []) (Some [offer]).

(* A handshake asked for by an inviter the agent already knows, with a ping
   and an offer attached. *)
Definition knownInviterInvitation : OutOfBandInvitation :=
  invitationWith "inv-5" [DidService "did:peer:known"] (Some [connections10])
    (Some [ping; offer]).

(* The same inviter, nothing attached. *)
Definition knownInviterHandshake : OutOfBandInvitation :=
  invitationWith "inv-6" [DidService "did:peer:known"] (Some [connections10]) None.

Definition receivedRecord (rid : string) (i : OutOfBandInvitation) : OutOfBandRecord :=
  {| record_id := rid; role := Receiver; state := Initial; alias := None;
     outOfBandInvitation := Some i; v2OutOfBandInvitation := None;
     mediatorId := None; reusable := false; autoAcceptConnection := Some true;
     recipientKeyFingerprints := ["z6MkInviter"]; recipientRouting := None |}.

Definition v2Invitation : V2OutOfBandInvitation :=
  {| v2_id := "inv-v2"; v2_goal := None; v2_goalCode := None; v2_accept := None;
     v2_attachments := [] |}.

Definition receivedV2Record (rid : string) : OutOfBandRecord :=
  {| record_id := rid; role := Receiver; state := Initial; alias := None;
     outOfBandInvitation := None; v2OutOfBandInvitation := Some v2Invitation;
     mediatorId := None; reusable := false; autoAcceptConnection := Some true;
     recipientKeyFingerprints := []; recipientRouting := None |}.

(* A created, non-reusable record whose routing went through a mediator. *)
Definition mediatedRecord : OutOfBandRecord :=
  {| record_id := "oob-free"; role := Sender; state := AwaitResponse; alias := None;
     outOfBandInvitation :=
       Some (invitationWith "inv-free" [inlineService] (Some [connections10]) None);
     v2OutOfBandInvitation := None;
     mediatorId := Some "mediator-1"; reusable := false;
     autoAcceptConnection := Some true;
     recipientKeyFingerprints := ["z6MkRecipient"]; recipientRouting := None |}.

(* The same record under the identity for which a relationship exists. *)
Definition usedRecord : OutOfBandRecord :=
  {| record_id := "oob-used"; role := Sender; state := AwaitResponse; alias := None;
     outOfBandInvitation :=
       Some (invitationWith "inv-used" [inlineService] (Some [connections10]) None);
     v2OutOfBandInvitation := None;
     mediatorId := Some "mediator-1"; reusable := false;
     autoAcceptConnection := Some true;
     recipientKeyFingerprints := ["z6MkRecipient"]; recipientRouting := None |}.

Definition worldWith (r : OutOfBandRecord) : World :=
  {| store := {[ record_id r := r ]}; log := []; uuids := 0 |}.

Definition acceptDefaults : AcceptInvitationConfig :=
  {| accept_autoAcceptConnection := None; accept_reuseConnection := None;
     accept_label := None; accept_alias := None; accept_imageUrl := None;
     accept_routing := None; timeoutMs := None |}.

Definition acceptWithReuse : AcceptInvitationConfig :=
  {| accept_autoAcceptConnection := None; accept_reuseConnection := Some true;
     accept_label := None; accept_alias := None; accept_imageUrl := None;
     accept_routing := None; timeoutMs := None |}.

(* createInvitation({}) *)
Definition createDefaults : CreateV11OutOfBandInvitationConfig :=
  {| create_alias := None; create_goalCode := None; create_goal := None;
     create_label := None; create_imageUrl := None; handshake := None;
     create_handshakeProtocols := None; messages := None;
     multiUseInvitation := None; create_autoAcceptConnection := None;
     create_routing := None; create_appendedAttachments := None |}.

(* A reuse-accepted signal for record "oob-6" on the ready relationship,
   preceded by a signal of another record; and the agent that observes
   them 200 ms and 1500 ms after subscribing. *)
Definition otherReuseAccepted : HandshakeReusedEvent :=
  {| event_contextCorrelationId := "default";
     reuseThreadId := "thread-oob-9";
     event_outOfBandRecord := receivedRecord "oob-9" knownInviterHandshake;
     event_connectionRecord := readyConnection |}.

Definition reuseAcceptedSignal : HandshakeReusedEvent :=
  {| event_contextCorrelationId := "default";
     reuseThreadId := "thread-oob-6";
     event_outOfBandRecord := receivedRecord "oob-6" knownInviterHandshake;
     event_connectionRecord := readyConnection |}.

Definition answeringAgent : Agent :=
  agentWith [connections10; didexchange10]
    (Rx.Next 200 otherReuseAccepted (Rx.Next 1300 reuseAcceptedSignal Rx.Silent)).

(* A known inviter asking for a protocol the agent does not have. *)
Definition unknownProtocolInvitation : OutOfBandInvitation :=
  invitationWith "inv-8" [DidService "did:peer:known"]
    (Some ["https://example.org/handshake/1.0"]) None.

(* receiveInvitation(invitation) with no options *)
Definition plainReceive : ReceiveOutOfBandInvitationConfig :=
  {| r_label := None; r_alias := None; r_imageUrl := None;
     r_autoAcceptInvitation := None; r_autoAcceptConnection := None;
     r_reuseConnection := None; r_routing := None;
     r_acceptInvitationTimeoutMs := None |}.

(* receiveImplicitInvitation({ did }) *)
Definition implicitFor (d : string) : ReceiveOutOfBandImplicitInvitationConfig :=
  {| did := d; implicit_handshakeProtocols := None; i_label := None; i_alias := None;
     i_imageUrl := None; i_autoAcceptInvitation := None; i_autoAcceptConnection := None;
     i_routing := None; i_acceptInvitationTimeoutMs := None |}.

(* A routing with two endpoints behind a mediator. *)
Definition twoEndpointRouting : Routing :=
  {| endpoints := ["https://agent.example/didcomm"; "wss://agent.example/ws"];
     recipientKey := {| fingerprint := "z6MkRecipient" |};
     routingKeys := [{| fingerprint := "z6MkMediator" |}];
     routing_mediatorId := Some "mediator-1" |}.

(* createInvitation({ routing }) *)
Definition createWithRouting : CreateV11OutOfBandInvitationConfig :=
  {| create_alias := None; create_goalCode := None; create_goal := None;
     create_label := None; create_imageUrl := None; handshake := None;
     create_handshakeProtocols := None; messages := None;
     multiUseInvitation := None; create_autoAcceptConnection := None;
     create_routing := Some twoEndpointRouting; create_appendedAttachments := None |}.

(* An offer that still carries its own service decorator. *)
Definition decoratedOffer : PlaintextMessage :=
  {| message_id := "m-offer"; message_type := offerType;
     message_service := Some "https://issuer.example" |}.

(* createInvitation({ handshake: false, messages: [offer] }) *)
Definition createConnectionless : CreateV11OutOfBandInvitationConfig :=
  {| create_alias := None; create_goalCode := None; create_goal := None;
     create_label := None; create_imageUrl := None; handshake := Some false;
     create_handshakeProtocols := None; messages := Some [decoratedOffer];
     multiUseInvitation := None; create_autoAcceptConnection := None;
     create_routing := None; create_appendedAttachments := None |}.

(* createInvitation({ handshakeProtocols: [] }) *)
Definition createWithEmptyList : CreateV11OutOfBandInvitationConfig :=
  {| create_alias := None; create_goalCode := None; create_goal := None;
     create_label := None; create_imageUrl := None; handshake := None;
     create_handshakeProtocols := Some []; messages := None;
     multiUseInvitation := None; create_autoAcceptConnection := None;
     create_routing := None; create_appendedAttachments := None |}.

(* The agent a, knowing the inviter d through the relationship c. *)
Definition knowing (d : string) (c : ConnectionRecord) (a : Agent) : Agent :=
  {| config_label := config_label a;
     config_connectionImageUrl := config_connectionImageUrl a;
     contextCorrelationId := contextCorrelationId a;
     uuid := uuid a;
     autoAcceptConnections := autoAcceptConnections a;
     findByInvitationDid := λ x,
       if bool_decide (x = d) then [c] else findByInvitationDid a x;
     findAllByOutOfBandId := findAllByOutOfBandId a;
     acceptOutOfBandInvitation := acceptOutOfBandInvitation a;
     filterSupportedProtocolsByMessageFamilies := filterSupportedProtocolsByMessageFamilies a;
     supportedMessageTypes := supportedMessageTypes a;
     parseMessageType := parseMessageType a;
     supportsIncomingMessageType := supportsIncomingMessageType a;
     getRouting := getRouting a;
     resolveServicesFromDid := resolveServicesFromDid a;
     didKey_did := didKey_did a;
     didKey_fingerprint := didKey_fingerprint a;
     invitationDids := invitationDids a;
     convertToNewInvitation := convertToNewInvitation a;
     v2_createInvitation := v2_createInvitation a;
     v2_acceptInvitation := v2_acceptInvitation a;
     createJSONV2Attachment := createJSONV2Attachment a;
     createHandShakeReuse := createHandShakeReuse a;
     handshakeReused := handshakeReused a |}.

(* A relationship with an inviter that has not completed its handshake. *)
Definition pendingConnection : ConnectionRecord :=
  {| connection_id := "conn-pending"; isReady := false |}.

Definition pendingAgent : Agent := knowing "did:peer:pending" pendingConnection demoAgent.

(* No handshake asked for, an offer attached, by the inviter of the pending
   relationship. *)
Definition pendingInviterInvitation : OutOfBandInvitation :=
  invitationWith "inv-9" [DidService "did:peer:pending"] None (Some [ping; offer]).

(* receiveInvitation(invitation, { routing, autoAcceptInvitation: false }) *)
Definition receiveForLater : ReceiveOutOfBandInvitationConfig :=
  {| r_label := None; r_alias := None; r_imageUrl := None;
     r_autoAcceptInvitation := Some false; r_autoAcceptConnection := None;
     r_reuseConnection := None; r_routing := Some twoEndpointRouting;
     r_acceptInvitationTimeoutMs := None |}.

(* What createInvitation({}) and createInvitation({ routing }) build when
   they are the first thing the demo agent does, and the world they leave. *)
Definition createdByDefault : OutOfBandRecord :=
  Spec.createdRecord demoAgent createDefaults (Some [didexchange10; connections10])
    emptyWorld.

Definition afterCreateDefaults : World :=
  (createInvitation demoAgent (VersionV1 createDefaults) emptyWorld).2.

Definition createdWithRouting : OutOfBandRecord :=
  Spec.createdRecord demoAgent createWithRouting (Some [didexchange10; connections10])
    emptyWorld.

Definition afterCreateWithRouting : World :=
  (createInvitation demoAgent (VersionV1 createWithRouting) emptyWorld).2.

Definition invitationWithRouting : OutOfBandInvitation :=
  Spec.createdInvitation demoAgent createWithRouting (Some [didexchange10; connections10])
    emptyWorld.

End Demo.

(* --------------------------------------------------------------------- *)
(* OutOfBandApi: the two legacy ways of creating an invitation           *)
(* --------------------------------------------------------------------- *)
Module Legacy.
Import OutOfBand.

Record CreateLegacyInvitationConfig := {
  legacy_create_label : option string;
  legacy_create_alias : option string;
  legacy_create_imageUrl : option string;
  legacy_create_multiUseInvitation : option bool;
  legacy_create_autoAcceptConnection : option bool;
  legacy_create_routing : option Routing }.

(* { ...config, handshakeProtocols: [HandshakeProtocol.Connections] } *)
Definition withConnectionsProtocol (config : CreateLegacyInvitationConfig)
  : CreateV11OutOfBandInvitationConfig :=
  {| create_alias := legacy_create_alias config;
     create_goalCode := None; create_goal := None;
     create_label := legacy_create_label config;
     create_imageUrl := legacy_create_imageUrl config;
     handshake := None;
     create_handshakeProtocols := Some [Connections];
     messages := None;
     multiUseInvitation := legacy_create_multiUseInvitation config;
     create_autoAcceptConnection := legacy_create_autoAcceptConnection config;
     create_routing := legacy_create_routing config;
     create_appendedAttachments := None |}.

Record CreateLegacyConnectionlessInvitationConfig := {
  legacy_recordId : option string;       (* deprecated, has no effect *)
  legacy_message : PlaintextMessage;
  legacy_domain : string;
  legacy_routing : option Routing }.

(* { messages: [config.message], routing: config.routing } *)
Definition withMessage (config : CreateLegacyConnectionlessInvitationConfig)
  : CreateV11OutOfBandInvitationConfig :=
  {| create_alias := None; create_goalCode := None; create_goal := None;
     create_label := None; create_imageUrl := None; handshake := None;
     create_handshakeProtocols := None;
     messages := Some [legacy_message config];
     multiUseInvitation := None; create_autoAcceptConnection := None;
     create_routing := legacy_routing config;
     create_appendedAttachments := None |}.

Record LegacyConnectionlessInvitation := {
  result_message : PlaintextMessage;
  invitationUrl : string;
  result_outOfBandRecord : OutOfBandRecord }.

(* config.message.service = decorator *)
Definition setService (m : PlaintextMessage) (decorator : string) : PlaintextMessage :=
  {| message_id := message_id m; message_type := message_type m;
     message_service := Some decorator |}.

Section LegacyApi.

Variable agent : Agent.

(* Code that is not under src, as parameters: the conversion helper, the
   accessor of the record (which may throw), the service resolution of the
   out-of-band service (asynchronous: it may fail, and call out), the
   service decorator and the JSON/base64url encoding of a message. *)
Variable convertToOldInvitation : OutOfBandInvitation → ConnectionInvitationMessage.
Variable getOutOfBandInvitation : OutOfBandRecord → Failure + OutOfBandInvitation.
Variable getResolvedServiceForOutOfBandServices :
  list InvitationService → M ResolvedDidCommService.
Variable fromResolvedDidCommService : ResolvedDidCommService → string.
Variable toBase64URL : PlaintextMessage → string.

Definition createLegacyInvitation (config : CreateLegacyInvitationConfig)
  : M (OutOfBandRecord * ConnectionInvitationMessage) :=
  outOfBandRecord <- createInvitation agent (VersionV1 (withConnectionsProtocol config)) ;;
  outOfBandInvitation <- lift (getOutOfBandInvitation outOfBandRecord) ;;
  ret (outOfBandRecord, convertToOldInvitation outOfBandInvitation).

Definition createLegacyConnectionlessInvitation
    (config : CreateLegacyConnectionlessInvitationConfig)
  : M LegacyConnectionlessInvitation :=
  outOfBandRecord <- createInvitation agent (VersionV1 (withMessage config)) ;;
  (* Resolve the service and set it on the message *)
  outOfBandInvitation <- lift (getOutOfBandInvitation outOfBandRecord) ;;
  resolvedService <-
    getResolvedServiceForOutOfBandServices (getServices outOfBandInvitation) ;;
  let message :=
    setService (legacy_message config) (fromResolvedDidCommService resolvedService) in
  ret {| result_message := message;
         invitationUrl := legacy_domain config +:+ "?d_m=" +:+ toBase64URL message;
         result_outOfBandRecord := outOfBandRecord |}.

End LegacyApi.

End Legacy.

(* Stand-ins for the code the legacy methods call outside src. *)
Module LegacyDemo.
Import OutOfBand Legacy.

Definition convertToOldInvitation (i : OutOfBandInvitation) : ConnectionInvitationMessage :=
  {| legacy_id := invitation_id i; legacy_label := default "" (label i);
     legacy_endpoint :=
       match services i with
       | InlineService s :: _ => serviceEndpoint s
       | _ => ""
       end;
     legacy_recipientKeys :=
       match services i with
       | InlineService s :: _ => recipientKeys s
       | _ => []
       end;
     legacy_routingKeys :=
       match services i with
       | InlineService s :: _ => service_routingKeys s
       | _ => []
       end |}.

Definition getOutOfBandInvitation (r : OutOfBandRecord) : Failure + OutOfBandInvitation :=
  match outOfBandInvitation r with
  | Some i => inr i
  | None => inl (RecordNotFoundError (record_id r))
  end.

Definition resolvedService : ResolvedDidCommService :=
  {| resolved_recipientKeys := [{| fingerprint := "z6MkRecipient" |}] |}.

Definition getResolvedServiceForOutOfBandServices (svcs : list InvitationService)
  : M ResolvedDidCommService :=
  ret resolvedService.

Definition fromResolvedDidCommService (s : ResolvedDidCommService) : string :=
  "did:key:" +:+ String.concat "," (map fingerprint (resolved_recipientKeys s)).

Definition toBase64URL (m : PlaintextMessage) : string := message_id m.

(* createLegacyInvitation({}) *)
Definition legacyDefaults : CreateLegacyInvitationConfig :=
  {| legacy_create_label := None; legacy_create_alias := None;
     legacy_create_imageUrl := None; legacy_create_multiUseInvitation := None;
     legacy_create_autoAcceptConnection := None; legacy_create_routing := None |}.

(* createLegacyConnectionlessInvitation({ message: offer, domain }) *)
Definition offerAtDomain : CreateLegacyConnectionlessInvitationConfig :=
  {| legacy_recordId := None; legacy_message := Demo.offer;
     legacy_domain := "https://issuer.example"; legacy_routing := None |}.

End LegacyDemo.

(* ===================================================================== *)
(* Proofs                                                                *)
(* ===================================================================== *)

Section ListFacts.
Context {A : Type}.
Implicit Types (p : A → bool) (l : list A).

Lemma find_first_satisfying p l x :
  Js.find p l = Some x ↔ Spec.first_satisfying p l x.
Proof.
  unfold Js.find, Spec.first_satisfying. split.
  - induction l as [|y l IH]; simpl; [discriminate|].
    destruct (p y) eqn:Hy.
    + intros [= ->]. exists [], l. auto.
    + intros H. destruct (IH H) as (pre & post & -> & Hx & Hpre).
      exists (y :: pre), post. auto.
  - intros (pre & post & -> & Hx & Hpre).
    induction Hpre as [|y pre Hy _ IH]; simpl.
    + by rewrite Hx.
    + by rewrite Hy.
Qed.

Lemma find_none_satisfying p l :
  Js.find p l = None ↔ Spec.none_satisfying p l.
Proof.
  unfold Js.find, Spec.none_satisfying. induction l as [|y l IH]; simpl.
  - split; auto.
  - destruct (p y) eqn:Hy; split.
    + discriminate.
    + inversion 1; congruence.
    + intros H. constructor; [done|by apply IH].
    + inversion 1; subst. by apply IH.
Qed.

Lemma find_elem_of p l x : Js.find p l = Some x → x ∈ l ∧ p x = true.
Proof.
  intros (pre & post & -> & Hx & _)%find_first_satisfying.
  split; [|done]. apply elem_of_app. right. left.
Qed.

End ListFacts.

Section SetFacts.
Context `{EqDecision A}.

Lemma elem_of_foldl_set_add (l acc : list A) (x : A) :
  x ∈ foldl Js.set_add acc l ↔ x ∈ acc ∨ x ∈ l.
Proof.
  revert acc. induction l as [|y l IH]; intros acc; simpl.
  - rewrite elem_of_nil. tauto.
  - rewrite IH. unfold Js.set_add. rewrite elem_of_cons.
    destruct (decide (y ∈ acc)) as [Hin|Hnin].
    + split; [tauto|]. intros [?|[->|?]]; tauto.
    + rewrite elem_of_app, list_elem_of_singleton. tauto.
Qed.

Lemma elem_of_from_set (l : list A) (x : A) : x ∈ Js.from_set l ↔ x ∈ l.
Proof.
  unfold Js.from_set. rewrite elem_of_foldl_set_add, elem_of_nil. tauto.
Qed.

Lemma NoDup_foldl_set_add (l acc : list A) :
  NoDup acc → NoDup (foldl Js.set_add acc l).
Proof.
  revert acc. induction l as [|y l IH]; intros acc Hacc; simpl; [done|].
  apply IH. unfold Js.set_add. destruct (decide (y ∈ acc)); [done|].
  apply NoDup_app. split_and!; [done| |apply NoDup_singleton].
  intros z Hz ->%list_elem_of_singleton. done.
Qed.

End SetFacts.

(* --------------------------------------------------------------------- *)
(* SigningProviderRegistry                                               *)
(* --------------------------------------------------------------------- *)
Section RegistryFacts.
Import SigningProviderRegistry.
Context {KeyType : Type} `{EqDecision KeyType} {SigningProvider : Type}.
Variable keyType : SigningProvider → KeyType.
Implicit Types (r : t (SigningProvider := SigningProvider)) (k : KeyType).

Lemma has_true_iff r k :
  hasProviderForKeyType keyType r k = true ↔
  ∃ p, Js.find (λ x, bool_decide (keyType x = k)) (signingProviders r) = Some p.
Proof.
  unfold hasProviderForKeyType.
  destruct (Js.find _ _) as [p|]; split; eauto; try discriminate.
  intros [? [=]].
Qed.

Lemma new_drops_default (injected : list Injected) (p : SigningProvider) :
  p ∈ signingProviders (new injected) ↔ Provider p ∈ injected.
Proof.
  unfold new; simpl. induction injected as [|[|q] l IH]; simpl.
  - by rewrite !elem_of_nil.
  - rewrite IH, elem_of_cons. split; [tauto|]. by intros [[=]|?].
  - rewrite !elem_of_cons, IH. split; intros [?|?]; try tauto; left; congruence.
Qed.

(** C10. For every key type k, getProviderForKeyType(k) throws exactly when
    hasProviderForKeyType(k) is false; when hasProviderForKeyType(k) is
    true it returns a registered provider whose keyType is k, and k is a
    member of supportedKeyTypes. *)
Theorem getProviderForKeyType_throws_iff_not_has r k :
  ((∃ e, getProviderForKeyType keyType r k = inl e) ↔
   hasProviderForKeyType keyType r k = false) ∧
  (hasProviderForKeyType keyType r k = true →
   ∃ p, getProviderForKeyType keyType r k = inr p ∧
        p ∈ signingProviders r ∧
        keyType p = k ∧
        k ∈ supportedKeyTypes keyType r).
Proof.
  unfold getProviderForKeyType, hasProviderForKeyType, supportedKeyTypes.
  destruct (Js.find _ _) as [p|] eqn:Hfind; split.
  - split; [intros [? [=]]|discriminate].
  - intros _. apply find_elem_of in Hfind as [Hin Hk].
    apply bool_decide_eq_true in Hk.
    exists p. split_and!; try done.
    apply elem_of_from_set, list_elem_of_fmap. eauto.
  - split; eauto.
  - discriminate.
Qed.

End RegistryFacts.

(* A registry with two providers for one key type and one for another. *)
Lemma getProviderForKeyType_throws_iff_not_has_witness :
  ∃ p : string * string,
    SigningProviderRegistry.getProviderForKeyType fst
      (SigningProviderRegistry.new
         [SigningProviderRegistry.DefaultToken;
          SigningProviderRegistry.Provider ("ed25519", "askar");
          SigningProviderRegistry.Provider ("bls12381g2", "bbs");
          SigningProviderRegistry.Provider ("ed25519", "node")])
      "ed25519" = inr p ∧
    p ∈ SigningProviderRegistry.signingProviders
          (SigningProviderRegistry.new
             [SigningProviderRegistry.DefaultToken;
              SigningProviderRegistry.Provider ("ed25519", "askar");
              SigningProviderRegistry.Provider ("bls12381g2", "bbs");
              SigningProviderRegistry.Provider ("ed25519", "node")]) ∧
    fst p = "ed25519" ∧
    "ed25519" ∈ SigningProviderRegistry.supportedKeyTypes fst
      (SigningProviderRegistry.new
         [SigningProviderRegistry.DefaultToken;
          SigningProviderRegistry.Provider ("ed25519", "askar");
          SigningProviderRegistry.Provider ("bls12381g2", "bbs");
          SigningProviderRegistry.Provider ("ed25519", "node")]).
Proof.
  apply (getProviderForKeyType_throws_iff_not_has fst).
  reflexivity.
Defined.

(* --------------------------------------------------------------------- *)
(* Protocol negotiation                                                  *)
(* --------------------------------------------------------------------- *)
Section Negotiation.
Import OutOfBand Spec.
Implicit Types (agent : Agent) (hs : list HandshakeProtocol) (p : HandshakeProtocol).

Lemma filter_truthy_truthy (l : list (option string)) (s : string) :
  s ∈ filter_truthy l → Js.truthy_string s = true.
Proof.
  unfold filter_truthy. induction l as [|[x|] l IH]; simpl.
  - by intros ?%elem_of_nil.
  - destruct (Js.truthy_string x) eqn:Hx; [|done].
    intros [->|?]%elem_of_cons; auto.
  - done.
Qed.

Lemma locallySupported_truthy agent p :
  p ∈ locallySupported agent → Js.truthy_string p = true.
Proof.
  unfold locallySupported, getSupportedHandshakeProtocols.
  destruct (_ =? _)%nat; [by intros ?%elem_of_nil|].
  apply filter_truthy_truthy.
Qed.

Lemma includes_true (l : list string) (s : string) : Js.includes l s = true ↔ s ∈ l.
Proof. unfold Js.includes. by rewrite bool_decide_eq_true. Qed.

Lemma includes_false (l : list string) (s : string) : Js.includes l s = false ↔ s ∉ l.
Proof. unfold Js.includes. by rewrite bool_decide_eq_false. Qed.

(* What getFirstSupportedProtocol computes, in terms of the supported list. *)
Lemma getFirstSupportedProtocol_unfold agent hs :
  getFirstSupportedProtocol agent hs =
  match getSupportedHandshakeProtocols agent with
  | inl e => inl e
  | inr supported =>
      match Js.find (λ p, Js.includes supported p) hs with
      | Some p => inr p
      | None => inl (AriesFrameworkError (HandshakeProtocolsNotSupported hs supported))
      end
  end.
Proof.
  unfold getFirstSupportedProtocol.
  destruct (getSupportedHandshakeProtocols agent) as [e|supported] eqn:Hs; [done|].
  destruct (Js.find _ hs) as [p|] eqn:Hfind; [|done].
  apply find_elem_of in Hfind as [_ Hin%includes_true].
  rewrite (locallySupported_truthy agent p); [done|].
  unfold locallySupported. by rewrite Hs.
Qed.

Lemma getSupportedHandshakeProtocols_error agent e :
  getSupportedHandshakeProtocols agent = inl e →
  e = AriesFrameworkError NoHandshakeProtocolSupported.
Proof.
  unfold getSupportedHandshakeProtocols. destruct (_ =? _)%nat; congruence.
Qed.

Lemma getFirstSupportedProtocol_selects agent hs p :
  getFirstSupportedProtocol agent hs = inr p ↔
  first_satisfying (λ q, bool_decide (q ∈ locallySupported agent)) hs p.
Proof.
  rewrite getFirstSupportedProtocol_unfold, <- find_first_satisfying.
  unfold locallySupported.
  destruct (getSupportedHandshakeProtocols agent) as [e|supported].
  - split; [discriminate|].
    intros [_ Hp%bool_decide_eq_true]%find_elem_of. by apply elem_of_nil in Hp.
  - change (λ q, bool_decide (q ∈ supported)) with (λ q, Js.includes supported q).
    destruct (Js.find _ hs); split; congruence.
Qed.

Lemma getFirstSupportedProtocol_fails agent hs :
  (∃ e, getFirstSupportedProtocol agent hs = inl e) ↔
  Forall (λ q, q ∉ locallySupported agent) hs.
Proof.
  rewrite getFirstSupportedProtocol_unfold. unfold locallySupported.
  destruct (getSupportedHandshakeProtocols agent) as [e|supported].
  - split; eauto. intros _. apply Forall_forall. intros q _ []%elem_of_nil.
  - destruct (Js.find _ hs) as [p|] eqn:Hfind.
    + split; [intros [? [=]]|].
      apply find_elem_of in Hfind as [Hin Hp%includes_true].
      intros Hall. rewrite Forall_forall in Hall. by destruct (Hall p Hin).
    + split; eauto. intros _.
      apply find_none_satisfying in Hfind. unfold none_satisfying in Hfind.
      eapply Forall_impl; [exact Hfind|]. intros q Hq. by apply includes_false.
Qed.

Lemma getFirstSupportedProtocol_error_kind agent hs e :
  getFirstSupportedProtocol agent hs = inl e → unsupportedProtocolError e.
Proof.
  rewrite getFirstSupportedProtocol_unfold. unfold unsupportedProtocolError.
  destruct (getSupportedHandshakeProtocols agent) as [e'|supported] eqn:Hs.
  - intros [= <-]. left. by eapply getSupportedHandshakeProtocols_error.
  - destruct (Js.find _ hs); [discriminate|]. intros [= <-]. eauto.
Qed.

(** C6. Given an invitation's declared handshake-protocol list, the protocol
    selected for a new handshake is the first entry, in the invitation's own
    order, that belongs to the locally supported set; the order of the local
    list plays no part (two agents supporting the same protocols select the
    same entry); and selection fails with an unsupported-protocol error
    exactly when no entry of the list is locally supported. *)
Theorem getFirstSupportedProtocol_invitation_order agent hs :
  (∀ p, getFirstSupportedProtocol agent hs = inr p ↔
        ∃ pre post, hs = pre ++ p :: post ∧
                    p ∈ locallySupported agent ∧
                    Forall (λ q, q ∉ locallySupported agent) pre) ∧
  (∀ agent', (∀ q, q ∈ locallySupported agent ↔ q ∈ locallySupported agent') →
             ∀ p, getFirstSupportedProtocol agent hs = inr p ↔
                  getFirstSupportedProtocol agent' hs = inr p) ∧
  ((∃ e, getFirstSupportedProtocol agent hs = inl e ∧ unsupportedProtocolError e) ↔
   Forall (λ q, q ∉ locallySupported agent) hs).
Proof.
  assert (Hsel : ∀ a p, getFirstSupportedProtocol a hs = inr p ↔
        ∃ pre post, hs = pre ++ p :: post ∧ p ∈ locallySupported a ∧
                    Forall (λ q, q ∉ locallySupported a) pre).
  { intros a p. rewrite getFirstSupportedProtocol_selects. unfold first_satisfying.
    split; intros (pre & post & -> & Hp & Hpre); exists pre, post.
    - apply bool_decide_eq_true in Hp. split_and!; try done.
      eapply Forall_impl; [exact Hpre|]. intros q. by rewrite bool_decide_eq_false.
    - split_and!; [done|by apply bool_decide_eq_true|].
      eapply Forall_impl; [exact Hpre|]. intros q. by rewrite bool_decide_eq_false. }
  split_and!.
  - apply Hsel.
  - intros agent' Hsame p. rewrite !Hsel.
    split; intros (pre & post & -> & Hp & Hpre); exists pre, post;
      (split_and!; [done|by apply Hsame|]);
      (eapply Forall_impl; [exact Hpre|]); intros q Hq ?; apply Hq; by apply Hsame.
  - rewrite <- getFirstSupportedProtocol_fails. split.
    + intros (e & He & _). eauto.
    + intros [e He]. exists e. split; [done|].
      by eapply getFirstSupportedProtocol_error_kind.
Qed.

End Negotiation.

(* The invitation's order wins over the agent's own order, which puts the
   did-exchange protocol first. *)
Example invitation_order_wins :
  Spec.locallySupported Demo.demoAgent = [Demo.didexchange10; Demo.connections10] ∧
  OutOfBand.getFirstSupportedProtocol Demo.demoAgent
    [Demo.connections10; Demo.didexchange10] = inr Demo.connections10.
Proof. split; reflexivity. Qed.

(* Only the second protocol of the invitation is supported. *)
Example first_supported_is_second :
  OutOfBand.getFirstSupportedProtocol (Demo.agentWith [Demo.connections10] Rx.Silent)
    [Demo.didexchange10; Demo.connections10] = inr Demo.connections10.
Proof. reflexivity. Qed.

Example no_protocol_in_common :
  OutOfBand.getFirstSupportedProtocol Demo.demoAgent ["https://example.org/handshake/1.0"] =
  inl (OutOfBand.AriesFrameworkError
         (OutOfBand.HandshakeProtocolsNotSupported ["https://example.org/handshake/1.0"]
            [Demo.didexchange10; Demo.connections10])).
Proof. reflexivity. Qed.

(* --------------------------------------------------------------------- *)
(* Running methods                                                       *)
(* --------------------------------------------------------------------- *)
(* x ∈ [a; b; ...] by position, and its refutation by cases. *)
Ltac in_list := repeat constructor.

Ltac not_in_list H :=
  repeat (apply elem_of_cons in H as [H|H]; [discriminate H|]);
  apply elem_of_nil in H; destruct H.

(* Two descriptions of one outcome and world, up to the bracketing of the
   log. *)
Ltac same_world :=
  unfold Spec.logged, Spec.handshakeConfigFor; simpl;
  rewrite <- ?app_assoc, ?app_nil_r; simpl;
  try reflexivity;
  match goal with
  | |- (_, ?w) = (_, ?w') => destruct w; simpl; rewrite ?app_nil_r; reflexivity
  end.

Section Running.
Import OutOfBand Spec.

Lemma bind_returned {A B} (m : M A) (k : A → M B) w a w' :
  m w = (Returned a, w') → bind m k w = k a w'.
Proof. unfold bind. by intros ->. Qed.

Lemma bind_thrown {A B} (m : M A) (k : A → M B) w e w' :
  m w = (Thrown e, w') → bind m k w = (Thrown e, w').
Proof. unfold bind. by intros ->. Qed.

Lemma bind_never {A B} (m : M A) (k : A → M B) w w' :
  m w = (NeverSettles, w') → bind m k w = (NeverSettles, w').
Proof. unfold bind. by intros ->. Qed.

Lemma perform_run e w : perform e w = (Returned tt, logged w [e]).
Proof. done. Qed.

Lemma logged_logged w es es' : logged (logged w es) es' = logged w (es ++ es').
Proof. unfold logged; simpl. by rewrite <- app_assoc. Qed.

Lemma logged_nil w : logged w [] = w.
Proof. destruct w. unfold logged; simpl. by rewrite app_nil_r. Qed.

Lemma emitted_logged {A} (m : M A) w o es :
  m w = (o, logged w es) → emitted m w = es.
Proof.
  unfold emitted. intros ->. simpl. by rewrite drop_app_length.
Qed.

Lemma getById_found w id r :
  store w !! id = Some r → getById id w = (Returned r, w).
Proof. unfold getById, bind, readStore, ret. by intros ->. Qed.

Lemma getById_missing w id :
  store w !! id = None → getById id w = (Thrown (RecordNotFoundError id), w).
Proof. unfold getById, bind, readStore, throw. by intros ->. Qed.

Lemma findExistingConnection_run agent i w :
  findExistingConnection agent i w =
  (Returned (existingConnectionOf agent i),
   logged w (match invitationDids agent i with
             | [] => []
             | d :: _ => [FindByInvitationDid d]
             end)).
Proof.
  unfold findExistingConnection, existingConnectionOf.
  destruct (invitationDids agent i) as [|d rest]; simpl.
  - unfold bind, ret. by rewrite logged_nil.
  - unfold bind, ret; simpl.
    destruct (findByInvitationDid agent d) as [|c [|c' l]]; simpl; done.
Qed.

End Running.

(* --------------------------------------------------------------------- *)
(* Lookup of an existing relationship                                    *)
(* --------------------------------------------------------------------- *)
Section ExistingConnection.
Import OutOfBand Spec.

(** C9. For every invitation declaring several invitation-derived
    identifiers, the existing-relationship lookup consults only the first
    identifier and returns after it: the first relationship found for that
    identifier (also when several match, without an error) or null; the
    remaining identifiers are never examined. *)
Theorem findExistingConnection_first_identifier_only
    agent (i : OutOfBandInvitation) (d d' : string) (rest : list string) (w : World) :
  invitationDids agent i = d :: d' :: rest →
  findExistingConnection agent i w =
    (Returned (match findByInvitationDid agent d with
               | c :: _ => Value c
               | [] => Null
               end),
     logged w [FindByInvitationDid d]) ∧
  emitted (findExistingConnection agent i) w = [FindByInvitationDid d].
Proof.
  intros Hdids.
  assert (Hrun := findExistingConnection_run agent i w).
  unfold existingConnectionOf in Hrun. rewrite Hdids in Hrun.
  split; [exact Hrun|]. by eapply emitted_logged.
Qed.

End ExistingConnection.

(* An invitation with two identifiers: only the first is looked up, and of
   the two relationships found for it the first is taken. *)
Lemma findExistingConnection_first_identifier_only_witness :
  OutOfBand.findExistingConnection Demo.demoAgent
    (Demo.invitationWith "inv-1"
       [OutOfBand.DidService "did:peer:shared"; OutOfBand.DidService "did:peer:known"]
       (Some [Demo.connections10]) None)
    OutOfBand.emptyWorld =
    (OutOfBand.Returned (OutOfBand.Value Demo.otherConnection),
     Spec.logged OutOfBand.emptyWorld [OutOfBand.FindByInvitationDid "did:peer:shared"]) ∧
  Spec.emitted
    (OutOfBand.findExistingConnection Demo.demoAgent
       (Demo.invitationWith "inv-1"
          [OutOfBand.DidService "did:peer:shared"; OutOfBand.DidService "did:peer:known"]
          (Some [Demo.connections10]) None))
    OutOfBand.emptyWorld = [OutOfBand.FindByInvitationDid "did:peer:shared"].
Proof.
  apply (findExistingConnection_first_identifier_only Demo.demoAgent _
           "did:peer:shared" "did:peer:known" []).
  reflexivity.
Defined.

(* --------------------------------------------------------------------- *)
(* Deletion                                                              *)
(* --------------------------------------------------------------------- *)
Section Deletion.
Import OutOfBand Spec.

Lemma emitted_of_log {A} (m : M A) w es :
  log (m w).2 = log w ++ es → emitted m w = es.
Proof. unfold emitted. intros ->. by rewrite drop_app_length. Qed.

(* The world deleteById ends in, and what it logged on the way. *)
Lemma deleteById_run agent w id r :
  store w !! id = Some r →
  deleteById agent id w =
  (Returned tt,
   {| store := delete id (store w);
      log := log w ++
             [FindAllByOutOfBandId id] ++
             match mediatorId r with
             | Some m =>
                 if Js.truthy_string m &&
                    ((length (findAllByOutOfBandId agent id) =? 0)%nat || reusable r)
                 then [RemoveRouting (map fromFingerprint (recipientKeyFingerprints r)) m]
                 else []
             | None => []
             end ++
             [RepositoryDelete id];
      uuids := uuids w |}).
Proof.
  intros Hr. unfold deleteById.
  rewrite (bind_returned _ _ _ _ _ (getById_found _ _ _ Hr)).
  unfold service_deleteById, writeStore, bind, perform, ret; simpl.
  destruct (mediatorId r) as [m|]; simpl.
  - destruct (Js.truthy_string m && _); simpl; by rewrite <- !app_assoc.
  - by rewrite <- !app_assoc.
Qed.

(** C7. deleteById releases the record's mediator-held routing keys exactly
    when the record's mediatorId is set (it holds a non-empty string, which
    is what the guard tests) and either no dependent relationship exists or
    the record is reusable: then, between the query for the dependent
    relationships and the deletion, it makes one call that releases, at the
    record's mediator, the keys rebuilt from all the recipient-key
    fingerprints of the record, in their order. Otherwise it releases
    nothing, so a non-reusable record with a dependent relationship releases
    nothing; and in every case the record itself is deleted. *)
Theorem deleteById_releases_routing_keys agent (w : World) (id : string) (r : OutOfBandRecord) :
  store w !! id = Some r →
  ∃ w', deleteById agent id w = (Returned tt, w') ∧
        store w' !! id = None ∧
        RepositoryDelete id ∈ emitted (deleteById agent id) w ∧
        (mediatorIdSet r ∧
         (findAllByOutOfBandId agent id = [] ∨ reusable r = true) →
         ∃ m, mediatorId r = Some m ∧
              emitted (deleteById agent id) w =
                [FindAllByOutOfBandId id;
                 RemoveRouting (map fromFingerprint (recipientKeyFingerprints r)) m;
                 RepositoryDelete id]) ∧
        (¬ (mediatorIdSet r ∧
            (findAllByOutOfBandId agent id = [] ∨ reusable r = true)) →
         emitted (deleteById agent id) w = [FindAllByOutOfBandId id; RepositoryDelete id]) ∧
        ((∃ keys m, RemoveRouting keys m ∈ emitted (deleteById agent id) w) ↔
         (mediatorIdSet r ∧
          (findAllByOutOfBandId agent id = [] ∨ reusable r = true))) ∧
        (∀ keys m, RemoveRouting keys m ∈ emitted (deleteById agent id) w →
                   keys = map fromFingerprint (recipientKeyFingerprints r) ∧
                   mediatorId r = Some m) ∧
        (length (List.filter isRemoveRouting (emitted (deleteById agent id) w)) ≤ 1) ∧
        (reusable r = false → findAllByOutOfBandId agent id ≠ [] →
         List.filter isRemoveRouting (emitted (deleteById agent id) w) = []).
Proof.
  intros Hr. eexists. split; [by apply deleteById_run|].
  split; [simpl; apply lookup_delete_eq|].
  erewrite emitted_of_log; [|by rewrite (deleteById_run _ _ _ _ Hr)].
  unfold mediatorIdSet, Js.truthy_opt_string.
  assert (Hcall : ∀ keys m keys' m',
            RemoveRouting keys m ∈
              [FindAllByOutOfBandId id; RemoveRouting keys' m'; RepositoryDelete id] →
            keys = keys' ∧ m = m').
  { intros keys m keys' m' H.
    apply elem_of_cons in H as [H|H]; [discriminate H|].
    apply elem_of_cons in H as [H|H]; [by injection H as -> ->|].
    apply elem_of_cons in H as [H|H]; [discriminate H|]. by apply elem_of_nil in H. }
  destruct (mediatorId r) as [m|]; simpl.
  - destruct (Js.truthy_string m) eqn:Hm; simpl.
    + destruct (findAllByOutOfBandId agent id) as [|c related] eqn:Hn; simpl.
      * split_and!; [in_list|eauto|intros []; auto| | |lia|congruence].
        -- split; [auto|]. intros _. eexists _, _. in_list.
        -- intros keys m' [-> ->]%Hcall. done.
      * destruct (reusable r) eqn:Hre; simpl.
        -- split_and!; [in_list|eauto|intros []; auto| | |lia|congruence].
           ++ split; [auto|]. intros _. eexists _, _. in_list.
           ++ intros keys m' [-> ->]%Hcall. done.
        -- split_and!; [in_list| |done| | |lia|done].
           ++ intros [_ [H|H]]; congruence.
           ++ split; [intros (? & ? & H); not_in_list H|].
              intros [_ [H|H]]; congruence.
           ++ intros keys m' H. not_in_list H.
    + split_and!; [in_list| |done| | |lia|done].
      * intros [[=] _].
      * split; [intros (? & ? & H); not_in_list H|intros [[=] _]].
      * intros keys m' H. not_in_list H.
  - split_and!; [in_list| |done| | |lia|done].
    + intros [[=] _].
    + split; [intros (? & ? & H); not_in_list H|intros [[=] _]].
    + intros keys m' H. not_in_list H.
Qed.

End Deletion.

(* A mediated record with no dependent relationship: its one key is released
   at its mediator and the record is gone. *)
Lemma deleteById_releases_routing_keys_witness :
  ∃ w', OutOfBand.deleteById Demo.demoAgent "oob-free"
          (Demo.worldWith Demo.mediatedRecord) = (OutOfBand.Returned tt, w') ∧
        OutOfBand.store w' !! "oob-free" = None ∧
        Spec.emitted (OutOfBand.deleteById Demo.demoAgent "oob-free")
          (Demo.worldWith Demo.mediatedRecord) =
          [OutOfBand.FindAllByOutOfBandId "oob-free";
           OutOfBand.RemoveRouting [{| OutOfBand.fingerprint := "z6MkRecipient" |}]
             "mediator-1";
           OutOfBand.RepositoryDelete "oob-free"].
Proof.
  destruct (deleteById_releases_routing_keys Demo.demoAgent
              (Demo.worldWith Demo.mediatedRecord) "oob-free" Demo.mediatedRecord eq_refl)
    as (w' & Hrun & Hgone & _ & Hreleased & _).
  destruct Hreleased as (m & Hm & Hlog).
  - split; [reflexivity|left; reflexivity].
  - exists w'. split_and!; [exact Hrun|exact Hgone|].
    simpl in Hm. injection Hm as <-. exact Hlog.
Defined.

(* --------------------------------------------------------------------- *)
(* Acceptance: the transition to PrepareResponse                         *)
(* --------------------------------------------------------------------- *)
Section Acceptance.
Import OutOfBand Spec.
Implicit Types (agent : Agent) (w : World) (r : OutOfBandRecord)
  (i : OutOfBandInvitation) (config : AcceptInvitationConfig).

(* acceptInvitation on a v1 record: lookup, transition, decision tree. *)
Lemma acceptInvitation_v1 agent config w id r i :
  store w !! id = Some r →
  record_id r = id →
  v2OutOfBandInvitation r = None →
  outOfBandInvitation r = Some i →
  acceptInvitation agent id config w =
  decisionTree agent config (set_state r PrepareResponse) i
    (existingConnectionOf agent i) (routingFor config r)
    {| store := <[id := set_state r PrepareResponse]> (store w);
       log := log w ++ prepareEffects agent r i;
       uuids := uuids w |}.
Proof.
  intros Hr Hid Hv2 Hi. unfold acceptInvitation.
  rewrite (bind_returned _ _ _ _ _ (getById_found _ _ _ Hr)).
  rewrite Hv2, Hi.
  rewrite (bind_returned _ _ _ _ _ (findExistingConnection_run _ _ _)).
  unfold updateState.
  unfold bind at 1. unfold bind at 1. unfold writeStore at 1.
  unfold bind at 1. unfold perform at 1.
  unfold bind at 1. unfold emitStateChangedEvent at 1. unfold perform at 1.
  unfold ret at 1.
  cbn [store log uuids logged set_state record_id].
  rewrite Hid. unfold prepareEffects. rewrite <- !app_assoc.
  reflexivity.
Qed.

Lemma acceptInvitation_v2 agent config w id r v2 :
  store w !! id = Some r →
  v2OutOfBandInvitation r = Some v2 →
  acceptInvitation agent id config w =
  (Returned (r, v2_acceptInvitation agent v2), logged w [V2AcceptInvitation v2]).
Proof.
  intros Hr Hv2. unfold acceptInvitation.
  rewrite (bind_returned _ _ _ _ _ (getById_found _ _ _ Hr)).
  rewrite Hv2. reflexivity.
Qed.

Lemma onlyLogs_ret {A} (a : A) : onlyLogs (ret a).
Proof. intros w. exists []. destruct w; simpl. by rewrite app_nil_r. Qed.

Lemma onlyLogs_throw {A} e : onlyLogs (throw (A := A) e).
Proof. intros w. exists []. destruct w; simpl. by rewrite app_nil_r. Qed.

Lemma onlyLogs_perform e : onlyLogs (perform e).
Proof. intros w. by exists [e]. Qed.

Lemma onlyLogs_lift {A} (x : Failure + A) : onlyLogs (lift x).
Proof. destruct x; [apply onlyLogs_throw|apply onlyLogs_ret]. Qed.

Lemma onlyLogs_await {A} (p : Rx.Settled A) : onlyLogs (await p).
Proof.
  destruct p; [apply onlyLogs_ret|apply onlyLogs_throw|].
  intros w. exists []. destruct w; simpl. by rewrite app_nil_r.
Qed.

Lemma onlyLogs_bind {A B} (m : M A) (k : A → M B) :
  onlyLogs m → (∀ a, onlyLogs (k a)) → onlyLogs (bind m k).
Proof.
  intros Hm Hk w. destruct (Hm w) as [es Hes]. unfold bind.
  destruct (m w) as [[a| |] w1]; simpl in *; [|by exists es..].
  destruct (Hk a w1) as [es' Hes']. exists (es ++ es').
  rewrite Hes'. rewrite Hes; simpl. by rewrite app_assoc.
Qed.

Lemma onlyLogs_emitWithConnection agent c ms : onlyLogs (emitWithConnection agent c ms).
Proof.
  unfold emitWithConnection. destruct (Js.find _ ms);
    [apply onlyLogs_perform|apply onlyLogs_throw].
Qed.

Lemma onlyLogs_emitWithServices agent svcs ms : onlyLogs (emitWithServices agent svcs ms).
Proof.
  unfold emitWithServices. destruct (_ =? _)%nat; [apply onlyLogs_throw|].
  destruct (Js.find _ ms); [apply onlyLogs_perform|apply onlyLogs_throw].
Qed.

Lemma onlyLogs_handleHandshakeReuse agent r c : onlyLogs (handleHandshakeReuse agent r c).
Proof.
  unfold handleHandshakeReuse.
  repeat (apply onlyLogs_bind; [|intros ?]);
    auto using onlyLogs_perform, onlyLogs_await.
Qed.

Lemma onlyLogs_decisionTree agent config r i existing routing :
  onlyLogs (decisionTree agent config r i existing routing).
Proof.
  unfold decisionTree.
  destruct (handshakeProtocols i) as [hs|].
  - apply onlyLogs_bind.
    { destruct (truthy_nullable existing) as [c|]; [|apply onlyLogs_ret].
      destruct (accept_reuseConnection config) as [[|]|]; try apply onlyLogs_ret.
      destruct (getRequests i); [apply onlyLogs_ret|].
      apply onlyLogs_bind; [apply onlyLogs_handleHandshakeReuse|].
      intros [|]; apply onlyLogs_ret. }
    intros reused. apply onlyLogs_bind.
    { destruct reused; [apply onlyLogs_ret|].
      apply onlyLogs_bind; [apply onlyLogs_lift|]. intros p.
      apply onlyLogs_bind; [apply onlyLogs_perform|]. intros _. apply onlyLogs_ret. }
    intros c. apply onlyLogs_bind; [|intros _; apply onlyLogs_ret].
    destruct (getRequests i); [|apply onlyLogs_ret].
    destruct (isReady c); [apply onlyLogs_emitWithConnection|apply onlyLogs_perform].
  - apply onlyLogs_bind; [|intros _; apply onlyLogs_ret].
    destruct (getRequests i); [|apply onlyLogs_ret].
    destruct (truthy_nullable existing);
      [apply onlyLogs_emitWithConnection|apply onlyLogs_emitWithServices].
Qed.

Lemma prepareEffects_lookups agent r i :
  ∃ lookups,
    prepareEffects agent r i =
      lookups ++ [RepositoryUpdate (set_state r PrepareResponse);
                  StateChangedEvent (set_state r PrepareResponse) (Some (state r))] ∧
    Forall (λ e, isFindByInvitationDid e = true) lookups.
Proof.
  unfold prepareEffects. eexists. split; [reflexivity|].
  destruct (invitationDids agent i); repeat constructor.
Qed.

End Acceptance.

(* Accepting a stored record that holds a v2 invitation: the method returns
   through the v2 service, and the stored record is still in its initial
   state; no transition to PrepareResponse was made or announced. *)
Lemma acceptInvitation_v2_leaves_state_initial :
  OutOfBand.acceptInvitation Demo.demoAgent "oob-v2" Demo.acceptDefaults
    (Demo.worldWith (Demo.receivedV2Record "oob-v2")) =
    (OutOfBand.Returned (Demo.receivedV2Record "oob-v2", Some Demo.v2Connection),
     Spec.logged (Demo.worldWith (Demo.receivedV2Record "oob-v2"))
       [OutOfBand.V2AcceptInvitation Demo.v2Invitation]) ∧
  OutOfBand.state <$>
    (OutOfBand.store
       (OutOfBand.acceptInvitation Demo.demoAgent "oob-v2" Demo.acceptDefaults
          (Demo.worldWith (Demo.receivedV2Record "oob-v2"))).2 !! "oob-v2") =
    Some OutOfBand.Initial ∧
  OutOfBand.Initial ≠ OutOfBand.PrepareResponse.
Proof. split_and!; [reflexivity|reflexivity|discriminate]. Qed.

(* --------------------------------------------------------------------- *)
(* Acceptance: connectionless exchange                                   *)
(* --------------------------------------------------------------------- *)
Section Connectionless.
Import OutOfBand Spec.
Implicit Types (agent : Agent) (w : World) (r : OutOfBandRecord)
  (i : OutOfBandInvitation) (config : AcceptInvitationConfig).

Lemma decisionTree_connectionless agent config r i ms existing routing w :
  handshakeProtocols i = None →
  requests i = Some ms →
  truthy_nullable existing = None →
  decisionTree agent config r i existing routing w =
  if (length (services i) =? 0)%nat
  then (Thrown (AriesFrameworkError NoServices), w)
  else match Js.find (canProcess agent) ms with
       | Some m => (Returned (r, None), logged w [AgentMessageReceived m None])
       | None => (Thrown (AriesFrameworkError NoSupportedRequestMessage), w)
       end.
Proof.
  intros Hh Hm He. unfold decisionTree, getRequests, getServices.
  rewrite Hh, Hm, He. unfold emitWithServices.
  destruct (_ =? _)%nat; [done|].
  destruct (Js.find _ ms); done.
Qed.

(** C2 (amended). For every accepted v1 invitation whose handshake-protocol
    list is absent, whose request list is present and which declares at
    least one service: if no existing relationship is found, acceptInvitation
    dispatches exactly the first message of the list whose type is locally
    supported, with no relationship attached and without creating one, and
    returns the record alone; it fails with the no-acceptable-message error
    when no message of the list is supported. An invitation that declares no
    service fails with the no-services error instead. *)
Theorem acceptInvitation_connectionless_dispatch agent config w (id : string) r i
    (ms : list PlaintextMessage) :
  store w !! id = Some r →
  record_id r = id →
  v2OutOfBandInvitation r = None →
  outOfBandInvitation r = Some i →
  handshakeProtocols i = None →
  requests i = Some ms →
  truthy_nullable (existingConnectionOf agent i) = None →
  (services i ≠ [] →
   (∀ m, first_satisfying (canProcess agent) ms m →
         (acceptInvitation agent id config w).1 =
           Returned (set_state r PrepareResponse, None) ∧
         emitted (acceptInvitation agent id config) w =
           prepareEffects agent r i ++ [AgentMessageReceived m None]) ∧
   (none_satisfying (canProcess agent) ms →
         (acceptInvitation agent id config w).1 =
           Thrown (AriesFrameworkError NoSupportedRequestMessage) ∧
         emitted (acceptInvitation agent id config) w = prepareEffects agent r i)) ∧
  (services i = [] →
   (acceptInvitation agent id config w).1 = Thrown (AriesFrameworkError NoServices) ∧
   emitted (acceptInvitation agent id config) w = prepareEffects agent r i).
Proof.
  intros Hr Hid Hv2 Hi Hh Hm He.
  assert (Hrun := acceptInvitation_v1 agent config w id r i Hr Hid Hv2 Hi).
  rewrite (decisionTree_connectionless _ _ _ _ ms _ _ _ Hh Hm He) in Hrun.
  split.
  - intros Hs. assert ((length (services i) =? 0)%nat = false) as Hlen.
    { destruct (services i); [done|reflexivity]. }
    rewrite Hlen in Hrun. split.
    + intros m Hfirst. apply find_first_satisfying in Hfirst.
      rewrite Hfirst in Hrun. split; [by rewrite Hrun|].
      apply emitted_of_log. rewrite Hrun. simpl. by rewrite <- app_assoc.
    + intros Hnone. apply find_none_satisfying in Hnone.
      rewrite Hnone in Hrun. split; [by rewrite Hrun|].
      apply emitted_of_log. by rewrite Hrun.
  - intros Hs. rewrite Hs in Hrun. simpl in Hrun.
    split; [by rewrite Hrun|]. apply emitted_of_log. by rewrite Hrun.
Qed.

End Connectionless.

(* An offer the agent supports, after a ping it does not support. *)
Lemma acceptInvitation_connectionless_dispatch_witness :
  (OutOfBand.acceptInvitation Demo.demoAgent "oob-2" Demo.acceptDefaults
     (Demo.worldWith (Demo.receivedRecord "oob-2" Demo.connectionlessInvitation))).1 =
    OutOfBand.Returned
      (OutOfBand.set_state (Demo.receivedRecord "oob-2" Demo.connectionlessInvitation)
         OutOfBand.PrepareResponse, None) ∧
  Spec.emitted
    (OutOfBand.acceptInvitation Demo.demoAgent "oob-2" Demo.acceptDefaults)
    (Demo.worldWith (Demo.receivedRecord "oob-2" Demo.connectionlessInvitation)) =
    Spec.prepareEffects Demo.demoAgent
      (Demo.receivedRecord "oob-2" Demo.connectionlessInvitation)
      Demo.connectionlessInvitation ++
    [OutOfBand.AgentMessageReceived Demo.offer None].
Proof.
  refine (proj1 (proj1 (acceptInvitation_connectionless_dispatch Demo.demoAgent
                   Demo.acceptDefaults
                   (Demo.worldWith (Demo.receivedRecord "oob-2" Demo.connectionlessInvitation))
                   "oob-2" (Demo.receivedRecord "oob-2" Demo.connectionlessInvitation)
                   Demo.connectionlessInvitation [Demo.ping; Demo.offer]
                   eq_refl eq_refl eq_refl eq_refl eq_refl eq_refl eq_refl) _)
            Demo.offer _).
  - discriminate.
  - exists [Demo.ping], []. split_and!; [reflexivity|reflexivity|].
    constructor; [reflexivity|constructor].
Defined.

(* Two connectionless invitations whose supported offer is not dispatched.
   With no declared service the error is the no-services one. With an empty
   handshake-protocol array acceptance takes the handshake branch and fails
   on protocol selection. *)
Lemma acceptInvitation_connectionless_not_dispatched :
  ((OutOfBand.acceptInvitation Demo.demoAgent "oob-3" Demo.acceptDefaults
      (Demo.worldWith (Demo.receivedRecord "oob-3" Demo.noServiceInvitation))).1 =
     OutOfBand.Thrown (OutOfBand.AriesFrameworkError OutOfBand.NoServices) ∧
   List.filter Spec.isAgentMessageReceived
     (Spec.emitted
        (OutOfBand.acceptInvitation Demo.demoAgent "oob-3" Demo.acceptDefaults)
        (Demo.worldWith (Demo.receivedRecord "oob-3" Demo.noServiceInvitation))) = []) ∧
  ((OutOfBand.acceptInvitation Demo.demoAgent "oob-4" Demo.acceptDefaults
      (Demo.worldWith (Demo.receivedRecord "oob-4" Demo.emptyHandshakeInvitation))).1 =
     OutOfBand.Thrown
       (OutOfBand.AriesFrameworkError
          (OutOfBand.HandshakeProtocolsNotSupported []
             [Demo.didexchange10; Demo.connections10])) ∧
   List.filter Spec.isAgentMessageReceived
     (Spec.emitted
        (OutOfBand.acceptInvitation Demo.demoAgent "oob-4" Demo.acceptDefaults)
        (Demo.worldWith (Demo.receivedRecord "oob-4" Demo.emptyHandshakeInvitation))) = []).
Proof. split_and!; reflexivity. Qed.

(* --------------------------------------------------------------------- *)
(* Acceptance: delivery of attached requests                             *)
(* --------------------------------------------------------------------- *)
Section Delivery.
Import OutOfBand Spec.
Implicit Types (agent : Agent) (w : World) (r : OutOfBandRecord)
  (i : OutOfBandInvitation) (config : AcceptInvitationConfig).

Lemma prepareEffects_no_wait agent r i :
  List.filter isReturnWhenIsConnected (prepareEffects agent r i) = [].
Proof. unfold prepareEffects. by destruct (invitationDids agent i). Qed.

Lemma prepareEffects_no_message agent r i :
  List.filter isAgentMessageReceived (prepareEffects agent r i) = [].
Proof. unfold prepareEffects. by destruct (invitationDids agent i). Qed.

Lemma prepareEffects_no_handshake agent r i :
  List.filter isAcceptOutOfBandInvitation (prepareEffects agent r i) = [].
Proof. unfold prepareEffects. by destruct (invitationDids agent i). Qed.

(* The decision tree once the relationship is chosen and requests exist. *)
Lemma decisionTree_with_requests agent config r i ms routing c w :
  requests i = Some ms →
  chosenRelationship agent config r i routing c →
  ∃ es, List.filter isReturnWhenIsConnected es = [] ∧
        List.filter isAgentMessageReceived es = [] ∧
  decisionTree agent config r i (existingConnectionOf agent i) routing w =
  match handshakeProtocols i with
  | Some _ =>
      if isReady c then
        match Js.find (canProcess agent) ms with
        | Some m => (Returned (r, Some c),
                     logged w (es ++ [AgentMessageReceived m (Some c)]))
        | None => (Thrown (AriesFrameworkError NoSupportedRequestMessage), logged w es)
        end
      else (Returned (r, Some c),
            logged w (es ++ [ReturnWhenIsConnected (connection_id c)
                               (Js.nullish (timeoutMs config) DEFAULT_ACCEPT_TIMEOUT_MS)]))
  | None =>
      match Js.find (canProcess agent) ms with
      | Some m => (Returned (r, None), logged w (es ++ [AgentMessageReceived m (Some c)]))
      | None => (Thrown (AriesFrameworkError NoSupportedRequestMessage), logged w es)
      end
  end.
Proof.
  intros Hm Hc. unfold decisionTree, getRequests. rewrite Hm.
  destruct Hc as [hs c Hh He Hre|hs p Hh Hno Hp|c Hh He]; rewrite Hh.
  - exists []. split_and!; [done..|]. rewrite He, Hre.
    unfold bind, ret, emitWithConnection, perform, throwAries, throw; simpl.
    destruct (isReady c); [|same_world].
    destruct (Js.find _ ms); same_world.
  - eexists [AcceptOutOfBandInvitation r (handshakeConfigFor config p routing)].
    split_and!; [done..|].
    assert (∀ k : option ConnectionRecord → M AcceptResult,
      bind (match truthy_nullable (existingConnectionOf agent i),
                  accept_reuseConnection config with
            | Some existing, Some true => ret (Some existing)
            | _, _ => ret None
            end) k w = k None w) as ->.
    { intros k. destruct Hno as [->|Hne]; [done|].
      destruct (truthy_nullable _); [|done].
      by destruct (accept_reuseConnection config) as [[|]|]. }
    rewrite Hp. fold (handshakeConfigFor config p routing).
    unfold bind, ret, lift, emitWithConnection, perform, throwAries, throw; simpl.
    destruct (isReady _); [|same_world].
    destruct (Js.find _ ms); same_world.
  - exists []. split_and!; [done..|]. rewrite He.
    unfold bind, ret, emitWithConnection, perform, throwAries, throw; simpl.
    destruct (Js.find _ ms); same_world.
Qed.

(** C8. When acceptance has attached messages and a chosen relationship: if
    the relationship is already ready, the first locally supported message is
    delivered on it before acceptInvitation returns and no wait is
    registered; a wait is registered only when the relationship is not ready,
    there is at most one, and its bound is the caller's timeoutMs (which
    reception fills from acceptInvitationTimeoutMs), 20000 ms by default. The
    readiness test comes first, so a ready relationship is never waited for. *)
Theorem acceptInvitation_delivers_requests agent config w (id : string) r i
    (ms : list PlaintextMessage) (c : ConnectionRecord) :
  store w !! id = Some r →
  record_id r = id →
  v2OutOfBandInvitation r = None →
  outOfBandInvitation r = Some i →
  requests i = Some ms →
  chosenRelationship agent config (set_state r PrepareResponse) i (routingFor config r) c →
  (isReady c = true →
   List.filter isReturnWhenIsConnected (emitted (acceptInvitation agent id config) w) = [] ∧
   ∀ m, first_satisfying (canProcess agent) ms m →
        (∃ conn, (acceptInvitation agent id config w).1 =
                   Returned (set_state r PrepareResponse, conn)) ∧
        List.filter isAgentMessageReceived (emitted (acceptInvitation agent id config) w) =
          [AgentMessageReceived m (Some c)]) ∧
  (isReady c = false → handshakeProtocols i ≠ None →
   (acceptInvitation agent id config w).1 =
     Returned (set_state r PrepareResponse, Some c) ∧
   List.filter isReturnWhenIsConnected (emitted (acceptInvitation agent id config) w) =
     [ReturnWhenIsConnected (connection_id c)
        (default DEFAULT_ACCEPT_TIMEOUT_MS (timeoutMs config))] ∧
   List.filter isAgentMessageReceived (emitted (acceptInvitation agent id config) w) = []) ∧
  (length (List.filter isReturnWhenIsConnected
             (emitted (acceptInvitation agent id config) w)) ≤ 1 ∧
   (List.filter isReturnWhenIsConnected
      (emitted (acceptInvitation agent id config) w) ≠ [] → isReady c = false)).
Proof.
  intros Hr Hid Hv2 Hi Hm Hc.
  assert (Hrun := acceptInvitation_v1 agent config w id r i Hr Hid Hv2 Hi).
  set (w1 := {| store := _; log := _; uuids := _ |}) in Hrun.
  destruct (decisionTree_with_requests agent config _ i ms _ c w1 Hm Hc)
    as (es & Hwait & Hmsg & Htree).
  rewrite Htree in Hrun. clear Htree.
  assert (Hfilter : ∀ f tail,
    List.filter f (prepareEffects agent r i ++ es ++ tail) =
    List.filter f (prepareEffects agent r i) ++ List.filter f es ++ List.filter f tail).
  { intros. by rewrite !List.filter_app. }
  assert (Hemit : ∀ o tail,
    acceptInvitation agent id config w = (o, logged w1 (es ++ tail)) →
    emitted (acceptInvitation agent id config) w = prepareEffects agent r i ++ es ++ tail).
  { intros o tail Heq. apply emitted_of_log. rewrite Heq. subst w1; simpl.
    by rewrite <- !app_assoc. }
  assert (Hemit0 : ∀ o,
    acceptInvitation agent id config w = (o, logged w1 es) →
    emitted (acceptInvitation agent id config) w = prepareEffects agent r i ++ es ++ []).
  { intros o Heq. apply (Hemit o). by rewrite app_nil_r. }
  unfold Js.nullish in Hrun.
  destruct (handshakeProtocols i) as [hs|] eqn:Hh.
  - destruct (isReady c) eqn:Hready.
    + destruct (Js.find (canProcess agent) ms) as [m0|] eqn:Hfind.
      * rewrite (Hemit _ _ Hrun), !Hfilter, prepareEffects_no_wait,
          prepareEffects_no_message, Hwait, Hmsg. simpl.
        split_and!; [|done|lia|done].
        intros _. split; [done|]. intros m Hfirst%find_first_satisfying.
        rewrite Hrun. simpl. split; [eauto|congruence].
      * rewrite (Hemit0 _ Hrun), !Hfilter, prepareEffects_no_wait,
          prepareEffects_no_message, Hwait, Hmsg. simpl.
        split_and!; [|done|lia|done].
        intros _. split; [done|]. intros m Hfirst%find_first_satisfying. congruence.
    + rewrite (Hemit _ _ Hrun), !Hfilter, prepareEffects_no_wait,
        prepareEffects_no_message, Hwait, Hmsg. simpl.
      split_and!; [done| |lia|done].
      intros _ _. by rewrite Hrun.
  - destruct (Js.find (canProcess agent) ms) as [m0|] eqn:Hfind.
    + rewrite (Hemit _ _ Hrun), !Hfilter, prepareEffects_no_wait,
        prepareEffects_no_message, Hwait, Hmsg. simpl.
      split_and!; [|done|lia|done].
      intros _. split; [done|]. intros m Hfirst%find_first_satisfying.
      rewrite Hrun. simpl. split; [eauto|congruence].
    + rewrite (Hemit0 _ Hrun), !Hfilter, prepareEffects_no_wait,
        prepareEffects_no_message, Hwait, Hmsg. simpl.
      split_and!; [|done|lia|done].
      intros _. split; [done|]. intros m Hfirst%find_first_satisfying. congruence.
Qed.

End Delivery.

(* A known inviter, reuse asked for, requests attached: the relationship is
   ready, the offer is delivered on it at once and nothing is waited for. *)
Lemma acceptInvitation_delivers_requests_witness :
  List.filter Spec.isReturnWhenIsConnected
    (Spec.emitted (OutOfBand.acceptInvitation Demo.demoAgent "oob-5" Demo.acceptWithReuse)
       (Demo.worldWith (Demo.receivedRecord "oob-5" Demo.knownInviterInvitation))) = [] ∧
  List.filter Spec.isAgentMessageReceived
    (Spec.emitted (OutOfBand.acceptInvitation Demo.demoAgent "oob-5" Demo.acceptWithReuse)
       (Demo.worldWith (Demo.receivedRecord "oob-5" Demo.knownInviterInvitation))) =
    [OutOfBand.AgentMessageReceived Demo.offer (Some Demo.readyConnection)].
Proof.
  destruct (proj1 (acceptInvitation_delivers_requests Demo.demoAgent Demo.acceptWithReuse
                     (Demo.worldWith (Demo.receivedRecord "oob-5" Demo.knownInviterInvitation))
                     "oob-5" (Demo.receivedRecord "oob-5" Demo.knownInviterInvitation)
                     Demo.knownInviterInvitation [Demo.ping; Demo.offer] Demo.readyConnection
                     eq_refl eq_refl eq_refl eq_refl eq_refl
                     (Spec.chosen_existing Demo.demoAgent Demo.acceptWithReuse _
                        Demo.knownInviterInvitation _ [Demo.connections10]
                        Demo.readyConnection eq_refl eq_refl eq_refl))
            eq_refl) as [Hwait Hmsg].
  split; [exact Hwait|].
  apply (Hmsg Demo.offer).
  exists [Demo.ping], []. split_and!; [reflexivity|reflexivity|].
  constructor; [reflexivity|constructor].
Defined.

(* An unknown inviter with the same attachments: the new relationship is not
   ready, so one wait bounded by 20000 ms is registered and nothing is
   delivered before the method returns. *)
Example acceptInvitation_waits_for_new_connection :
  Spec.emitted (OutOfBand.acceptInvitation Demo.demoAgent "oob-7" Demo.acceptDefaults)
    (Demo.worldWith
       (Demo.receivedRecord "oob-7"
          (Demo.invitationWith "inv-7" [Demo.inlineService] (Some [Demo.connections10])
             (Some [Demo.ping; Demo.offer])))) =
  [OutOfBand.FindByInvitationDid "did:peer:2#inline-0";
   OutOfBand.RepositoryUpdate
     (OutOfBand.set_state
        (Demo.receivedRecord "oob-7"
           (Demo.invitationWith "inv-7" [Demo.inlineService] (Some [Demo.connections10])
              (Some [Demo.ping; Demo.offer])))
        OutOfBand.PrepareResponse);
   OutOfBand.StateChangedEvent
     (OutOfBand.set_state
        (Demo.receivedRecord "oob-7"
           (Demo.invitationWith "inv-7" [Demo.inlineService] (Some [Demo.connections10])
              (Some [Demo.ping; Demo.offer])))
        OutOfBand.PrepareResponse)
     (Some OutOfBand.Initial);
   OutOfBand.AcceptOutOfBandInvitation
     (OutOfBand.set_state
        (Demo.receivedRecord "oob-7"
           (Demo.invitationWith "inv-7" [Demo.inlineService] (Some [Demo.connections10])
              (Some [Demo.ping; Demo.offer])))
        OutOfBand.PrepareResponse)
     (Spec.handshakeConfigFor Demo.acceptDefaults Demo.connections10 None);
   OutOfBand.ReturnWhenIsConnected "conn-new" 20000].
Proof. reflexivity. Qed.

(* --------------------------------------------------------------------- *)
(* Creation                                                              *)
(* --------------------------------------------------------------------- *)
Section Creation.
Import OutOfBand Spec.
Implicit Types (agent : Agent) (w : World) (c : CreateV11OutOfBandInvitationConfig).

(* Attaching the requests draws one identifier for each. *)
Lemma addRequest_loop agent (ms : list PlaintextMessage) w :
  for_each ms tt (λ _ message, addRequest agent message) w =
  (Returned tt, {| store := store w; log := log w; uuids := uuids w + length ms |}).
Proof.
  revert w. induction ms as [|m ms IH]; intros w; simpl.
  - unfold ret. rewrite Nat.add_0_r. by destruct w.
  - unfold bind at 1. unfold addRequest at 1. unfold bind at 1.
    unfold freshUuid at 1. unfold ret at 1. rewrite IH. simpl.
    do 2 f_equal. lia.
Qed.

Lemma nonEmptyOrUndefined_Some {A} (l : option (list A)) (ms : list A) :
  nonEmptyOrUndefined l = Some ms ↔ l = Some ms ∧ ms ≠ [].
Proof.
  unfold nonEmptyOrUndefined. destruct l as [[|x l]|]; simpl; split.
  all: try (intros [= <-]); try (intros [[= <-] ?]); try done.
Qed.

Lemma nonEmptyOrUndefined_None c :
  nonEmptyOrUndefined (messages c) = None ↔ ¬ messagesAttached c.
Proof.
  unfold messagesAttached. split.
  - intros Hn (ms & Hm & Hne).
    assert (nonEmptyOrUndefined (messages c) = Some ms) by by apply nonEmptyOrUndefined_Some.
    congruence.
  - intros Hno. destruct (nonEmptyOrUndefined (messages c)) as [ms|] eqn:E; [|done].
    apply nonEmptyOrUndefined_Some in E. destruct Hno. eauto.
Qed.

Lemma assertHandshakeProtocols_served agent (l supported : list HandshakeProtocol) :
  getSupportedHandshakeProtocols agent = inr supported →
  Forall (λ p, p ∈ supported) l →
  assertHandshakeProtocols agent l = inr tt.
Proof.
  intros Hs Hall. unfold assertHandshakeProtocols, areHandshakeProtocolsSupported.
  rewrite Hs. unfold Js.every.
  assert (forallb (λ p, Js.includes supported p) l = true) as ->; [|done].
  apply forallb_forall. intros p Hp%list_elem_of_In.
  apply includes_true. rewrite Forall_forall in Hall. auto.
Qed.

Lemma assertHandshakeProtocols_unserved agent (l : list HandshakeProtocol) e :
  getSupportedHandshakeProtocols agent = inl e →
  assertHandshakeProtocols agent l = inl e.
Proof.
  intros Hs. unfold assertHandshakeProtocols, areHandshakeProtocolsSupported.
  by rewrite Hs.
Qed.

(* The checks at the head of the v1 branch. *)
Lemma createInvitation_rejects agent c w :
  rejectedConfiguration c →
  ∃ e, createInvitation agent (VersionV1 c) w = (Thrown e, w) ∧ configurationError e.
Proof.
  unfold rejectedConfiguration, handshakeDisabled, protocolListGiven, multiUse,
    configurationError, createInvitation.
  intros Hrej. unfold bind at 1.
  destruct (nonEmptyOrUndefined (messages c)) as [ms|] eqn:Hms.
  - assert (messagesAttached c) as Hatt.
    { apply nonEmptyOrUndefined_Some in Hms. by exists ms. }
    destruct Hrej as [[_ Hno]|[[Hh [l Hl]]|[_ Hmu]]]; [done| |].
    + rewrite Hh, Hl. simpl. eauto.
    + rewrite Hmu. destruct (Js.nullish (handshake c) true); simpl.
      * eauto.
      * destruct (create_handshakeProtocols c); simpl; eauto.
  - assert (¬ messagesAttached c) as Hno by by apply nonEmptyOrUndefined_None.
    destruct Hrej as [[Hh _]|[[Hh _]|[Hatt _]]]; [| |done]; rewrite Hh; simpl; eauto.
Qed.

(* Past the checks: the record is built, saved and announced. *)
Lemma createInvitation_persists agent c w :
  ¬ rejectedConfiguration c →
  (¬ handshakeDisabled c → protocolsServed agent c) →
  ∃ r w', createInvitation agent (VersionV1 c) w = (Returned r, w') ∧
          store w' !! record_id r = Some r ∧
          role r = Sender ∧ state r = AwaitResponse ∧
          RepositorySave r ∈ emitted (createInvitation agent (VersionV1 c)) w.
Proof.
  intros Hnr Hserved.
  enough (∃ r w', createInvitation agent (VersionV1 c) w = (Returned r, w') ∧
                  store w' !! record_id r = Some r ∧
                  role r = Sender ∧ state r = AwaitResponse ∧
                  RepositorySave r ∈ drop (length (log w)) (log w'))
    as (r & w' & Hrun & ?).
  { exists r, w'. unfold emitted. by rewrite Hrun. }
  revert Hnr Hserved.
  unfold rejectedConfiguration, handshakeDisabled, protocolListGiven, multiUse,
    protocolsServed, createInvitation.
  rewrite <- (nonEmptyOrUndefined_None c).
  assert (messagesAttached c ↔ ∃ ms, nonEmptyOrUndefined (messages c) = Some ms) as ->.
  { unfold messagesAttached. by setoid_rewrite nonEmptyOrUndefined_Some. }
  destruct (nonEmptyOrUndefined (messages c)) as [ms|];
    destruct (Js.nullish (handshake c) true);
    destruct (create_handshakeProtocols c) as [l|];
    destruct (Js.nullish (multiUseInvitation c) false);
    intros Hnr Hserved;
    try (exfalso; apply Hnr; clear; by eauto 6).
  all: try (destruct Hserved as (supported & Hsup & Hall); [done|]).
  all: try (specialize (Hall l eq_refl)).
  all: unfold bind at 1; simpl.
  all: try rewrite (assertHandshakeProtocols_served _ _ _ Hsup Hall).
  all: try rewrite Hsup.
  all: destruct (create_routing c) as [routing|].
  all: eexists _, _; split;
    [unfold bind, ret, lift, save, emitStateChangedEvent, writeStore, perform, freshUuid;
     simpl; rewrite ?addRequest_loop; simpl; reflexivity|].
  all: split; [simpl; apply lookup_insert_eq|].
  all: split; [reflexivity|].
  all: split; [reflexivity|].
  all: simpl; rewrite <- ?app_assoc; rewrite drop_app_length; in_list.
Qed.

(* With a handshake asked for, an agent that supports no handshake protocol
   at all stops the creation before anything is saved. *)
Lemma createInvitation_no_protocol agent c w e :
  ¬ rejectedConfiguration c →
  ¬ handshakeDisabled c →
  getSupportedHandshakeProtocols agent = inl e →
  createInvitation agent (VersionV1 c) w = (Thrown e, w).
Proof.
  intros Hnr Hh Hsup. revert Hnr Hh.
  unfold rejectedConfiguration, handshakeDisabled, protocolListGiven, multiUse,
    createInvitation.
  rewrite <- (nonEmptyOrUndefined_None c).
  assert (messagesAttached c ↔ ∃ ms, nonEmptyOrUndefined (messages c) = Some ms) as ->.
  { unfold messagesAttached. by setoid_rewrite nonEmptyOrUndefined_Some. }
  destruct (nonEmptyOrUndefined (messages c)) as [ms|];
    destruct (Js.nullish (handshake c) true);
    destruct (create_handshakeProtocols c) as [l|];
    destruct (Js.nullish (multiUseInvitation c) false);
    intros Hnr Hh;
    try (exfalso; apply Hnr; clear; by eauto 6);
    try done.
  all: unfold bind at 1; simpl.
  all: try rewrite (assertHandshakeProtocols_unserved _ _ _ Hsup).
  all: try rewrite Hsup.
  all: reflexivity.
Qed.

(** C4 (amended). createInvitation for v1 fails with a configuration error,
    persisting no record, in each of these configurations: handshake disabled
    and no attached messages; handshake disabled together with an explicit
    handshake-protocol list; attached messages together with the multi-use
    flag. A configuration outside them also fails, persisting nothing, when
    it asks for a handshake and the agent supports no handshake protocol at
    all. For every other configuration whose explicit protocol list, if any,
    is locally supported, a record is persisted. *)
Theorem createInvitation_rejected_configurations agent c w :
  (rejectedConfiguration c →
   ∃ e, createInvitation agent (VersionV1 c) w = (Thrown e, w) ∧ configurationError e) ∧
  (¬ rejectedConfiguration c → ¬ handshakeDisabled c →
   ∀ e, getSupportedHandshakeProtocols agent = inl e →
        createInvitation agent (VersionV1 c) w = (Thrown e, w) ∧
        e = AriesFrameworkError NoHandshakeProtocolSupported) ∧
  (¬ rejectedConfiguration c →
   (¬ handshakeDisabled c → protocolsServed agent c) →
   ∃ r w', createInvitation agent (VersionV1 c) w = (Returned r, w') ∧
           store w' !! record_id r = Some r ∧
           role r = Sender ∧ state r = AwaitResponse ∧
           RepositorySave r ∈ emitted (createInvitation agent (VersionV1 c)) w).
Proof.
  split_and!.
  - apply createInvitation_rejects.
  - intros Hnr Hh e He. split; [by apply createInvitation_no_protocol|].
    by eapply getSupportedHandshakeProtocols_error.
  - apply createInvitation_persists.
Qed.

End Creation.

Lemma createDefaults_not_rejected : ¬ Spec.rejectedConfiguration Demo.createDefaults.
Proof.
  intros [[H _]|[[H _]|[(ms & H & _) _]]]; discriminate H.
Qed.

(* createInvitation({}) on an agent that supports both handshake protocols. *)
Lemma createInvitation_rejected_configurations_witness :
  ∃ r w',
    OutOfBand.createInvitation Demo.demoAgent (OutOfBand.VersionV1 Demo.createDefaults)
      OutOfBand.emptyWorld = (OutOfBand.Returned r, w') ∧
    OutOfBand.store w' !! OutOfBand.record_id r = Some r ∧
    OutOfBand.role r = OutOfBand.Sender ∧
    OutOfBand.state r = OutOfBand.AwaitResponse ∧
    OutOfBand.RepositorySave r ∈
      Spec.emitted
        (OutOfBand.createInvitation Demo.demoAgent (OutOfBand.VersionV1 Demo.createDefaults))
        OutOfBand.emptyWorld.
Proof.
  apply (createInvitation_rejected_configurations Demo.demoAgent Demo.createDefaults
           OutOfBand.emptyWorld).
  - exact createDefaults_not_rejected.
  - intros _. exists [Demo.didexchange10; Demo.connections10].
    split; [reflexivity|]. intros l [=].
Defined.

(* createInvitation({}) is none of the three rejected configurations and
   names no protocol list, yet on an agent without any handshake protocol it
   fails and the repository stays as it was. *)
Lemma createInvitation_fails_without_handshake_protocols :
  ¬ Spec.rejectedConfiguration Demo.createDefaults ∧
  OutOfBand.create_handshakeProtocols Demo.createDefaults = None ∧
  OutOfBand.createInvitation Demo.bareAgent (OutOfBand.VersionV1 Demo.createDefaults)
    OutOfBand.emptyWorld =
    (OutOfBand.Thrown (OutOfBand.AriesFrameworkError OutOfBand.NoHandshakeProtocolSupported),
     OutOfBand.emptyWorld).
Proof.
  split_and!; [exact createDefaults_not_rejected|reflexivity|reflexivity].
Qed.

(* --------------------------------------------------------------------- *)
(* Reception                                                             *)
(* --------------------------------------------------------------------- *)
Section Reception.
Import OutOfBand Spec.
Implicit Types (agent : Agent) (w : World) (r : OutOfBandRecord)
  (i : OutOfBandInvitation).

Lemma findAllByQuery_finds w (invitationId : string) :
  alreadyReceived w invitationId →
  ∃ found, findAllByQuery invitationId Receiver w = (Returned found, w) ∧
           (0 <? length found)%nat = true.
Proof.
  intros (k & r & Hk & Hrole & Hid).
  unfold findAllByQuery, bind, readStore, ret. eexists. split; [reflexivity|].
  assert (In r (List.filter
                  (λ r, bool_decide (record_invitationId r = Some invitationId) &&
                        bool_decide (role r = Receiver))
                  (map snd (map_to_list (store w))))) as Hin.
  { apply filter_In. split.
    - apply list_elem_of_In, list_elem_of_fmap. exists (k, r). split; [done|].
      by apply elem_of_map_to_list.
    - by rewrite !bool_decide_eq_true_2. }
  destruct (List.filter _ _); [destruct Hin|reflexivity].
Qed.

(* The decision tree when a handshake is asked for, nothing is attached and
   reuse is not requested: a new relationship with the first supported
   protocol, or the selection error. *)
Lemma decisionTree_new_handshake agent config r i hs existing routing w :
  handshakeProtocols i = Some hs →
  requests i = None →
  accept_reuseConnection config ≠ Some true →
  decisionTree agent config r i existing routing w =
  match getFirstSupportedProtocol agent hs with
  | inl e => (Thrown e, w)
  | inr p =>
      (Returned (r, Some (acceptOutOfBandInvitation agent r
                            (handshakeConfigFor config p routing))),
       logged w [AcceptOutOfBandInvitation r (handshakeConfigFor config p routing)])
  end.
Proof.
  intros Hh Hm Hre. unfold decisionTree, getRequests. rewrite Hh, Hm.
  assert (∀ k : option ConnectionRecord → M AcceptResult,
    bind (match truthy_nullable existing, accept_reuseConnection config with
          | Some c, Some true =>
              isHandshakeReuseSuccessful <- handleHandshakeReuse agent r c ;;
              if isHandshakeReuseSuccessful : bool then ret (Some c) else ret None
          | _, _ => ret None
          end) k w = k None w) as ->.
  { intros k. destruct (truthy_nullable existing); [|done].
    by destruct (accept_reuseConnection config) as [[|]|]. }
  destruct (getFirstSupportedProtocol agent hs) as [e|p]; [done|].
  unfold bind, ret, lift, perform; simpl. same_world.
Qed.

Lemma implicitRecord_shape agent (c : ReceiveOutOfBandImplicitInvitationConfig) w :
  record_id (implicitRecord agent c w) = uuid agent (uuids w) ∧
  role (implicitRecord agent c w) = Receiver ∧
  outOfBandInvitation (implicitRecord agent c w) = Some (implicitInvitation c) ∧
  v2OutOfBandInvitation (implicitRecord agent c w) = None.
Proof.
  unfold implicitRecord. destruct (i_routing c); [|done].
  by destruct (_ || _).
Qed.

(* Reception of an implicit invitation that names a protocol: the record is
   built and saved without any query, then accepted unless the caller
   declined. *)
Lemma receiveImplicitInvitation_run agent (c : ReceiveOutOfBandImplicitInvitationConfig) w :
  implicitProtocols c ≠ [] →
  receiveImplicitInvitation agent c w =
  (if Js.nullish (i_autoAcceptInvitation c) true
   then acceptInvitation agent (record_id (implicitRecord agent c w)) (implicitAccept agent c)
   else ret (implicitRecord agent c w, None))
    {| store := <[record_id (implicitRecord agent c w) := implicitRecord agent c w]> (store w);
       log := log w ++ [ResolveServicesFromDid (did c);
                        RepositorySave (implicitRecord agent c w);
                        StateChangedEvent (implicitRecord agent c w) None];
       uuids := S (uuids w) |}.
Proof.
  intros Hne. unfold receiveImplicitInvitation, _receiveInvitation, implicitRecord,
    implicitAccept, implicitInvitation.
  simpl normalized. cbv iota. fold (implicitProtocols c).
  cbn [handshakeProtocols getRequests requests].
  destruct (implicitProtocols c) as [|h hs]; [done|].
  destruct (i_routing c) as [routing|];
    destruct (Js.nullish (i_autoAcceptInvitation c) true) eqn:Hauto;
    unfold bind, save, emitStateChangedEvent, writeStore, perform, ret, freshUuid;
    simpl; rewrite ?Hauto; simpl; rewrite <- ?app_assoc; reflexivity.
Qed.

(* How an implicit reception ends, whatever the repository holds. *)
Lemma receiveImplicitInvitation_cases agent (c : ReceiveOutOfBandImplicitInvitationConfig) w :
  (implicitProtocols c = [] ∧
   receiveImplicitInvitation agent c w =
     (Thrown (AriesFrameworkError HandshakeOrRequestsRequired), w)) ∨
  (implicitProtocols c ≠ [] ∧
   Js.nullish (i_autoAcceptInvitation c) true = true ∧
   ∃ e w', getFirstSupportedProtocol agent (implicitProtocols c) = inl e ∧
           receiveImplicitInvitation agent c w = (Thrown e, w')) ∨
  (implicitProtocols c ≠ [] ∧
   (Js.nullish (i_autoAcceptInvitation c) true = true →
    ∃ p, getFirstSupportedProtocol agent (implicitProtocols c) = inr p) ∧
   ∃ res w', receiveImplicitInvitation agent c w = (Returned res, w') ∧
             alreadyReceived w' (did c)).
Proof.
  destruct (implicitProtocols c) as [|h hs] eqn:Hhs.
  { left. split; [done|].
    unfold receiveImplicitInvitation, _receiveInvitation.
    simpl normalized. cbv iota. fold (implicitProtocols c).
    cbn [handshakeProtocols getRequests requests]. by rewrite Hhs. }
  right.
  assert (implicitProtocols c ≠ []) as Hne by by rewrite Hhs.
  rewrite (receiveImplicitInvitation_run agent c w Hne).
  destruct (implicitRecord_shape agent c w) as (Hid & Hrole & Hinv & Hv2).
  set (r := implicitRecord agent c w) in *.
  set (w1 := {| store := _; log := _; uuids := _ |}).
  assert (store w1 !! record_id r = Some r) as Hr by apply lookup_insert_eq.
  destruct (Js.nullish (i_autoAcceptInvitation c) true) eqn:Hauto.
  - rewrite (acceptInvitation_v1 agent _ w1 _ r _ Hr eq_refl Hv2 Hinv).
    erewrite decisionTree_new_handshake; [|reflexivity|reflexivity|discriminate].
    rewrite Hhs.
    destruct (getFirstSupportedProtocol agent (h :: hs)) as [e|p].
    + left. split_and!; [done..|]. eauto.
    + right. split_and!; [done|eauto|]. eexists _, _. split; [reflexivity|].
      exists (record_id r), (set_state r PrepareResponse).
      split; [apply lookup_insert_eq|]. split; [done|].
      unfold record_invitationId. simpl. by rewrite Hinv.
  - right. split_and!; [done|discriminate|]. eexists _, _. split; [reflexivity|].
    exists (record_id r), r. split; [done|]. split; [done|].
    unfold record_invitationId. by rewrite Hinv.
Qed.

Lemma collect_fingerprints agent (svcs : list InvitationService) (acc : list string) w :
  for_each svcs acc
    (λ acc service,
       match service with
       | DidService did =>
           perform (ResolveServicesFromDid did) ;;;
           ret (acc ++ map fingerprint
                         (concat (map resolved_recipientKeys
                                    (resolveServicesFromDid agent did))))
       | InlineService s => ret (acc ++ map (didKey_fingerprint agent) (recipientKeys s))
       end) w =
  (Returned (acc ++ fingerprintsOf agent svcs), logged w (resolutionsOf svcs)).
Proof.
  revert acc w. induction svcs as [|[s|d] svcs IH]; intros acc w; simpl.
  - unfold ret, fingerprintsOf; simpl. by rewrite app_nil_r, logged_nil.
  - unfold bind at 1. unfold ret at 1. rewrite IH.
    unfold fingerprintsOf; simpl. by rewrite <- app_assoc.
  - unfold bind at 1. unfold bind at 1. unfold perform at 1, ret at 1.
    rewrite IH. unfold fingerprintsOf; simpl.
    rewrite <- app_assoc. f_equal. same_world.
Qed.

Lemma receivedFor_nonempty w (invitationId : string) :
  (0 <? length (receivedFor w invitationId))%nat = true ↔ alreadyReceived w invitationId.
Proof.
  split.
  - unfold receivedFor. intros Hlen.
    destruct (List.filter _ _) as [|r l] eqn:Hf; [discriminate|].
    assert (In r (r :: l)) as Hin by by left.
    rewrite <- Hf in Hin. apply filter_In in Hin as [Hin Hr].
    apply andb_true_iff in Hr as [Hid%bool_decide_eq_true Hrole%bool_decide_eq_true].
    apply list_elem_of_In, list_elem_of_fmap in Hin as ([k r'] & -> & Hk).
    apply elem_of_map_to_list in Hk. by exists k, r'.
  - intros Hdup. destruct (findAllByQuery_finds w _ Hdup) as (found & Hq & Hlen).
    unfold findAllByQuery, bind, readStore, ret in Hq. injection Hq as <-. done.
Qed.

(* Reception of a v1 invitation, step by step: the check that something is
   asked for, the duplicate check unless implicit, then the record is built,
   saved, announced and, unless declined, accepted. *)
Lemma _receiveInvitation_v1_run agent invitation i config w :
  normalized agent invitation = inr i →
  _receiveInvitation agent invitation config w =
  if absentOrEmpty (handshakeProtocols i) && absentOrEmpty (getRequests i) then
    (Thrown (AriesFrameworkError HandshakeOrRequestsRequired), w)
  else if negb (Js.nullish (isImplicit config) false) &&
          (0 <? length (receivedFor w (invitation_id i)))%nat then
    (Thrown (AriesFrameworkError (InvitationAlreadyReceived (invitation_id i))), w)
  else
    (if Js.nullish (autoAcceptInvitation config) true
     then acceptInvitation agent (record_id (receivedRecordOf agent i config w))
            (acceptAfterReceive agent config)
     else ret (receivedRecordOf agent i config w, None))
      {| store := <[record_id (receivedRecordOf agent i config w) :=
                      receivedRecordOf agent i config w]> (store w);
         log := log w ++ resolutionsOf (getServices i) ++
                [RepositorySave (receivedRecordOf agent i config w);
                 StateChangedEvent (receivedRecordOf agent i config w) None];
         uuids := S (uuids w) |}.
Proof.
  intros Hn. unfold _receiveInvitation. rewrite Hn.
  fold (acceptAfterReceive agent config).
  destruct (absentOrEmpty (handshakeProtocols i) && absentOrEmpty (getRequests i));
    [done|].
  unfold bind at 1. unfold bind at 1. unfold bind at 1.
  assert (findAllByQuery (invitation_id i) Receiver w =
          (Returned (receivedFor w (invitation_id i)), w)) as Hq by reflexivity.
  destruct (negb (Js.nullish (isImplicit config) false)) eqn:Himp; cbv iota beta.
  - unfold bind at 1. rewrite Hq.
    destruct (0 <? length (receivedFor w (invitation_id i)))%nat; simpl; [done|].
    unfold bind at 1. rewrite collect_fingerprints. simpl.
    unfold receivedRecordOf.
    destruct (receive_routing config) as [routing|];
      destruct (Js.nullish (autoAcceptInvitation config) true) eqn:Hauto;
      unfold bind, save, emitStateChangedEvent, writeStore, perform, ret, freshUuid;
      simpl; rewrite ?Hauto; simpl;
      try (destruct (absentOrEmpty (handshakeProtocols i)); simpl);
      rewrite <- ?app_assoc; reflexivity.
  - simpl. unfold bind at 1. rewrite collect_fingerprints. simpl.
    unfold receivedRecordOf.
    destruct (receive_routing config) as [routing|];
      destruct (Js.nullish (autoAcceptInvitation config) true) eqn:Hauto;
      unfold bind, save, emitStateChangedEvent, writeStore, perform, ret, freshUuid;
      simpl; rewrite ?Hauto; simpl;
      try (destruct (absentOrEmpty (handshakeProtocols i)); simpl);
      rewrite <- ?app_assoc; reflexivity.
Qed.

(* Reception hands its accept-timeout on to acceptInvitation. *)
Remark acceptAfterReceive_timeout agent (config : BaseReceiveOutOfBandInvitationConfig) :
  timeoutMs (acceptAfterReceive agent config) = acceptInvitationTimeoutMs config.
Proof. reflexivity. Qed.

Lemma receivedRecordOf_shape agent i config w :
  role (receivedRecordOf agent i config w) = Receiver ∧
  outOfBandInvitation (receivedRecordOf agent i config w) = Some i ∧
  v2OutOfBandInvitation (receivedRecordOf agent i config w) = None.
Proof.
  unfold receivedRecordOf. destruct (receive_routing config); [|done].
  by destruct (_ || _).
Qed.

(* A reception that returns leaves a record received for the identifier. *)
Lemma _receiveInvitation_v1_leaves_record agent invitation i config w res w1 :
  normalized agent invitation = inr i →
  _receiveInvitation agent invitation config w = (Returned res, w1) →
  alreadyReceived w1 (invitation_id i).
Proof.
  intros Hn. rewrite (_receiveInvitation_v1_run agent invitation i config w Hn).
  destruct (_ && _); [discriminate|].
  destruct (_ && _); [discriminate|].
  destruct (receivedRecordOf_shape agent i config w) as (Hrole & Hinv & Hv2).
  set (r := receivedRecordOf agent i config w) in *.
  set (w0 := {| store := _; log := _; uuids := _ |}).
  assert (store w0 !! record_id r = Some r) as Hr by apply lookup_insert_eq.
  destruct (Js.nullish (autoAcceptInvitation config) true).
  - rewrite (acceptInvitation_v1 agent _ w0 _ r i Hr eq_refl Hv2 Hinv).
    set (w2 := {| store := _; log := _; uuids := _ |}).
    destruct (onlyLogs_decisionTree agent (acceptAfterReceive agent config)
                (set_state r PrepareResponse) i (existingConnectionOf agent i)
                (routingFor (acceptAfterReceive agent config) r) w2) as [es Hes].
    intros Hrun. rewrite Hrun in Hes. simpl in Hes.
    assert (store w1 = store w2) as Hst by by rewrite Hes.
    exists (record_id r), (set_state r PrepareResponse).
    split; [rewrite Hst; apply lookup_insert_eq|]. split; [done|].
    unfold record_invitationId. simpl. by rewrite Hinv.
  - intros [= <- <-]. exists (record_id r), r. split; [done|]. split; [done|].
    unfold record_invitationId. by rewrite Hinv.
Qed.

Lemma receiveInvitation_duplicate agent invitation i config w :
  normalized agent invitation = inr i →
  alreadyReceived w (invitation_id i) →
  receiveInvitation agent invitation config w =
  (Thrown (AriesFrameworkError
             (if absentOrEmpty (handshakeProtocols i) && absentOrEmpty (getRequests i)
              then HandshakeOrRequestsRequired
              else InvitationAlreadyReceived (invitation_id i))), w).
Proof.
  intros Hn Hdup. unfold receiveInvitation. fold (asBase config).
  rewrite (_receiveInvitation_v1_run agent invitation i (asBase config) w Hn).
  destruct (_ && _); [done|].
  apply receivedFor_nonempty in Hdup. rewrite Hdup. done.
Qed.

(** C5 (amended). Receiving a non-implicit v1 invitation (also a legacy one,
    converted to v1) whose identifier already has a persisted Exchange Record
    with Receiver role fails with a configuration error and persists nothing:
    the already-received error, or the handshake-or-requests error when the
    invitation declares neither, which is tested first. So after a reception
    of such an invitation has succeeded, a second reception fails with the
    already-received error. Receiving an implicit invitation never raises the
    already-received error, and once a reception of it has succeeded, a
    record for the identifier is persisted and receiving the same implicit
    invitation again succeeds as well. *)
Theorem receiveInvitation_rejects_duplicates agent :
  (∀ invitation i config w,
     normalized agent invitation = inr i →
     alreadyReceived w (invitation_id i) →
     receiveInvitation agent invitation config w =
       (Thrown (AriesFrameworkError
                  (if absentOrEmpty (handshakeProtocols i) && absentOrEmpty (getRequests i)
                   then HandshakeOrRequestsRequired
                   else InvitationAlreadyReceived (invitation_id i))), w)) ∧
  (∀ invitation i config config' w res w1,
     normalized agent invitation = inr i →
     receiveInvitation agent invitation config w = (Returned res, w1) →
     alreadyReceived w1 (invitation_id i) ∧
     receiveInvitation agent invitation config' w1 =
       (Thrown (AriesFrameworkError (InvitationAlreadyReceived (invitation_id i))), w1)) ∧
  (∀ (c : ReceiveOutOfBandImplicitInvitationConfig) w,
     (∀ x w', receiveImplicitInvitation agent c w ≠
                (Thrown (AriesFrameworkError (InvitationAlreadyReceived x)), w')) ∧
     (∀ res w1, receiveImplicitInvitation agent c w = (Returned res, w1) →
                alreadyReceived w1 (did c) ∧
                ∃ res' w2, receiveImplicitInvitation agent c w1 = (Returned res', w2))).
Proof.
  split_and!.
  - apply receiveInvitation_duplicate.
  - intros invitation i config config' w res w1 Hn Hrun.
    assert (alreadyReceived w1 (invitation_id i)) as Hdup.
    { unfold receiveInvitation in Hrun.
      by eapply _receiveInvitation_v1_leaves_record. }
    split; [done|].
    rewrite (receiveInvitation_duplicate agent invitation i config' w1 Hn Hdup).
    unfold receiveInvitation in Hrun. fold (asBase config) in Hrun.
    rewrite (_receiveInvitation_v1_run agent invitation i (asBase config) w Hn) in Hrun.
    destruct (_ && _); [discriminate|done].
  - intros c w. split.
    + intros x w' Hrun.
      destruct (receiveImplicitInvitation_cases agent c w)
        as [[_ H]|[(_ & _ & e & w'' & He & H)|(_ & _ & res & w'' & H & _)]];
        rewrite H in Hrun; try discriminate.
      injection Hrun as -> _.
      apply getFirstSupportedProtocol_error_kind in He as [He|(? & ? & He)];
        discriminate.
    + intros res w1 Hrun.
      destruct (receiveImplicitInvitation_cases agent c w)
        as [[_ H]|[(_ & _ & e & w'' & He & H)|(Hne & Hsup & res0 & w'' & H & Hdup)]];
        rewrite H in Hrun; try discriminate.
      injection Hrun as <- <-. split; [done|].
      destruct (receiveImplicitInvitation_cases agent c w'')
        as [[Hnil _]|[(_ & Hauto & e & w3 & He & _)|(_ & _ & res' & w2 & H' & _)]].
      * done.
      * destruct (Hsup Hauto) as [p Hp]. congruence.
      * eauto.
Qed.

End Reception.

(* The demo invitation, offered again to an agent that holds a record
   received for it. *)
Lemma receiveInvitation_rejects_duplicates_witness :
  OutOfBand.receiveInvitation Demo.demoAgent
    (OutOfBand.IsOutOfBandInvitation Demo.handshakeInvitation) Demo.plainReceive
    (Demo.worldWith (Demo.receivedRecord "oob-1" Demo.handshakeInvitation)) =
    (OutOfBand.Thrown
       (OutOfBand.AriesFrameworkError
          (OutOfBand.InvitationAlreadyReceived "inv-1")),
     Demo.worldWith (Demo.receivedRecord "oob-1" Demo.handshakeInvitation)).
Proof.
  apply (proj1 (receiveInvitation_rejects_duplicates Demo.demoAgent)
           (OutOfBand.IsOutOfBandInvitation Demo.handshakeInvitation)
           Demo.handshakeInvitation Demo.plainReceive
           (Demo.worldWith (Demo.receivedRecord "oob-1" Demo.handshakeInvitation))
           eq_refl).
  exists "oob-1", (Demo.receivedRecord "oob-1" Demo.handshakeInvitation).
  split_and!; reflexivity.
Defined.

(* A v2 invitation received twice without the implicit marker: the first
   reception persists a Receiver record for its identifier, and the second
   reception succeeds all the same. *)
Lemma receiveInvitation_v2_twice_succeeds :
  ∃ r1 w1 r2 w2,
    OutOfBand.receiveInvitation Demo.demoAgent
      (OutOfBand.IsV2OutOfBandInvitation Demo.v2Invitation) Demo.plainReceive
      OutOfBand.emptyWorld = (OutOfBand.Returned (r1, Some Demo.v2Connection), w1) ∧
    Spec.alreadyReceived w1 (OutOfBand.v2_id Demo.v2Invitation) ∧
    OutOfBand.receiveInvitation Demo.demoAgent
      (OutOfBand.IsV2OutOfBandInvitation Demo.v2Invitation) Demo.plainReceive
      w1 = (OutOfBand.Returned (r2, Some Demo.v2Connection), w2).
Proof.
  eexists _, _, _, _. split; [reflexivity|]. split; [|reflexivity].
  eexists "uuid-0", _. split_and!; reflexivity.
Qed.

(* The same implicit invitation received twice by the demo agent: both
   receptions return, and two records are held afterwards. *)
Example receiveImplicitInvitation_twice :
  Spec.returned
    (OutOfBand.receiveImplicitInvitation Demo.demoAgent (Demo.implicitFor "did:web:issuer")
       OutOfBand.emptyWorld).1 = true ∧
  Spec.returned
    (OutOfBand.receiveImplicitInvitation Demo.demoAgent (Demo.implicitFor "did:web:issuer")
       (OutOfBand.receiveImplicitInvitation Demo.demoAgent
          (Demo.implicitFor "did:web:issuer") OutOfBand.emptyWorld).2).1 = true ∧
  size (OutOfBand.store
          (OutOfBand.receiveImplicitInvitation Demo.demoAgent
             (Demo.implicitFor "did:web:issuer")
             (OutOfBand.receiveImplicitInvitation Demo.demoAgent
                (Demo.implicitFor "did:web:issuer") OutOfBand.emptyWorld).2).2) = 2.
Proof. split_and!; vm_compute; reflexivity. Qed.

(* --------------------------------------------------------------------- *)
(* The reuse sub-protocol                                                *)
(* --------------------------------------------------------------------- *)
Section RxFacts.
Import Spec.
Context {A : Type}.
Implicit Types (o : Rx.Observable A) (p q : A → bool) (d acc : N).

Lemma delayed_delayed d d' o : Rx.delayed d (Rx.delayed d' o) = Rx.delayed (d + d') o.
Proof. destruct o; simpl; by rewrite ?N.add_assoc. Qed.

Lemma first_delayed p d o : Rx.first p (Rx.delayed d o) = Rx.delayed d (Rx.first p o).
Proof.
  destruct o as [d' v rest| | |]; simpl; try done.
  destruct (p v); simpl; [done|]. by rewrite delayed_delayed.
Qed.

Lemma first_filter p q o :
  Rx.first p (Rx.filter q o) = Rx.first (λ v, q v && p v) o.
Proof.
  induction o as [d v rest IH| | |]; simpl; try done.
  destruct (q v); simpl.
  - destruct (p v); [done|]. by rewrite IH.
  - by rewrite first_delayed, IH.
Qed.

Lemma prepend_not_terminal (pre : list (N * A)) d v rest o :
  prepend pre (Rx.Next d v rest) = o →
  match o with
  | Rx.Next _ _ _ => True
  | _ => False
  end.
Proof. intros <-. by destruct pre. Qed.

(* The promise built on first(p) by map, timeout and catchError settles with
   a boolean: true exactly when a value satisfying p arrives in time. *)
Lemma settles_in_time p (T : N) o acc :
  ∃ t b,
    Rx.firstValueFrom
      (Rx.catchError (λ _, Rx.of_ false)
         (Rx.timeout T (Rx.map (λ _, true) (Rx.delayed acc (Rx.first p o))))) =
      Rx.Resolved t b ∧
    (b = true ↔
     ∃ pre d v rest, o = prepend pre (Rx.Next d v rest) ∧ p v = true ∧
                     (acc + elapsed pre + d < T)%N).
Proof.
  revert acc. induction o as [d v rest IH|d|d e|]; intros acc; simpl.
  - destruct (p v) eqn:Hv; simpl.
    + destruct (acc + d <? T)%N eqn:Hlt; simpl; eexists _, _; (split; [reflexivity|]).
      * apply N.ltb_lt in Hlt. split; [|done]. intros _.
        exists [], d, v, rest. simpl. split_and!; [done..|lia].
      * apply N.ltb_ge in Hlt. split; [done|].
        intros (pre & d' & v' & rest' & Heq & _ & Hin). exfalso.
        destruct pre as [|[d0 v0] pre]; simpl in *; injection Heq as -> -> ->; lia.
    + rewrite delayed_delayed.
      destruct (IH (acc + d)%N) as (t & b & Hrun & Hb).
      exists t, b. split; [done|]. rewrite Hb. split.
      * intros (pre & d' & v' & rest' & -> & Hv' & Hin).
        exists ((d, v) :: pre), d', v', rest'. simpl. split_and!; [done..|lia].
      * intros (pre & d' & v' & rest' & Heq & Hv' & Hin).
        destruct pre as [|[d0 v0] pre]; simpl in *; injection Heq as -> -> ->.
        -- congruence.
        -- exists pre, d', v', rest'. split_and!; [done..|lia].
  - destruct (acc + d <? T)%N; simpl; eexists _, _; (split; [reflexivity|]);
      (split; [done|]); intros (pre & ? & ? & ? & Heq & _);
      symmetry in Heq; by apply prepend_not_terminal in Heq.
  - destruct (acc + d <? T)%N; simpl; eexists _, _; (split; [reflexivity|]);
      (split; [done|]); intros (pre & ? & ? & ? & Heq & _);
      symmetry in Heq; by apply prepend_not_terminal in Heq.
  - eexists _, _. split; [reflexivity|].
    split; [done|]. intros (pre & ? & ? & ? & Heq & _).
    symmetry in Heq. by apply prepend_not_terminal in Heq.
Qed.

Lemma delayed_0 o : Rx.delayed 0 o = o.
Proof. by destruct o. Qed.

End RxFacts.

Section Reuse.
Import OutOfBand Spec.
Implicit Types (agent : Agent) (w : World) (r : OutOfBandRecord)
  (i : OutOfBandInvitation) (c : ConnectionRecord) (config : AcceptInvitationConfig).

(* The promise of handleHandshakeReuse always resolves, with true exactly
   when a matching signal is observed in time. *)
Lemma reuseAcceptedEventPromise_resolves agent r c :
  ∃ t b,
    reuseAcceptedEventPromise agent (createHandShakeReuse agent r c) r c = Rx.Resolved t b ∧
    (b = true ↔ reuseAcceptedInTime agent (createHandShakeReuse agent r c) r c).
Proof.
  unfold reuseAcceptedEventPromise. fold (arrivingReuseAccepted agent).
  destruct (settles_in_time
              (reuseAccepted (createHandShakeReuse agent r c) r c)
              REUSE_TIMEOUT_MS (arrivingReuseAccepted agent) 0)
    as (t & b & Hrun & Hb).
  rewrite delayed_0 in Hrun.
  exists t, b. split; [exact Hrun|]. rewrite Hb. unfold reuseAcceptedInTime.
  assert (∀ v, reuseAccepted (createHandShakeReuse agent r c) r c v = true ↔
    reuseThreadId v = threadId (createHandShakeReuse agent r c) ∧
    record_id (event_outOfBandRecord v) = record_id r ∧
    connection_id (event_connectionRecord v) = connection_id c) as Hp.
  { intros v. unfold reuseAccepted.
    rewrite !andb_true_iff, !bool_decide_eq_true. tauto. }
  split.
  - intros (pre & d & v & rest & Heq & Hv & Hin). exists pre, d, v, rest.
    apply Hp in Hv as (? & ? & ?). split_and!; first [done|lia].
  - intros (pre & d & v & rest & Heq & ? & ? & ? & Hin). exists pre, d, v, rest.
    split_and!; [done|by apply Hp|lia].
Qed.

Lemma handleHandshakeReuse_run agent r c :
  ∃ b, (∀ w, handleHandshakeReuse agent r c w =
             (Returned b,
              logged w [CreateHandShakeReuse r c;
                        SendMessage (createHandShakeReuse agent r c) c])) ∧
       (b = true ↔ reuseAcceptedInTime agent (createHandShakeReuse agent r c) r c).
Proof.
  destruct (reuseAcceptedEventPromise_resolves agent r c) as (t & b & Hp & Hb).
  exists b. split; [|done]. intros w.
  unfold handleHandshakeReuse. rewrite Hp.
  unfold bind, perform, await, ret; simpl. same_world.
Qed.

(* The decision tree in the reuse scenario: an existing relationship, reuse
   asked for, a handshake-protocol list, no request list. *)
Lemma decisionTree_reuse agent config r i hs c routing w :
  handshakeProtocols i = Some hs →
  requests i = None →
  truthy_nullable (existingConnectionOf agent i) = Some c →
  accept_reuseConnection config = Some true →
  ∃ b, (b = true ↔ reuseAcceptedInTime agent (createHandShakeReuse agent r c) r c) ∧
  decisionTree agent config r i (existingConnectionOf agent i) routing w =
  if b then
    (Returned (r, Some c),
     logged w [CreateHandShakeReuse r c; SendMessage (createHandShakeReuse agent r c) c])
  else
    match getFirstSupportedProtocol agent hs with
    | inl e =>
        (Thrown e,
         logged w [CreateHandShakeReuse r c;
                   SendMessage (createHandShakeReuse agent r c) c])
    | inr p =>
        (Returned (r, Some (acceptOutOfBandInvitation agent r
                              (handshakeConfigFor config p routing))),
         logged w [CreateHandShakeReuse r c;
                   SendMessage (createHandShakeReuse agent r c) c;
                   AcceptOutOfBandInvitation r (handshakeConfigFor config p routing)])
    end.
Proof.
  intros Hh Hm He Hre.
  destruct (handleHandshakeReuse_run agent r c) as (b & Hrun & Hb).
  exists b. split; [done|].
  unfold decisionTree, getRequests. rewrite Hh, Hm, He, Hre.
  unfold bind at 1. unfold bind at 1. unfold bind at 1. rewrite Hrun.
  destruct b; simpl.
  - unfold bind, ret; simpl. same_world.
  - destruct (getFirstSupportedProtocol agent hs) as [e|p]; simpl.
    + unfold bind, ret, lift, throw; simpl. same_world.
    + unfold bind, ret, lift, perform; simpl. same_world.
Qed.

(** C3 (amended). During acceptance with an existing relationship,
    reuseConnection=true and no attached messages (a handshake-protocol list
    and no request list): the reuse sub-protocol sends a reuse signal and
    resolves to success exactly when a reuse-accepted signal matching all
    three of thread identifier, out-of-band record identity and relationship
    identity arrives within 15000 ms, in which case acceptance returns the
    existing relationship; on timeout or stream end it resolves to false (it
    never raises), and acceptance then creates a new relationship instead
    when the invitation's list holds a locally supported protocol, and fails
    with the unsupported-protocol error otherwise. *)
Theorem acceptInvitation_handshake_reuse agent config w (id : string) r i
    (hs : list HandshakeProtocol) c :
  store w !! id = Some r →
  record_id r = id →
  v2OutOfBandInvitation r = None →
  outOfBandInvitation r = Some i →
  handshakeProtocols i = Some hs →
  requests i = None →
  truthy_nullable (existingConnectionOf agent i) = Some c →
  accept_reuseConnection config = Some true →
  (∃ b, (∀ w0, handleHandshakeReuse agent (set_state r PrepareResponse) c w0 =
               (Returned b,
                logged w0
                  [CreateHandShakeReuse (set_state r PrepareResponse) c;
                   SendMessage
                     (createHandShakeReuse agent (set_state r PrepareResponse) c) c])) ∧
        (b = true ↔
         reuseAcceptedInTime agent
           (createHandShakeReuse agent (set_state r PrepareResponse) c)
           (set_state r PrepareResponse) c)) ∧
  (reuseAcceptedInTime agent
     (createHandShakeReuse agent (set_state r PrepareResponse) c)
     (set_state r PrepareResponse) c →
   (acceptInvitation agent id config w).1 =
     Returned (set_state r PrepareResponse, Some c) ∧
   emitted (acceptInvitation agent id config) w =
     prepareEffects agent r i ++
     [CreateHandShakeReuse (set_state r PrepareResponse) c;
      SendMessage (createHandShakeReuse agent (set_state r PrepareResponse) c) c]) ∧
  (¬ reuseAcceptedInTime agent
       (createHandShakeReuse agent (set_state r PrepareResponse) c)
       (set_state r PrepareResponse) c →
   (∀ p, getFirstSupportedProtocol agent hs = inr p →
         (acceptInvitation agent id config w).1 =
           Returned (set_state r PrepareResponse,
                     Some (acceptOutOfBandInvitation agent (set_state r PrepareResponse)
                             (handshakeConfigFor config p (routingFor config r)))) ∧
         emitted (acceptInvitation agent id config) w =
           prepareEffects agent r i ++
           [CreateHandShakeReuse (set_state r PrepareResponse) c;
            SendMessage (createHandShakeReuse agent (set_state r PrepareResponse) c) c;
            AcceptOutOfBandInvitation (set_state r PrepareResponse)
              (handshakeConfigFor config p (routingFor config r))]) ∧
   (∀ e, getFirstSupportedProtocol agent hs = inl e →
         (acceptInvitation agent id config w).1 = Thrown e ∧
         unsupportedProtocolError e ∧
         emitted (acceptInvitation agent id config) w =
           prepareEffects agent r i ++
           [CreateHandShakeReuse (set_state r PrepareResponse) c;
            SendMessage (createHandShakeReuse agent (set_state r PrepareResponse) c) c])).
Proof.
  intros Hr Hid Hv2 Hi Hh Hm He Hre.
  split; [apply handleHandshakeReuse_run|].
  assert (Hrun := acceptInvitation_v1 agent config w id r i Hr Hid Hv2 Hi).
  set (w1 := {| store := _; log := _; uuids := _ |}) in Hrun.
  destruct (decisionTree_reuse agent config (set_state r PrepareResponse) i hs c
              (routingFor config r) w1 Hh Hm He Hre) as (b & Hb & Htree).
  rewrite Htree in Hrun. clear Htree.
  assert (Hemit : ∀ o es,
    acceptInvitation agent id config w = (o, logged w1 es) →
    emitted (acceptInvitation agent id config) w = prepareEffects agent r i ++ es).
  { intros o es Heq. apply emitted_of_log. rewrite Heq. subst w1; simpl.
    by rewrite <- !app_assoc. }
  split.
  - intros Hin. apply Hb in Hin. subst b.
    split; [by rewrite Hrun|]. by eapply Hemit.
  - intros Hout. destruct b; [by destruct Hout; apply Hb|]. split.
    + intros p Hp. rewrite Hp in Hrun.
      split; [by rewrite Hrun|]. by eapply Hemit.
    + intros e Hfail. rewrite Hfail in Hrun.
      split_and!; [by rewrite Hrun| |by eapply Hemit].
      by eapply getFirstSupportedProtocol_error_kind.
Qed.

End Reuse.

(* The known inviter answers the reuse signal after 1500 ms. *)
Lemma acceptInvitation_handshake_reuse_witness :
  (OutOfBand.acceptInvitation Demo.answeringAgent "oob-6" Demo.acceptWithReuse
     (Demo.worldWith (Demo.receivedRecord "oob-6" Demo.knownInviterHandshake))).1 =
    OutOfBand.Returned
      (OutOfBand.set_state (Demo.receivedRecord "oob-6" Demo.knownInviterHandshake)
         OutOfBand.PrepareResponse,
       Some Demo.readyConnection) ∧
  Spec.emitted
    (OutOfBand.acceptInvitation Demo.answeringAgent "oob-6" Demo.acceptWithReuse)
    (Demo.worldWith (Demo.receivedRecord "oob-6" Demo.knownInviterHandshake)) =
    Spec.prepareEffects Demo.answeringAgent
      (Demo.receivedRecord "oob-6" Demo.knownInviterHandshake) Demo.knownInviterHandshake ++
    [OutOfBand.CreateHandShakeReuse
       (OutOfBand.set_state (Demo.receivedRecord "oob-6" Demo.knownInviterHandshake)
          OutOfBand.PrepareResponse)
       Demo.readyConnection;
     OutOfBand.SendMessage {| OutOfBand.threadId := "thread-oob-6" |} Demo.readyConnection].
Proof.
  apply (proj1 (proj2 (acceptInvitation_handshake_reuse Demo.answeringAgent
                         Demo.acceptWithReuse
                         (Demo.worldWith (Demo.receivedRecord "oob-6" Demo.knownInviterHandshake))
                         "oob-6" (Demo.receivedRecord "oob-6" Demo.knownInviterHandshake)
                         Demo.knownInviterHandshake [Demo.connections10] Demo.readyConnection
                         eq_refl eq_refl eq_refl eq_refl eq_refl eq_refl eq_refl eq_refl))).
  exists [(200%N, Demo.otherReuseAccepted)], 1300%N, Demo.reuseAcceptedSignal, Rx.Silent.
  split_and!; reflexivity.
Defined.

(* The known inviter lists only a protocol the agent does not support and
   never answers the reuse signal: the reuse attempt resolves to false and
   acceptance fails on protocol selection; no relationship is created and
   none is returned. *)
Lemma acceptInvitation_reuse_timeout_without_supported_protocol :
  (OutOfBand.acceptInvitation Demo.demoAgent "oob-8" Demo.acceptWithReuse
     (Demo.worldWith (Demo.receivedRecord "oob-8" Demo.unknownProtocolInvitation))).1 =
    OutOfBand.Thrown
      (OutOfBand.AriesFrameworkError
         (OutOfBand.HandshakeProtocolsNotSupported ["https://example.org/handshake/1.0"]
            [Demo.didexchange10; Demo.connections10])) ∧
  OutOfBand.SendMessage {| OutOfBand.threadId := "thread-oob-8" |} Demo.readyConnection ∈
    Spec.emitted
      (OutOfBand.acceptInvitation Demo.demoAgent "oob-8" Demo.acceptWithReuse)
      (Demo.worldWith (Demo.receivedRecord "oob-8" Demo.unknownProtocolInvitation)) ∧
  List.filter Spec.isAcceptOutOfBandInvitation
    (Spec.emitted
       (OutOfBand.acceptInvitation Demo.demoAgent "oob-8" Demo.acceptWithReuse)
       (Demo.worldWith (Demo.receivedRecord "oob-8" Demo.unknownProtocolInvitation))) = [].
Proof.
  split_and!; [reflexivity| |reflexivity].
  vm_compute. in_list.
Qed.

(* ===================================================================== *)
(* Further properties of the registry                                    *)
(* ===================================================================== *)
Section RegistryMore.
Import SigningProviderRegistry.
Context {KeyType : Type} `{EqDecision KeyType} {SigningProvider : Type}.
Variable keyType : SigningProvider → KeyType.
Implicit Types (r : t (SigningProvider := SigningProvider)) (k : KeyType).

Lemma foldl_set_add_extends (l acc : list KeyType) :
  ∃ l', foldl Js.set_add acc l = acc ++ l'.
Proof.
  revert acc. induction l as [|y l IH]; intros acc; simpl.
  - exists []. by rewrite app_nil_r.
  - unfold Js.set_add at 2. destruct (decide (y ∈ acc)); [apply IH|].
    destruct (IH (acc ++ [y])) as [l' ->]. exists (y :: l').
    by rewrite <- app_assoc.
Qed.

(** X1. supportedKeyTypes lists every key type that has a provider exactly
    once, and nothing else; the key type of the first registered provider
    comes first. *)
Theorem supportedKeyTypes_exact r k :
  NoDup (supportedKeyTypes keyType r) ∧
  (k ∈ supportedKeyTypes keyType r ↔ hasProviderForKeyType keyType r k = true) ∧
  (∀ p ps, signingProviders r = p :: ps →
           head (supportedKeyTypes keyType r) = Some (keyType p)).
Proof.
  unfold supportedKeyTypes, Js.from_set. split_and!.
  - apply NoDup_foldl_set_add, NoDup_nil_2.
  - rewrite elem_of_foldl_set_add, elem_of_nil, has_true_iff. split.
    + intros [[]|(p & -> & Hp)%list_elem_of_fmap].
      destruct (Js.find (λ x, bool_decide (keyType x = keyType p)) (signingProviders r))
        as [q|] eqn:Hf; [eauto|].
      apply find_none_satisfying in Hf. unfold Spec.none_satisfying in Hf.
      rewrite Forall_forall in Hf. specialize (Hf p Hp).
      by rewrite bool_decide_eq_true_2 in Hf.
    + intros [p [Hin Hk%bool_decide_eq_true]%find_elem_of]. right.
      apply list_elem_of_fmap. eauto.
  - intros p ps ->. simpl.
    destruct (foldl_set_add_extends (map keyType ps) (Js.set_add [] (keyType p)))
      as [l' ->].
    reflexivity.
Qed.

(** X2. When several providers are registered for one key type,
    getProviderForKeyType returns the one registered first: the result is a
    provider for k with no provider for k before it in the list. *)
Theorem getProviderForKeyType_first_registered r k (p : SigningProvider) :
  getProviderForKeyType keyType r k = inr p ↔
  ∃ pre post, signingProviders r = pre ++ p :: post ∧
              keyType p = k ∧
              Forall (λ x, keyType x ≠ k) pre.
Proof.
  unfold getProviderForKeyType.
  destruct (Js.find _ _) as [q|] eqn:Hf.
  - apply find_first_satisfying in Hf as (pre & post & Heq & Hq & Hpre).
    apply bool_decide_eq_true in Hq. split.
    + intros [= <-]. exists pre, post. split_and!; [done..|].
      eapply Forall_impl; [exact Hpre|]. intros x. by rewrite bool_decide_eq_false.
    + intros (pre' & post' & Heq' & Hp & Hpre').
      assert (Js.find (λ x, bool_decide (keyType x = k)) (signingProviders r) = Some p)
        as Hf'.
      { apply find_first_satisfying. exists pre', post'.
        split_and!; [done|by apply bool_decide_eq_true|].
        eapply Forall_impl; [exact Hpre'|]. intros x. by rewrite bool_decide_eq_false. }
      assert (Js.find (λ x, bool_decide (keyType x = k)) (signingProviders r) = Some q)
        as Hf''.
      { apply find_first_satisfying. exists pre, post.
        split_and!; [done|by apply bool_decide_eq_true|done]. }
      congruence.
  - split; [discriminate|].
    intros (pre & post & Heq & Hp & _).
    apply find_none_satisfying in Hf. unfold Spec.none_satisfying in Hf.
    rewrite Forall_forall in Hf.
    assert (p ∈ signingProviders r) as Hin.
    { rewrite Heq. apply elem_of_app. right. left. }
    specialize (Hf p Hin). by rewrite bool_decide_eq_true_2 in Hf.
Qed.

Lemma new_providers (injected : list (Injected (SigningProvider := SigningProvider))) :
  Forall (λ i, i = DefaultToken) injected → signingProviders (new injected) = [].
Proof.
  unfold new; simpl. induction 1 as [|i l -> _ IH]; simpl; done.
Qed.

(** X3. The constructor drops the 'default' placeholders and nothing else: a
    key type has a provider in the new registry exactly when a provider for
    it was injected, and a registry built from placeholders alone supports
    no key type and throws for every lookup. *)
Theorem new_registry_holds_injected_providers (injected : list Injected) k :
  (hasProviderForKeyType keyType (new injected) k = true ↔
   ∃ p, Provider p ∈ injected ∧ keyType p = k) ∧
  (Forall (λ i, i = DefaultToken) injected →
   supportedKeyTypes keyType (new injected) = [] ∧
   hasProviderForKeyType keyType (new injected) k = false ∧
   getProviderForKeyType keyType (new injected) k = inl (NoKeyProviderForKeyType k)).
Proof.
  split.
  - rewrite has_true_iff. split.
    + intros [p [Hin Hk%bool_decide_eq_true]%find_elem_of].
      exists p. split; [by apply (new_drops_default keyType)|done].
    + intros (p & Hin & Hk). apply (new_drops_default keyType) in Hin.
      destruct (Js.find (λ x, bool_decide (keyType x = k)) (signingProviders (new injected)))
        as [q|] eqn:Hf; [eauto|].
      apply find_none_satisfying in Hf. unfold Spec.none_satisfying in Hf.
      rewrite Forall_forall in Hf. specialize (Hf p Hin).
      by rewrite bool_decide_eq_true_2 in Hf.
  - intros Hall%new_providers.
    unfold supportedKeyTypes, hasProviderForKeyType, getProviderForKeyType.
    by rewrite Hall.
Qed.

End RegistryMore.

(* ===================================================================== *)
(* Further properties of the protocol negotiation                        *)
(* ===================================================================== *)
Section NegotiationMore.
Import OutOfBand Spec.
Implicit Types (agent : Agent) (l : list HandshakeProtocol) (p : HandshakeProtocol).

Lemma prefix_cons_inv (a : Ascii.ascii) (s1 s : string) :
  String.prefix (String a s1) s = true →
  ∃ s', s = String a s' ∧ String.prefix s1 s' = true.
Proof.
  destruct s as [|b s']; [discriminate|].
  change (String.prefix (String a s1) (String b s'))
    with (if Ascii.ascii_dec a b then String.prefix s1 s' else false).
  destruct (Ascii.ascii_dec a b) as [->|]; [eauto|discriminate].
Qed.

(* No protocol identifier belongs to both handshake families. *)
Lemma families_disjoint p :
  startsWith p "https://didcomm.org/didexchange" = true →
  startsWith p "https://didcomm.org/connections" = true →
  False.
Proof.
  unfold startsWith. intros H1 H2.
  repeat (let q := fresh "q" in let q' := fresh "q" in let E := fresh "E" in
          apply prefix_cons_inv in H1 as (q & -> & H1);
          apply prefix_cons_inv in H2 as (q' & E & H2);
          first [discriminate E | injection E as ->]).
Qed.

Lemma startsWith_nonempty p (f : string) :
  f ≠ "" → startsWith p f = true → Js.truthy_string p = true.
Proof.
  unfold startsWith, Js.truthy_string. intros Hf Hp.
  destruct p; [|done]. destruct f; [done|discriminate].
Qed.

(** X4. getSupportedHandshakeProtocols throws exactly when the handler
    registry yields no handshake protocol. Otherwise it returns, without
    repetition, the first registered protocol of each family that has one
    (so at most two entries, however many versions are registered), with the
    did-exchange entry before the connections entry. *)
Theorem getSupportedHandshakeProtocols_one_per_family agent :
  ((∃ e, getSupportedHandshakeProtocols agent = inl e) ↔
   filterSupportedProtocolsByMessageFamilies agent handshakeMessageFamilies = []) ∧
  (∀ l, getSupportedHandshakeProtocols agent = inr l →
        length l ≤ 2 ∧
        NoDup l ∧
        (∀ p, p ∈ l ↔
              ∃ f, f ∈ handshakeMessageFamilies ∧
                   first_satisfying (λ q, startsWith q f)
                     (filterSupportedProtocolsByMessageFamilies agent
                        handshakeMessageFamilies) p) ∧
        (∀ a b, l = [a; b] →
                startsWith a "https://didcomm.org/didexchange" = true ∧
                startsWith b "https://didcomm.org/connections" = true)).
Proof.
  unfold getSupportedHandshakeProtocols.
  destruct (filterSupportedProtocolsByMessageFamilies agent handshakeMessageFamilies)
    as [|x reg'] eqn:Hreg; cbn [length Nat.eqb].
  { split; [split; eauto|]. intros l [=]. }
  split; [split; [intros [? [=]]|discriminate]|].
  clear Hreg. generalize (x :: reg'). clear x reg'. intros reg.
  intros l [= <-]. unfold handshakeMessageFamilies. simpl map. unfold filter_truthy.
  assert (Hfam : ∀ (f : string) p, f ≠ "" →
            Js.find (λ q, startsWith q f) reg = Some p →
            Js.truthy_string p = true ∧ startsWith p f = true).
  { intros f p Hf [_ Hp]%find_elem_of. split; [by eapply startsWith_nonempty|done]. }
  assert (Hdid := λ p, Hfam "https://didcomm.org/didexchange" p ltac:(done)).
  assert (Hcon := λ p, Hfam "https://didcomm.org/connections" p ltac:(done)).
  assert (Hiff : ∀ p,
    (∃ f, f ∈ ["https://didcomm.org/didexchange"; "https://didcomm.org/connections"] ∧
          first_satisfying (λ q, startsWith q f) reg p) ↔
    Js.find (λ q, startsWith q "https://didcomm.org/didexchange") reg = Some p ∨
    Js.find (λ q, startsWith q "https://didcomm.org/connections") reg = Some p).
  { intros p. setoid_rewrite <- find_first_satisfying. split.
    - intros (f & Hf & Hp).
      apply elem_of_cons in Hf as [->|Hf]; [by left|].
      apply elem_of_cons in Hf as [->|Hf]; [by right|]. by apply elem_of_nil in Hf.
    - intros [Hp|Hp]; eexists; (split; [|exact Hp]); in_list. }
  destruct (Js.find (λ q, startsWith q "https://didcomm.org/didexchange") reg)
    as [a|] eqn:Ha;
    destruct (Js.find (λ q, startsWith q "https://didcomm.org/connections") reg)
      as [b|] eqn:Hb; simpl.
  - destruct (Hdid a eq_refl) as [-> Hsa].
    destruct (Hcon b eq_refl) as [-> Hsb]. simpl.
    split_and!; [lia| | |].
    + apply NoDup_cons. split; [|apply NoDup_singleton].
      intros ->%list_elem_of_singleton. by eapply families_disjoint.
    + intros p. rewrite Hiff, !elem_of_cons, elem_of_nil.
      split; [intros [->|[->|[]]]; auto|intros [[= ->]|[= ->]]; auto].
    + by intros ?? [= <- <-].
  - destruct (Hdid a eq_refl) as [-> Hsa]. simpl.
    split_and!; [lia|apply NoDup_singleton| |done].
    intros p. rewrite Hiff, list_elem_of_singleton.
    split; [intros ->; auto|intros [[= ->]|[=]]; auto].
  - destruct (Hcon b eq_refl) as [-> Hsb]. simpl.
    split_and!; [lia|apply NoDup_singleton| |done].
    intros p. rewrite Hiff, list_elem_of_singleton.
    split; [intros ->; auto|intros [[=]|[= ->]]; auto].
  - split_and!; [lia|apply NoDup_nil_2| |done].
    intros p. rewrite Hiff, elem_of_nil. split; [done|intros [[=]|[=]]].
Qed.

(* When assertHandshakeProtocols passes, and how it fails. *)
Lemma assertHandshakeProtocols_cases agent l :
  (assertHandshakeProtocols agent l = inr tt ↔
   ∃ supported, getSupportedHandshakeProtocols agent = inr supported ∧
                Forall (λ p, p ∈ supported) l) ∧
  (∀ e, assertHandshakeProtocols agent l = inl e → unsupportedProtocolError e).
Proof.
  unfold assertHandshakeProtocols, areHandshakeProtocolsSupported, Js.every,
    unsupportedProtocolError.
  destruct (getSupportedHandshakeProtocols agent) as [e|supported] eqn:Hs.
  - split.
    + split; [discriminate|]. intros (? & [=] & _).
    + intros e' [= <-]. left. by eapply getSupportedHandshakeProtocols_error.
  - destruct (forallb _ l) eqn:Hall.
    + split; [|discriminate]. split; [|done]. intros _. exists supported.
      split; [done|]. apply Forall_forall. intros p Hp.
      rewrite forallb_forall in Hall. apply includes_true, Hall.
      by apply list_elem_of_In.
    + split.
      * split; [discriminate|]. intros (s & [= <-] & Hin).
        assert (forallb (λ p, Js.includes supported p) l = true); [|congruence].
        apply forallb_forall. intros p Hp%list_elem_of_In.
        apply includes_true. rewrite Forall_forall in Hin. auto.
      * intros e [= <-]. right. eauto.
Qed.

(** X5. assertHandshakeProtocols passes exactly when the agent supports a
    handshake protocol at all and every requested protocol is in the
    supported list; the empty request passes then. Any failure is an
    unsupported-protocol error: the no-protocol error of the agent when it
    supports none, and otherwise the error that names the requested and the
    supported list. *)
Theorem assertHandshakeProtocols_passes_iff agent l :
  (assertHandshakeProtocols agent l = inr tt ↔
   ∃ supported, getSupportedHandshakeProtocols agent = inr supported ∧
                Forall (λ p, p ∈ supported) l) ∧
  (∀ e, assertHandshakeProtocols agent l = inl e → unsupportedProtocolError e) ∧
  (assertHandshakeProtocols agent [] = inr tt ↔
   ∃ supported, getSupportedHandshakeProtocols agent = inr supported) ∧
  (∀ e, getSupportedHandshakeProtocols agent = inl e →
        assertHandshakeProtocols agent l = inl e) ∧
  (∀ supported, getSupportedHandshakeProtocols agent = inr supported →
                ¬ Forall (λ p, p ∈ supported) l →
                assertHandshakeProtocols agent l =
                  inl (AriesFrameworkError (HandshakeProtocolsNotSupported l supported))).
Proof.
  destruct (assertHandshakeProtocols_cases agent l) as [Hpass Hfail].
  split_and!; [exact Hpass|exact Hfail| | |].
  - destruct (assertHandshakeProtocols_cases agent []) as [Hnil _]. rewrite Hnil.
    split; [intros (s & Hs & _); eauto|intros (s & Hs); eauto].
  - intros e He. unfold assertHandshakeProtocols, areHandshakeProtocolsSupported.
    by rewrite He.
  - intros supported Hs Hnot.
    destruct (assertHandshakeProtocols agent l) as [e|[]] eqn:Ha.
    + unfold assertHandshakeProtocols, areHandshakeProtocolsSupported in Ha.
      rewrite Hs in Ha. destruct (Js.every _ l); [discriminate|]. by symmetry.
    + destruct Hnot. destruct (proj1 Hpass eq_refl) as (s & Hs' & Hall).
      rewrite Hs in Hs'. by injection Hs' as <-.
Qed.

(** X6. Assertion and selection agree: a non-empty list that
    assertHandshakeProtocols lets through is negotiated to its first entry
    by getFirstSupportedProtocol, and so is the agent's own supported
    list. *)
Theorem asserted_list_selects_its_head agent p l :
  (assertHandshakeProtocols agent (p :: l) = inr tt →
   getFirstSupportedProtocol agent (p :: l) = inr p) ∧
  (getSupportedHandshakeProtocols agent = inr (p :: l) →
   getFirstSupportedProtocol agent (p :: l) = inr p).
Proof.
  assert (Hhead : p ∈ locallySupported agent →
                  getFirstSupportedProtocol agent (p :: l) = inr p).
  { intros Hp. apply getFirstSupportedProtocol_selects.
    exists [], l. split_and!; [done|by apply bool_decide_eq_true|done]. }
  split.
  - intros (supported & Hs & Hall)%assertHandshakeProtocols_cases.
    apply Hhead. unfold locallySupported. rewrite Hs.
    by apply Forall_cons in Hall as [? _].
  - intros Hs. apply Hhead. unfold locallySupported. rewrite Hs. left.
Qed.

End NegotiationMore.

(* The demo agent lets the connections protocol through and negotiates it. *)
Lemma asserted_list_selects_its_head_witness :
  OutOfBand.getFirstSupportedProtocol Demo.demoAgent
    [Demo.connections10; Demo.didexchange10] = inr Demo.connections10.
Proof.
  apply (proj1 (asserted_list_selects_its_head Demo.demoAgent Demo.connections10
                  [Demo.didexchange10])).
  reflexivity.
Defined.

(* ===================================================================== *)
(* Further properties of creation                                        *)
(* ===================================================================== *)
Section CreationMore.
Import OutOfBand Spec.
Implicit Types (agent : Agent) (w : World) (c : CreateV11OutOfBandInvitationConfig).

(* createInvitation for v1, step by step: the three checks, the handshake
   protocols, then the record is built, saved and announced. *)
Lemma createInvitation_v1_run agent c w :
  createInvitation agent (VersionV1 c) w =
  match configurationCheck c with
  | Some m => (Thrown (AriesFrameworkError m), w)
  | None =>
      match negotiatedProtocols agent c with
      | inl e => (Thrown e, w)
      | inr hp =>
          (Returned (createdRecord agent c hp w),
           {| store := <[record_id (createdRecord agent c hp w) :=
                           createdRecord agent c hp w]> (store w);
              log := log w ++
                     match create_routing c with
                     | Some _ => []
                     | None => [GetRouting]
                     end ++
                     [RepositorySave (createdRecord agent c hp w);
                      StateChangedEvent (createdRecord agent c hp w) None];
              uuids :=
                S (S (uuids w + length (Js.nullish (nonEmptyOrUndefined (messages c)) []))) |})
      end
  end.
Proof.
  unfold createInvitation, configurationCheck, negotiatedProtocols, createdRecord,
    createdInvitation, routingOfCreate.
  unfold bind at 1.
  destruct (nonEmptyOrUndefined (messages c)) as [ms|];
    destruct (Js.nullish (handshake c) true);
    destruct (create_handshakeProtocols c) as [l|];
    destruct (Js.nullish (multiUseInvitation c) false);
    simpl; try reflexivity.
  all: try (unfold bind at 1; unfold bind at 1;
            destruct (assertHandshakeProtocols agent l) as [e|[]]; simpl;
            [reflexivity|]).
  all: try (unfold bind at 1; unfold bind at 1;
            destruct (getSupportedHandshakeProtocols agent) as [e|supported]; simpl;
            [reflexivity|]).
  all: destruct (create_routing c) as [routing|];
    unfold bind, ret, lift, save, emitStateChangedEvent, writeStore, perform, freshUuid;
    simpl; rewrite ?addRequest_loop; simpl; rewrite <- ?app_assoc, ?Nat.add_0_r;
    reflexivity.
Qed.

Lemma configurationCheck_error c m :
  configurationCheck c = Some m → configurationError (AriesFrameworkError m).
Proof.
  unfold configurationCheck, configurationError.
  destruct (_ && _); [intros [= <-]; auto|].
  destruct (_ && _); [intros [= <-]; auto|].
  destruct (_ && _); [intros [= <-]; auto|done].
Qed.

Lemma negotiatedProtocols_error agent c e :
  negotiatedProtocols agent c = inl e → unsupportedProtocolError e.
Proof.
  unfold negotiatedProtocols. destruct (Js.nullish (handshake c) true); [|done].
  destruct (create_handshakeProtocols c) as [l|].
  - destruct (assertHandshakeProtocols agent l) as [e'|] eqn:Ha; [|done].
    intros [= <-]. by eapply assertHandshakeProtocols_cases.
  - destruct (getSupportedHandshakeProtocols agent) as [e'|] eqn:Hs; [|done].
    intros [= <-]. left. by eapply getSupportedHandshakeProtocols_error.
Qed.

(** X7. createInvitation for v1 is all or nothing. It either fails with a
    configuration or unsupported-protocol error and leaves the repository
    and the log exactly as they were, or it adds exactly the returned record
    under its own identity, asking the routing service only when the caller
    gave no routing, and announces the record, with no previous state, after
    it is saved. *)
Theorem createInvitation_v1_all_or_nothing agent c w :
  (∃ e, createInvitation agent (VersionV1 c) w = (Thrown e, w) ∧
        (configurationError e ∨ unsupportedProtocolError e)) ∨
  (∃ r w', createInvitation agent (VersionV1 c) w = (Returned r, w') ∧
           store w' = <[record_id r := r]> (store w) ∧
           emitted (createInvitation agent (VersionV1 c)) w =
             match create_routing c with
             | Some _ => []
             | None => [GetRouting]
             end ++ [RepositorySave r; StateChangedEvent r None]).
Proof.
  assert (Hrun := createInvitation_v1_run agent c w).
  destruct (configurationCheck c) as [m|] eqn:Hc.
  { left. eexists. split; [exact Hrun|]. left. by apply (configurationCheck_error c). }
  destruct (negotiatedProtocols agent c) as [e|hp] eqn:Hn.
  { left. eexists. split; [exact Hrun|]. right. by eapply negotiatedProtocols_error. }
  right. eexists _, _. split; [exact Hrun|]. split; [done|].
  apply emitted_of_log. by rewrite Hrun.
Qed.

Lemma createInvitation_v1_returned agent c w r w' :
  createInvitation agent (VersionV1 c) w = (Returned r, w') →
  ∃ hp, negotiatedProtocols agent c = inr hp ∧ configurationCheck c = None ∧
        r = createdRecord agent c hp w.
Proof.
  rewrite createInvitation_v1_run.
  destruct (configurationCheck c); [discriminate|].
  destruct (negotiatedProtocols agent c) as [e|hp]; [discriminate|].
  intros [= <- _]. eauto.
Qed.

Lemma createdServices_recipientKeys agent (routing : Routing) :
  concat (map recipientKeys (createdServices agent routing)) =
  replicate (length (endpoints routing)) (didKey_did agent (recipientKey routing)).
Proof.
  unfold createdServices.
  assert (∀ (g : nat → string → OutOfBandDidCommService) (k : string) (l : list string),
            (∀ n e, recipientKeys (g n e) = [k]) →
            concat (map recipientKeys (imap g l)) = replicate (length l) k) as Hgen.
  { intros g k l. revert g. induction l as [|e es IH]; intros g Hg; simpl; [done|].
    rewrite Hg. simpl. f_equal. apply IH. intros n e'. apply Hg. }
  by apply Hgen.
Qed.

(** X8. A created v1 invitation carries one inline service per routing
    endpoint, in order, the n-th identified "#inline-n" and holding the one
    recipient key and all routing keys of the routing; with no endpoint it
    carries no service. The record's fingerprint tag repeats the recipient
    key's fingerprint once per endpoint, and the record takes the routing's
    mediator. *)
Theorem createInvitation_v1_services agent c w r w' :
  createInvitation agent (VersionV1 c) w = (Returned r, w') →
  ∃ i, outOfBandInvitation r = Some i ∧
       length (services i) = length (endpoints (routingOfCreate agent c)) ∧
       (∀ n endpoint,
          endpoints (routingOfCreate agent c) !! n = Some endpoint →
          services i !! n =
            Some (InlineService
                    {| service_id := "#inline-" +:+ pretty n;
                       serviceEndpoint := endpoint;
                       recipientKeys :=
                         [didKey_did agent (recipientKey (routingOfCreate agent c))];
                       service_routingKeys :=
                         map (didKey_did agent)
                             (routingKeys (routingOfCreate agent c)) |})) ∧
       recipientKeyFingerprints r =
         replicate (length (endpoints (routingOfCreate agent c)))
           (didKey_fingerprint agent
              (didKey_did agent (recipientKey (routingOfCreate agent c)))) ∧
       mediatorId r = routing_mediatorId (routingOfCreate agent c).
Proof.
  intros (hp & _ & _ & ->)%createInvitation_v1_returned.
  eexists. split; [reflexivity|]. simpl. split_and!.
  - unfold createdServices. by rewrite length_map, length_imap.
  - intros n endpoint Hn. unfold createdServices.
    rewrite list_lookup_fmap, list_lookup_imap, Hn. reflexivity.
  - rewrite createdServices_recipientKeys. by rewrite fmap_replicate.
  - done.
Qed.

(** X9. What a created v1 invitation asks for: with the handshake disabled
    it names no handshake protocols; otherwise it names the explicit list
    verbatim when one was given and the agent's supported list when not. Its
    requests are the attached messages in order, each with its service
    decorator removed, and there are none when no message (or an empty
    array) was given. A handshake list or a non-empty request list is always
    present, and a multi-use record never carries requests. *)
Theorem createInvitation_v1_content agent c w r w' :
  createInvitation agent (VersionV1 c) w = (Returned r, w') →
  ∃ i, outOfBandInvitation r = Some i ∧
       (Js.nullish (handshake c) true = false → handshakeProtocols i = None) ∧
       (Js.nullish (handshake c) true = true →
        ∀ l, create_handshakeProtocols c = Some l → handshakeProtocols i = Some l) ∧
       (Js.nullish (handshake c) true = true →
        create_handshakeProtocols c = None →
        getSupportedHandshakeProtocols agent = inr (default [] (handshakeProtocols i)) ∧
        handshakeProtocols i ≠ None) ∧
       requests i = (map clearService <$> nonEmptyOrUndefined (messages c)) ∧
       (∀ ms m, requests i = Some ms → m ∈ ms → message_service m = None) ∧
       (handshakeProtocols i ≠ None ∨ ∃ ms, requests i = Some ms ∧ ms ≠ []) ∧
       (reusable r = true → requests i = None).
Proof.
  intros (hp & Hn & Hc & ->)%createInvitation_v1_returned.
  eexists. split; [reflexivity|]. simpl.
  unfold negotiatedProtocols in Hn. unfold configurationCheck in Hc.
  destruct (Js.nullish (handshake c) true) eqn:Hh; simpl in Hc.
  - split_and!; try done.
    + intros _ l Hl. rewrite Hl in Hn.
      destruct (assertHandshakeProtocols agent l); congruence.
    + intros _ Hl. rewrite Hl in Hn.
      destruct (getSupportedHandshakeProtocols agent); [done|].
      injection Hn as <-. done.
    + intros ms m Hms Hm. destruct (nonEmptyOrUndefined (messages c)); [|done].
      injection Hms as <-. apply list_elem_of_fmap in Hm as (m' & -> & _). done.
    + left. destruct (create_handshakeProtocols c).
      * destruct (assertHandshakeProtocols agent l); congruence.
      * destruct (getSupportedHandshakeProtocols agent); congruence.
    + intros Hmu. rewrite Hmu in Hc.
      destruct (nonEmptyOrUndefined (messages c)); [discriminate|done].
  - injection Hn as <-.
    destruct (nonEmptyOrUndefined (messages c)) as [ms|] eqn:Hms; [|discriminate].
    simpl in Hc. split_and!; try done.
    + intros ms' m [= <-] (m' & -> & _)%list_elem_of_fmap. done.
    + right. eexists. split; [reflexivity|].
      apply nonEmptyOrUndefined_Some in Hms as [_ Hne]. by destruct ms.
    + intros Hmu. rewrite Hmu in Hc.
      destruct (create_handshakeProtocols c); discriminate.
Qed.

End CreationMore.

(* createInvitation({ routing }) with two endpoints behind a mediator. *)
Lemma createInvitation_v1_services_witness :
  ∃ i, OutOfBand.outOfBandInvitation
         (Spec.createdRecord Demo.demoAgent Demo.createWithRouting
            (Some [Demo.didexchange10; Demo.connections10]) OutOfBand.emptyWorld) = Some i ∧
       length (OutOfBand.services i) = 2 ∧
       OutOfBand.recipientKeyFingerprints
         (Spec.createdRecord Demo.demoAgent Demo.createWithRouting
            (Some [Demo.didexchange10; Demo.connections10]) OutOfBand.emptyWorld) =
         ["z6MkRecipient"; "z6MkRecipient"] ∧
       OutOfBand.mediatorId
         (Spec.createdRecord Demo.demoAgent Demo.createWithRouting
            (Some [Demo.didexchange10; Demo.connections10]) OutOfBand.emptyWorld) =
         Some "mediator-1".
Proof.
  destruct (createInvitation_v1_services Demo.demoAgent Demo.createWithRouting
              OutOfBand.emptyWorld
              (Spec.createdRecord Demo.demoAgent Demo.createWithRouting
                 (Some [Demo.didexchange10; Demo.connections10]) OutOfBand.emptyWorld)
              (OutOfBand.createInvitation Demo.demoAgent
                 (OutOfBand.VersionV1 Demo.createWithRouting) OutOfBand.emptyWorld).2
              eq_refl) as (i & Hi & Hlen & _ & Hfp & Hmed).
  exists i. split_and!; [exact Hi|exact Hlen|exact Hfp|exact Hmed].
Defined.

(* createInvitation({ handshake: false, messages: [offer] }): the attached
   copy of the offer has lost its service decorator. *)
Lemma createInvitation_v1_content_witness :
  ∃ i, OutOfBand.outOfBandInvitation
         (Spec.createdRecord Demo.demoAgent Demo.createConnectionless None
            OutOfBand.emptyWorld) = Some i ∧
       OutOfBand.handshakeProtocols i = None ∧
       OutOfBand.requests i = Some [Demo.offer].
Proof.
  destruct (createInvitation_v1_content Demo.demoAgent Demo.createConnectionless
              OutOfBand.emptyWorld
              (Spec.createdRecord Demo.demoAgent Demo.createConnectionless None
                 OutOfBand.emptyWorld)
              (OutOfBand.createInvitation Demo.demoAgent
                 (OutOfBand.VersionV1 Demo.createConnectionless) OutOfBand.emptyWorld).2
              eq_refl) as (i & Hi & Hh & _ & _ & Hreq & _).
  exists i. split_and!; [exact Hi|exact (Hh eq_refl)|exact Hreq].
Defined.

(* ===================================================================== *)
(* Creation and reception together, and creation of v2 invitations       *)
(* ===================================================================== *)
Section CreationV2.
Import OutOfBand Spec.
Implicit Types (agent : Agent) (w : World).

(** X10. createInvitation lets an explicit but empty handshake-protocol list
    through: with the handshake left on and no message attached, an agent
    that supports some handshake protocol creates and persists an invitation
    with an empty protocol list and no request. Reception rejects exactly
    this invitation, at any agent and whatever it holds, with the
    handshake-or-requests error: the invitation cannot be received. *)
Theorem createInvitation_empty_list_unreceivable agent
    (c : CreateV11OutOfBandInvitationConfig) w (supported : list HandshakeProtocol) :
  getSupportedHandshakeProtocols agent = inr supported →
  Js.nullish (handshake c) true = true →
  create_handshakeProtocols c = Some [] →
  nonEmptyOrUndefined (messages c) = None →
  ∃ r i w',
    createInvitation agent (VersionV1 c) w = (Returned r, w') ∧
    store w' !! record_id r = Some r ∧
    outOfBandInvitation r = Some i ∧
    handshakeProtocols i = Some [] ∧
    requests i = None ∧
    ∀ receiver config w0,
      receiveInvitation receiver (IsOutOfBandInvitation i) config w0 =
        (Thrown (AriesFrameworkError HandshakeOrRequestsRequired), w0).
Proof.
  intros Hs Hh Hl Hm.
  assert (Hrun := createInvitation_v1_run agent c w).
  assert (configurationCheck c = None) as Hc.
  { unfold configurationCheck. by rewrite Hh, Hm. }
  assert (negotiatedProtocols agent c = inr (Some [])) as Hn.
  { unfold negotiatedProtocols, assertHandshakeProtocols, areHandshakeProtocolsSupported.
    by rewrite Hh, Hl, Hs. }
  rewrite Hc, Hn in Hrun.
  eexists _, _, _. split; [exact Hrun|]. split; [apply lookup_insert_eq|].
  split; [reflexivity|]. split; [reflexivity|]. split; [simpl; by rewrite Hm|].
  intros receiver config w0. unfold receiveInvitation.
  erewrite _receiveInvitation_v1_run; [|reflexivity].
  simpl. by rewrite Hm.
Qed.

Lemma v2_attachments_loop agent (ms : list PlaintextMessage) (acc : list Attachment) w :
  for_each ms acc
    (λ attachments message,
       u <- freshUuid agent ;;
       ret (attachments ++ [createJSONV2Attachment agent u message])) w =
  (Returned (acc ++ imap (λ k message,
                            createJSONV2Attachment agent (uuid agent (uuids w + k)) message)
                         ms),
   {| store := store w; log := log w; uuids := uuids w + length ms |}).
Proof.
  revert acc w. induction ms as [|m ms IH]; intros acc w; simpl.
  - unfold ret. rewrite app_nil_r, Nat.add_0_r. by destruct w.
  - unfold bind at 1. unfold bind at 1. unfold freshUuid at 1. unfold ret at 1.
    rewrite IH. simpl. rewrite <- app_assoc, Nat.add_0_r. simpl.
    f_equal; [f_equal; f_equal; f_equal|f_equal; lia].
    apply imap_ext. intros k x _. simpl. do 2 f_equal. lia.
Qed.

Lemma createInvitation_v2_run agent (c : CreateV20OutOfBandInvitationConfig) w :
  createInvitation agent (VersionV2 c) w =
  (Returned (createdV2Record agent c w),
   {| store := <[record_id (createdV2Record agent c w) := createdV2Record agent c w]>
                 (store w);
      log := log w ++ [V2CreateInvitation (createdV2Invitation agent c w);
                       RepositorySave (createdV2Record agent c w);
                       StateChangedEvent (createdV2Record agent c w) None];
      uuids := S (S (uuids w + length (Js.nullish (v2_create_messages c) []))) |}).
Proof.
  unfold createInvitation.
  unfold bind at 1. unfold bind at 1. rewrite v2_attachments_loop.
  unfold createdV2Record, createdV2Invitation, v2Attachments.
  unfold bind, ret, save, emitStateChangedEvent, writeStore, perform, freshUuid; simpl.
  rewrite <- ?app_assoc. reflexivity.
Qed.

(** X11. createInvitation for v2 validates nothing and always succeeds, also
    with no message and no attachment at all. The invitation is requested
    from the v2 service with the appended attachments followed by one
    attachment per message, in order, each built under a fresh identifier;
    the record is a Sender record in AwaitResponse that holds only the v2
    invitation, with no mediator and no fingerprint tag; it is saved and then
    announced, and the routing service is never asked. *)
Theorem createInvitation_v2_always_persists agent (c : CreateV20OutOfBandInvitationConfig) w :
  ∃ r v2 attachments w',
    createInvitation agent (VersionV2 c) w = (Returned r, w') ∧
    store w' = <[record_id r := r]> (store w) ∧
    emitted (createInvitation agent (VersionV2 c)) w =
      [V2CreateInvitation v2; RepositorySave r; StateChangedEvent r None] ∧
    role r = Sender ∧ state r = AwaitResponse ∧
    outOfBandInvitation r = None ∧ v2OutOfBandInvitation r = Some v2 ∧
    mediatorId r = None ∧ recipientKeyFingerprints r = [] ∧
    (∃ id, v2 = v2_createInvitation agent (v2_create_goal c) (v2_create_goalCode c)
                  (v2_create_accept c) attachments id) ∧
    length attachments =
      length (default [] (v2_create_appendedAttachments c)) +
      length (default [] (v2_create_messages c)) ∧
    take (length (default [] (v2_create_appendedAttachments c))) attachments =
      default [] (v2_create_appendedAttachments c) ∧
    ∀ k message,
      default [] (v2_create_messages c) !! k = Some message →
      attachments !! (length (default [] (v2_create_appendedAttachments c)) + k) =
        Some (createJSONV2Attachment agent (uuid agent (uuids w + k)) message).
Proof.
  exists (createdV2Record agent c w), (createdV2Invitation agent c w),
    (v2Attachments agent c w).
  eexists. split; [apply createInvitation_v2_run|].
  split_and!; try reflexivity.
  - apply emitted_of_log. by rewrite createInvitation_v2_run.
  - eexists. reflexivity.
  - unfold v2Attachments, Js.nullish. by rewrite length_app, length_imap.
  - unfold v2Attachments, Js.nullish. by rewrite take_app_length.
  - intros k message Hk. unfold v2Attachments, Js.nullish.
    rewrite lookup_app_r by lia.
    replace (_ + k - _) with k by lia.
    rewrite list_lookup_imap, Hk. reflexivity.
Qed.

End CreationV2.

(* createInvitation({ handshakeProtocols: [] }) at the demo agent. *)
Lemma createInvitation_empty_list_unreceivable_witness :
  ∃ r i w',
    OutOfBand.createInvitation Demo.demoAgent
      (OutOfBand.VersionV1 Demo.createWithEmptyList) OutOfBand.emptyWorld = (OutOfBand.Returned r, w') ∧
    OutOfBand.store w' !! OutOfBand.record_id r = Some r ∧
    OutOfBand.outOfBandInvitation r = Some i ∧
    OutOfBand.handshakeProtocols i = Some [] ∧
    OutOfBand.requests i = None ∧
    ∀ receiver config w0,
      OutOfBand.receiveInvitation receiver (OutOfBand.IsOutOfBandInvitation i) config w0 =
        (OutOfBand.Thrown
           (OutOfBand.AriesFrameworkError OutOfBand.HandshakeOrRequestsRequired), w0).
Proof.
  apply (createInvitation_empty_list_unreceivable Demo.demoAgent Demo.createWithEmptyList
           OutOfBand.emptyWorld [Demo.didexchange10; Demo.connections10]);
    reflexivity.
Defined.

(* ===================================================================== *)
(* Further properties of acceptance                                      *)
(* ===================================================================== *)
Section AcceptanceMore.
Import OutOfBand Spec.
Implicit Types (agent : Agent) (w : World) (r : OutOfBandRecord)
  (i : OutOfBandInvitation) (config : AcceptInvitationConfig).

Lemma logsOnly_ret {A} P (a : A) : logsOnly P (ret a).
Proof. intros w. exists []. by rewrite logged_nil. Qed.

Lemma logsOnly_throw {A} P e : logsOnly P (throw (A := A) e).
Proof. intros w. exists []. by rewrite logged_nil. Qed.

Lemma logsOnly_perform (P : Effect → Prop) e : P e → logsOnly P (perform e).
Proof. intros He w. exists [e]. split; [done|]. by constructor. Qed.

Lemma logsOnly_lift {A} P (x : Failure + A) : logsOnly P (lift x).
Proof. destruct x; [apply logsOnly_throw|apply logsOnly_ret]. Qed.

Lemma logsOnly_bind {A B} P (m : M A) (k : A → M B) :
  logsOnly P m → (∀ a, logsOnly P (k a)) → logsOnly P (bind m k).
Proof.
  intros Hm Hk w. destruct (Hm w) as (es & Hes & HP). unfold bind.
  destruct (m w) as [[a| |] w1]; simpl in *; [|by exists es..].
  destruct (Hk a w1) as (es' & Hes' & HP'). exists (es ++ es').
  rewrite Hes', Hes, logged_logged. split; [done|]. by apply Forall_app.
Qed.

Lemma logsOnly_weaken {A} (P Q : Effect → Prop) (m : M A) :
  (∀ e, P e → Q e) → logsOnly P m → logsOnly Q m.
Proof.
  intros HPQ Hm w. destruct (Hm w) as (es & Hes & HP). exists es.
  split; [done|]. eapply Forall_impl; eauto.
Qed.

Lemma logsOnly_emitWithConnection agent (P : Effect → Prop) c ms :
  (∀ m conn, P (AgentMessageReceived m conn)) →
  logsOnly P (emitWithConnection agent c ms).
Proof.
  intros HP. unfold emitWithConnection. destruct (Js.find _ ms);
    [by apply logsOnly_perform|apply logsOnly_throw].
Qed.

Lemma logsOnly_emitWithServices agent (P : Effect → Prop) svcs ms :
  (∀ m conn, P (AgentMessageReceived m conn)) →
  logsOnly P (emitWithServices agent svcs ms).
Proof.
  intros HP. unfold emitWithServices. destruct (_ =? _)%nat; [apply logsOnly_throw|].
  destruct (Js.find _ ms); [by apply logsOnly_perform|apply logsOnly_throw].
Qed.

Lemma logsOnly_handleHandshakeReuse agent r c :
  logsOnly (λ _, True) (handleHandshakeReuse agent r c).
Proof.
  destruct (handleHandshakeReuse_run agent r c) as (b & Hrun & _).
  intros w. rewrite Hrun. eexists. split; [reflexivity|]. by repeat constructor.
Qed.

(* The decision tree never touches the repository or the identifiers. *)
Lemma logsOnly_decisionTree agent config r i existing routing :
  logsOnly (λ _, True) (decisionTree agent config r i existing routing).
Proof.
  unfold decisionTree.
  destruct (handshakeProtocols i) as [hs|].
  - apply logsOnly_bind.
    { destruct (truthy_nullable existing) as [c|]; [|apply logsOnly_ret].
      destruct (accept_reuseConnection config) as [[|]|]; try apply logsOnly_ret.
      destruct (getRequests i); [apply logsOnly_ret|].
      apply logsOnly_bind; [apply logsOnly_handleHandshakeReuse|].
      intros [|]; apply logsOnly_ret. }
    intros reused. apply logsOnly_bind.
    { destruct reused; [apply logsOnly_ret|].
      apply logsOnly_bind; [apply logsOnly_lift|]. intros p.
      apply logsOnly_bind; [by apply logsOnly_perform|]. intros _. apply logsOnly_ret. }
    intros c. apply logsOnly_bind; [|intros _; apply logsOnly_ret].
    destruct (getRequests i); [|apply logsOnly_ret].
    destruct (isReady c); [by apply logsOnly_emitWithConnection|by apply logsOnly_perform].
  - apply logsOnly_bind; [|intros _; apply logsOnly_ret].
    destruct (getRequests i); [|apply logsOnly_ret].
    destruct (truthy_nullable existing);
      [by apply logsOnly_emitWithConnection|by apply logsOnly_emitWithServices].
Qed.

(* Outside the reuse scenario the decision tree sends no message. *)
Lemma decisionTree_sends_nothing agent config r i routing :
  ¬ reuseAttempted agent config i →
  logsOnly (λ e, isSendMessage e = false)
    (decisionTree agent config r i (existingConnectionOf agent i) routing).
Proof.
  intros Hno. unfold decisionTree.
  destruct (handshakeProtocols i) as [hs|] eqn:Hh.
  - apply logsOnly_bind.
    { destruct (truthy_nullable (existingConnectionOf agent i)) as [c|] eqn:He;
        [|apply logsOnly_ret].
      destruct (accept_reuseConnection config) as [[|]|] eqn:Hre; try apply logsOnly_ret.
      destruct (getRequests i) eqn:Hm; [apply logsOnly_ret|].
      destruct Hno. unfold reuseAttempted. rewrite Hh, He. by split_and!. }
    intros reused. apply logsOnly_bind.
    { destruct reused; [apply logsOnly_ret|].
      apply logsOnly_bind; [apply logsOnly_lift|]. intros p.
      apply logsOnly_bind; [by apply logsOnly_perform|]. intros _. apply logsOnly_ret. }
    intros c. apply logsOnly_bind; [|intros _; apply logsOnly_ret].
    destruct (getRequests i); [|apply logsOnly_ret].
    destruct (isReady c); [by apply logsOnly_emitWithConnection|by apply logsOnly_perform].
  - apply logsOnly_bind; [|intros _; apply logsOnly_ret].
    destruct (getRequests i); [|apply logsOnly_ret].
    destruct (truthy_nullable _);
      [by apply logsOnly_emitWithConnection|by apply logsOnly_emitWithServices].
Qed.

(* acceptInvitation by what the repository holds under the identifier; the
   record is written back under its own identity. *)
Lemma acceptInvitation_cases agent config w (id : string) :
  match store w !! id with
  | None => acceptInvitation agent id config w = (Thrown (RecordNotFoundError id), w)
  | Some r =>
      match v2OutOfBandInvitation r, outOfBandInvitation r with
      | Some v2, _ =>
          acceptInvitation agent id config w =
            (Returned (r, v2_acceptInvitation agent v2), logged w [V2AcceptInvitation v2])
      | None, Some i =>
          acceptInvitation agent id config w =
            decisionTree agent config (set_state r PrepareResponse) i
              (existingConnectionOf agent i) (routingFor config r)
              {| store := <[record_id r := set_state r PrepareResponse]> (store w);
                 log := log w ++ prepareEffects agent r i;
                 uuids := uuids w |}
      | None, None => acceptInvitation agent id config w = (Returned (r, None), w)
      end
  end.
Proof.
  destruct (store w !! id) as [r|] eqn:Hr.
  - destruct (v2OutOfBandInvitation r) as [v2|] eqn:Hv2.
    { by apply acceptInvitation_v2. }
    unfold acceptInvitation.
    rewrite (bind_returned _ _ _ _ _ (getById_found _ _ _ Hr)).
    rewrite Hv2. destruct (outOfBandInvitation r) as [i|] eqn:Hi; [|done].
    rewrite (bind_returned _ _ _ _ _ (findExistingConnection_run _ _ _)).
    unfold updateState.
    unfold bind at 1. unfold bind at 1. unfold writeStore at 1.
    unfold bind at 1. unfold perform at 1.
    unfold bind at 1. unfold emitStateChangedEvent at 1. unfold perform at 1.
    unfold ret at 1.
    cbn [store log uuids logged set_state record_id].
    unfold prepareEffects. rewrite <- !app_assoc.
    reflexivity.
  - unfold acceptInvitation. by rewrite (bind_thrown _ _ _ _ _ (getById_missing _ _ Hr)).
Qed.

Lemma endsWith_ret {A} (Q : A → Prop) E (a : A) : Q a → endsWith Q E (ret a).
Proof. by intros Ha w. Qed.

Lemma endsWith_throw {A} (Q : A → Prop) (E : Failure → Prop) e :
  E e → endsWith Q E (throw e).
Proof. by intros He w. Qed.

Lemma endsWith_perform (Q : unit → Prop) E e : Q tt → endsWith Q E (perform e).
Proof. by intros Ht w. Qed.

Lemma endsWith_lift {A} (Q : A → Prop) (E : Failure → Prop) (x : Failure + A) :
  (∀ e, x = inl e → E e) → (∀ a, x = inr a → Q a) → endsWith Q E (lift x).
Proof. intros He Ha w. destruct x; simpl; auto. Qed.

Lemma endsWith_bind {A B} (Q : A → Prop) (Q' : B → Prop) E (m : M A) (k : A → M B) :
  endsWith Q E m → (∀ a, Q a → endsWith Q' E (k a)) → endsWith Q' E (bind m k).
Proof.
  intros Hm Hk w. specialize (Hm w). unfold bind.
  destruct (m w) as [[a| |] w1]; simpl in *; [|done..].
  by apply Hk.
Qed.

Lemma endsWith_emitWithConnection agent c ms :
  endsWith (λ _, True) acceptanceError (emitWithConnection agent c ms).
Proof.
  unfold emitWithConnection. destruct (Js.find _ ms).
  - by apply endsWith_perform.
  - apply endsWith_throw. unfold acceptanceError. auto.
Qed.

Lemma endsWith_emitWithServices agent svcs ms :
  endsWith (λ _, True) acceptanceError (emitWithServices agent svcs ms).
Proof.
  unfold emitWithServices. destruct (_ =? _)%nat.
  { apply endsWith_throw. unfold acceptanceError. auto. }
  destruct (Js.find _ ms).
  - by apply endsWith_perform.
  - apply endsWith_throw. unfold acceptanceError. auto.
Qed.

(* How the decision tree ends. *)
Lemma decisionTree_outcome agent config r i existing routing :
  endsWith (λ res, res.1 = r ∧ (is_Some res.2 ↔ is_Some (handshakeProtocols i)))
    acceptanceError
    (decisionTree agent config r i existing routing).
Proof.
  unfold decisionTree.
  destruct (handshakeProtocols i) as [hs|].
  - apply (endsWith_bind (λ _, True)).
    { destruct (truthy_nullable existing) as [c|]; [|by apply endsWith_ret].
      destruct (accept_reuseConnection config) as [[|]|]; try by apply endsWith_ret.
      destruct (getRequests i); [by apply endsWith_ret|].
      apply (endsWith_bind (λ _, True)).
      - destruct (handleHandshakeReuse_run agent r c) as (b & Hrun & _).
        intros w. by rewrite Hrun.
      - intros [|] _; by apply endsWith_ret. }
    intros reused _. apply (endsWith_bind (λ _, True)).
    { destruct reused; [by apply endsWith_ret|].
      apply (endsWith_bind (λ _, True)).
      - apply endsWith_lift; [|done]. intros e He. left.
        by eapply getFirstSupportedProtocol_error_kind.
      - intros p _. apply (endsWith_bind (λ _, True)); [by apply endsWith_perform|].
        intros _ _. by apply endsWith_ret. }
    intros c _. apply (endsWith_bind (λ _, True)).
    { destruct (getRequests i); [|by apply endsWith_ret].
      destruct (isReady c); [apply endsWith_emitWithConnection|by apply endsWith_perform]. }
    intros _ _. apply endsWith_ret. simpl. split; [done|]. split; eauto.
  - apply (endsWith_bind (λ _, True)).
    { destruct (getRequests i); [|by apply endsWith_ret].
      destruct (truthy_nullable existing);
        [apply endsWith_emitWithConnection|apply endsWith_emitWithServices]. }
    intros _ _. apply endsWith_ret. simpl. split; [done|]. split; by intros [].
Qed.

(** X12. acceptInvitation always settles, and it fails in four ways only.
    It raises the record-not-found error exactly when the repository holds
    nothing under the identifier, before any call is made. Otherwise it
    either returns the stored record (in PrepareResponse when it holds a v1
    invitation, untouched otherwise) or fails with the unsupported-protocol
    error, the no-services error or the no-acceptable-message error; these
    three can only arise for a v1 invitation, after the transition. A record
    that holds no invitation of either version is returned as it is, without
    a relationship and without any call. *)
Theorem acceptInvitation_outcomes agent config w (id : string) :
  (store w !! id = None ↔
   (acceptInvitation agent id config w).1 = Thrown (RecordNotFoundError id)) ∧
  (store w !! id = None →
   acceptInvitation agent id config w = (Thrown (RecordNotFoundError id), w)) ∧
  (∀ r, store w !! id = Some r →
        match (acceptInvitation agent id config w).1 with
        | Returned res =>
            res.1 = match v2OutOfBandInvitation r, outOfBandInvitation r with
                    | None, Some _ => set_state r PrepareResponse
                    | _, _ => r
                    end
        | Thrown e =>
            acceptanceError e ∧ v2OutOfBandInvitation r = None ∧
            is_Some (outOfBandInvitation r) ∧
            store (acceptInvitation agent id config w).2 !! record_id r =
              Some (set_state r PrepareResponse)
        | NeverSettles => False
        end) ∧
  (∀ r, store w !! id = Some r →
        v2OutOfBandInvitation r = None → outOfBandInvitation r = None →
        acceptInvitation agent id config w = (Returned (r, None), w)).
Proof.
  assert (Hcases := acceptInvitation_cases agent config w id).
  assert (Hrec : ∀ r, store w !! id = Some r →
        match (acceptInvitation agent id config w).1 with
        | Returned res =>
            res.1 = match v2OutOfBandInvitation r, outOfBandInvitation r with
                    | None, Some _ => set_state r PrepareResponse
                    | _, _ => r
                    end
        | Thrown e =>
            acceptanceError e ∧ v2OutOfBandInvitation r = None ∧
            is_Some (outOfBandInvitation r) ∧
            store (acceptInvitation agent id config w).2 !! record_id r =
              Some (set_state r PrepareResponse)
        | NeverSettles => False
        end).
  { intros r Hr. rewrite Hr in Hcases.
    destruct (v2OutOfBandInvitation r) as [v2|] eqn:Hv2.
    { by rewrite Hcases. }
    destruct (outOfBandInvitation r) as [i|] eqn:Hi.
    - rewrite Hcases. set (w1 := {| store := _; log := _; uuids := _ |}).
      assert (Hout := decisionTree_outcome agent config (set_state r PrepareResponse) i
                        (existingConnectionOf agent i) (routingFor config r) w1).
      destruct (logsOnly_decisionTree agent config (set_state r PrepareResponse) i
                  (existingConnectionOf agent i) (routingFor config r) w1)
        as (es & Hes & _).
      destruct (decisionTree _ _ _ _ _ _ w1) as [[res|e|] w2]; simpl in *; [| |done].
      + apply Hout.
      + split_and!; [done|done|eauto|]. rewrite Hes. simpl. apply lookup_insert_eq.
    - by rewrite Hcases. }
  split_and!.
  - split.
    + intros Hr. rewrite Hr in Hcases. by rewrite Hcases.
    + intros Hthrown. destruct (store w !! id) as [r|] eqn:Hr; [|done].
      specialize (Hrec r eq_refl). rewrite Hthrown in Hrec.
      destruct Hrec as [[[H|(? & ? & H)]|[H|H]] _]; discriminate H.
  - intros Hr. by rewrite Hr in Hcases.
  - exact Hrec.
  - intros r Hr Hv2 Hi. by rewrite Hr, Hv2, Hi in Hcases.
Qed.

(** X13. acceptInvitation draws no identifier and changes the repository in
    one place at most: for a stored record with a v1 invitation it writes
    the record back under the record's own identity with the state
    PrepareResponse and nothing else changed, whether it then succeeds or
    fails; for a record with a v2 invitation, or with none, and for an
    unknown identifier, the repository is left exactly as it was. No record
    is ever created or deleted. *)
Theorem acceptInvitation_repository_footprint agent config w (id : string) :
  uuids (acceptInvitation agent id config w).2 = uuids w ∧
  store (acceptInvitation agent id config w).2 =
    match store w !! id with
    | Some r =>
        match v2OutOfBandInvitation r, outOfBandInvitation r with
        | None, Some _ => <[record_id r := set_state r PrepareResponse]> (store w)
        | _, _ => store w
        end
    | None => store w
    end ∧
  (∀ k, (∀ r, store w !! id = Some r → k ≠ record_id r) →
        store (acceptInvitation agent id config w).2 !! k = store w !! k).
Proof.
  assert (Hcases := acceptInvitation_cases agent config w id).
  assert (Hst : uuids (acceptInvitation agent id config w).2 = uuids w ∧
    store (acceptInvitation agent id config w).2 =
    match store w !! id with
    | Some r =>
        match v2OutOfBandInvitation r, outOfBandInvitation r with
        | None, Some _ => <[record_id r := set_state r PrepareResponse]> (store w)
        | _, _ => store w
        end
    | None => store w
    end).
  { destruct (store w !! id) as [r|]; [|by rewrite Hcases].
    destruct (v2OutOfBandInvitation r) as [v2|]; [by rewrite Hcases|].
    destruct (outOfBandInvitation r) as [i|]; [|by rewrite Hcases].
    rewrite Hcases. set (w1 := {| store := _; log := _; uuids := _ |}).
    destruct (logsOnly_decisionTree agent config (set_state r PrepareResponse) i
                (existingConnectionOf agent i) (routingFor config r) w1)
      as (es & -> & _).
    done. }
  destruct Hst as [Hu Hs]. split_and!; [done|done|].
  intros k Hk. rewrite Hs.
  destruct (store w !! id) as [r|]; [|done].
  destruct (v2OutOfBandInvitation r); [done|].
  destruct (outOfBandInvitation r); [|done].
  apply lookup_insert_ne. specialize (Hk r eq_refl). congruence.
Qed.

(** X14. For a stored record with a v1 invitation, acceptInvitation sends a
    message of its own, the reuse signal, in one situation only: the
    invitation lists handshake protocols, an existing relationship was found,
    reuseConnection is true and the invitation carries no request list. Then
    exactly one signal is sent, on the existing relationship; in every other
    case, in particular whenever a request list is present (even an empty
    one), nothing is sent. *)
Theorem acceptInvitation_reuse_signal_iff agent config w (id : string) r i :
  store w !! id = Some r →
  v2OutOfBandInvitation r = None →
  outOfBandInvitation r = Some i →
  (reuseAttempted agent config i →
   ∃ c, truthy_nullable (existingConnectionOf agent i) = Some c ∧
        List.filter isSendMessage (emitted (acceptInvitation agent id config) w) =
          [SendMessage (createHandShakeReuse agent (set_state r PrepareResponse) c) c]) ∧
  (¬ reuseAttempted agent config i →
   List.filter isSendMessage (emitted (acceptInvitation agent id config) w) = []).
Proof.
  intros Hr Hv2 Hi.
  assert (Hcases := acceptInvitation_cases agent config w id).
  rewrite Hr, Hv2, Hi in Hcases.
  set (w1 := {| store := _; log := _; uuids := _ |}) in Hcases.
  assert (Hprep : List.filter isSendMessage (prepareEffects agent r i) = []).
  { unfold prepareEffects. by destruct (invitationDids agent i). }
  split.
  - intros ([hs Hh] & [c Hc] & Hre & Hm). exists c. split; [done|].
    destruct (decisionTree_reuse agent config (set_state r PrepareResponse) i hs c
                (routingFor config r) w1 Hh Hm Hc Hre) as (b & _ & Htree).
    rewrite Htree in Hcases.
    assert (∃ tail, log (acceptInvitation agent id config w).2 =
                      log w ++ prepareEffects agent r i ++
                      [CreateHandShakeReuse (set_state r PrepareResponse) c;
                       SendMessage
                         (createHandShakeReuse agent (set_state r PrepareResponse) c) c] ++
                      tail ∧
                    List.filter isSendMessage tail = []) as (tail & Hlog & Htail).
    { rewrite Hcases. destruct b; [exists []; simpl; by rewrite <- app_assoc|].
      destruct (getFirstSupportedProtocol agent hs) as [e|p].
      - exists []. simpl. by rewrite <- app_assoc.
      - eexists [_]. simpl. rewrite <- app_assoc. split; reflexivity. }
    rewrite (emitted_of_log _ _ _ Hlog), !List.filter_app, Hprep, Htail. reflexivity.
  - intros Hno.
    destruct (decisionTree_sends_nothing agent config (set_state r PrepareResponse) i
                (routingFor config r) Hno w1) as (es & Hes & Hall).
    assert (log (acceptInvitation agent id config w).2 =
            log w ++ prepareEffects agent r i ++ es) as Hlog.
    { rewrite Hcases, Hes. simpl. by rewrite <- app_assoc. }
    rewrite (emitted_of_log _ _ _ Hlog), List.filter_app, Hprep. simpl.
    clear -Hall. induction Hall as [|e es He _ IH]; [done|]. simpl. by rewrite He.
Qed.

End AcceptanceMore.

(* A known inviter asking for a handshake: with reuse asked for, one signal
   goes out on the existing relationship; with the default options none. *)
Lemma acceptInvitation_reuse_signal_iff_witness :
  (∃ c, OutOfBand.truthy_nullable
          (Spec.existingConnectionOf Demo.demoAgent Demo.knownInviterHandshake) = Some c ∧
        List.filter Spec.isSendMessage
          (Spec.emitted
             (OutOfBand.acceptInvitation Demo.demoAgent "oob-6" Demo.acceptWithReuse)
             (Demo.worldWith (Demo.receivedRecord "oob-6" Demo.knownInviterHandshake))) =
          [OutOfBand.SendMessage
             (OutOfBand.createHandShakeReuse Demo.demoAgent
                (OutOfBand.set_state (Demo.receivedRecord "oob-6" Demo.knownInviterHandshake)
                   OutOfBand.PrepareResponse) c) c]) ∧
  List.filter Spec.isSendMessage
    (Spec.emitted
       (OutOfBand.acceptInvitation Demo.demoAgent "oob-6" Demo.acceptDefaults)
       (Demo.worldWith (Demo.receivedRecord "oob-6" Demo.knownInviterHandshake))) = [].
Proof.
  split.
  - apply (proj1 (acceptInvitation_reuse_signal_iff Demo.demoAgent Demo.acceptWithReuse
                    (Demo.worldWith (Demo.receivedRecord "oob-6" Demo.knownInviterHandshake))
                    "oob-6" (Demo.receivedRecord "oob-6" Demo.knownInviterHandshake)
                    Demo.knownInviterHandshake eq_refl eq_refl eq_refl)).
    split_and!; [by eexists|by eexists|reflexivity|reflexivity].
  - apply (proj2 (acceptInvitation_reuse_signal_iff Demo.demoAgent Demo.acceptDefaults
                    (Demo.worldWith (Demo.receivedRecord "oob-6" Demo.knownInviterHandshake))
                    "oob-6" (Demo.receivedRecord "oob-6" Demo.knownInviterHandshake)
                    Demo.knownInviterHandshake eq_refl eq_refl eq_refl)).
    intros (_ & _ & Hre & _). discriminate Hre.
Defined.

Section Transition.
Import OutOfBand Spec.
Implicit Types (agent : Agent) (w : World) (r : OutOfBandRecord)
  (i : OutOfBandInvitation) (config : AcceptInvitationConfig).

Lemma logsOnly_handleHandshakeReuse_calls agent (P : Effect → Prop) r c :
  P (CreateHandShakeReuse r c) →
  P (SendMessage (createHandShakeReuse agent r c) c) →
  logsOnly P (handleHandshakeReuse agent r c).
Proof.
  intros Hcreate Hsend.
  destruct (handleHandshakeReuse_run agent r c) as (b & Hrun & _).
  intros w. rewrite Hrun. eexists. split; [reflexivity|]. by repeat constructor.
Qed.

(* The decision tree makes decision calls only. *)
Lemma decisionTree_logs_decisions agent config r i existing routing :
  logsOnly (λ e, isDecisionCall e = true)
    (decisionTree agent config r i existing routing).
Proof.
  unfold decisionTree.
  destruct (handshakeProtocols i) as [hs|].
  - apply logsOnly_bind.
    { destruct (truthy_nullable existing) as [c|]; [|apply logsOnly_ret].
      destruct (accept_reuseConnection config) as [[|]|]; try apply logsOnly_ret.
      destruct (getRequests i); [apply logsOnly_ret|].
      apply logsOnly_bind; [by apply logsOnly_handleHandshakeReuse_calls|].
      intros [|]; apply logsOnly_ret. }
    intros reused. apply logsOnly_bind.
    { destruct reused; [apply logsOnly_ret|].
      apply logsOnly_bind; [apply logsOnly_lift|]. intros p.
      apply logsOnly_bind; [by apply logsOnly_perform|]. intros _. apply logsOnly_ret. }
    intros c. apply logsOnly_bind; [|intros _; apply logsOnly_ret].
    destruct (getRequests i); [|apply logsOnly_ret].
    destruct (isReady c); [by apply logsOnly_emitWithConnection|by apply logsOnly_perform].
  - apply logsOnly_bind; [|intros _; apply logsOnly_ret].
    destruct (getRequests i); [|apply logsOnly_ret].
    destruct (truthy_nullable existing);
      [by apply logsOnly_emitWithConnection|by apply logsOnly_emitWithServices].
Qed.

(** C1 (amended). For every invocation of acceptInvitation on a stored record
    that holds a v1 invitation, the calls it makes are exactly these, in this
    order: the lookup of an existing relationship (one query, for the first
    invitation-derived identifier, none when there is no identifier), then
    the transition of the record to PrepareResponse (persisted, with its
    state-changed event carrying the previous state), then whatever the
    decision tree does, which are decision calls only (reuse, handshake, wait
    for readiness, dispatch). So the transition comes after the lookup and
    before anything the decision tree does, once, whatever branch is taken
    and however it ends, and the stored record is in PrepareResponse
    afterwards. For a record that holds a v2 invitation, acceptInvitation
    delegates to the v2 service and makes no state transition itself. *)
Theorem acceptInvitation_prepares_v1_response agent config w (id : string) r :
  store w !! id = Some r →
  record_id r = id →
  (∀ i, v2OutOfBandInvitation r = None →
        outOfBandInvitation r = Some i →
        ∃ branch,
          emitted (acceptInvitation agent id config) w =
            match invitationDids agent i with
            | [] => []
            | d :: _ => [FindByInvitationDid d]
            end ++
            [RepositoryUpdate (set_state r PrepareResponse);
             StateChangedEvent (set_state r PrepareResponse) (Some (state r))] ++
            branch ∧
          Forall (λ e, isDecisionCall e = true) branch ∧
          store (acceptInvitation agent id config w).2 !! id =
            Some (set_state r PrepareResponse) ∧
          state (set_state r PrepareResponse) = PrepareResponse) ∧
  (∀ v2, v2OutOfBandInvitation r = Some v2 →
         acceptInvitation agent id config w =
           (Returned (r, v2_acceptInvitation agent v2), logged w [V2AcceptInvitation v2]) ∧
         store (acceptInvitation agent id config w).2 = store w).
Proof.
  intros Hr Hid. split.
  - intros i Hv2 Hi.
    assert (Hrun := acceptInvitation_v1 agent config w id r i Hr Hid Hv2 Hi).
    set (w1 := {| store := _; log := _; uuids := _ |}) in Hrun.
    destruct (decisionTree_logs_decisions agent config (set_state r PrepareResponse) i
                (existingConnectionOf agent i) (routingFor config r) w1)
      as (branch & Hbranch & Hall).
    rewrite <- Hrun in Hbranch.
    exists branch. split_and!; [|done| |done].
    + apply emitted_of_log. rewrite Hbranch. subst w1. simpl.
      unfold prepareEffects. by rewrite <- !app_assoc.
    + rewrite Hbranch. subst w1. simpl. apply lookup_insert_eq.
  - intros v2 Hv2. rewrite (acceptInvitation_v2 agent config w id r v2 Hr Hv2).
    done.
Qed.

End Transition.

(* A received v1 record whose invitation asks for a handshake: the lookup
   for the inline service's identifier, the transition, then the handshake. *)
Lemma acceptInvitation_prepares_v1_response_witness :
  ∃ branch,
    Spec.emitted
      (OutOfBand.acceptInvitation Demo.demoAgent "oob-1" Demo.acceptDefaults)
      (Demo.worldWith (Demo.receivedRecord "oob-1" Demo.handshakeInvitation)) =
      [OutOfBand.FindByInvitationDid "did:peer:2#inline-0"] ++
      [OutOfBand.RepositoryUpdate
         (OutOfBand.set_state (Demo.receivedRecord "oob-1" Demo.handshakeInvitation)
            OutOfBand.PrepareResponse);
       OutOfBand.StateChangedEvent
         (OutOfBand.set_state (Demo.receivedRecord "oob-1" Demo.handshakeInvitation)
            OutOfBand.PrepareResponse)
         (Some OutOfBand.Initial)] ++
      branch ∧
    Forall (λ e, Spec.isDecisionCall e = true) branch ∧
    OutOfBand.store
      (OutOfBand.acceptInvitation Demo.demoAgent "oob-1" Demo.acceptDefaults
         (Demo.worldWith (Demo.receivedRecord "oob-1" Demo.handshakeInvitation))).2
      !! "oob-1" =
      Some (OutOfBand.set_state (Demo.receivedRecord "oob-1" Demo.handshakeInvitation)
              OutOfBand.PrepareResponse) ∧
    OutOfBand.state
      (OutOfBand.set_state (Demo.receivedRecord "oob-1" Demo.handshakeInvitation)
         OutOfBand.PrepareResponse) = OutOfBand.PrepareResponse.
Proof.
  apply (proj1 (acceptInvitation_prepares_v1_response Demo.demoAgent Demo.acceptDefaults
                  (Demo.worldWith (Demo.receivedRecord "oob-1" Demo.handshakeInvitation))
                  "oob-1" (Demo.receivedRecord "oob-1" Demo.handshakeInvitation)
                  eq_refl eq_refl)
           Demo.handshakeInvitation eq_refl eq_refl).
Defined.

Section ConnectionlessMore.
Import OutOfBand Spec.
Implicit Types (agent : Agent) (w : World) (r : OutOfBandRecord)
  (i : OutOfBandInvitation) (config : AcceptInvitationConfig).

(** X15. Without handshake protocols, requests attached to an invitation of
    a known inviter are dispatched on the existing relationship at once:
    acceptInvitation does not test whether that relationship is ready and
    registers no wait, so the first supported message is delivered on it
    also when it is not ready. No relationship is returned to the caller, and
    when no message is supported the no-acceptable-message error is raised
    after the transition. *)
Theorem acceptInvitation_connectionless_known_inviter agent config w (id : string) r i
    (ms : list PlaintextMessage) (c : ConnectionRecord) :
  store w !! id = Some r →
  v2OutOfBandInvitation r = None →
  outOfBandInvitation r = Some i →
  handshakeProtocols i = None →
  requests i = Some ms →
  truthy_nullable (existingConnectionOf agent i) = Some c →
  List.filter isReturnWhenIsConnected (emitted (acceptInvitation agent id config) w) = [] ∧
  (∀ m, first_satisfying (canProcess agent) ms m →
        (acceptInvitation agent id config w).1 =
          Returned (set_state r PrepareResponse, None) ∧
        emitted (acceptInvitation agent id config) w =
          prepareEffects agent r i ++ [AgentMessageReceived m (Some c)]) ∧
  (none_satisfying (canProcess agent) ms →
        (acceptInvitation agent id config w).1 =
          Thrown (AriesFrameworkError NoSupportedRequestMessage) ∧
        emitted (acceptInvitation agent id config) w = prepareEffects agent r i).
Proof.
  intros Hr Hv2 Hi Hh Hm He.
  assert (Hrun := acceptInvitation_cases agent config w id).
  rewrite Hr, Hv2, Hi in Hrun.
  unfold decisionTree, getRequests in Hrun. rewrite Hh, Hm, He in Hrun.
  unfold emitWithConnection, bind, perform, throwAries, throw, ret in Hrun.
  destruct (Js.find (canProcess agent) ms) as [m0|] eqn:Hfind; simpl in Hrun.
  - assert (emitted (acceptInvitation agent id config) w =
            prepareEffects agent r i ++ [AgentMessageReceived m0 (Some c)]) as Hemit.
    { apply emitted_of_log. rewrite Hrun. simpl. by rewrite <- app_assoc. }
    split_and!.
    + rewrite Hemit, List.filter_app, prepareEffects_no_wait. done.
    + intros m Hfirst%find_first_satisfying. rewrite Hfind in Hfirst.
      injection Hfirst as <-. split; [by rewrite Hrun|done].
    + intros Hnone%find_none_satisfying. congruence.
  - assert (emitted (acceptInvitation agent id config) w = prepareEffects agent r i)
      as Hemit.
    { apply emitted_of_log. by rewrite Hrun. }
    split_and!.
    + rewrite Hemit. apply prepareEffects_no_wait.
    + intros m Hfirst%find_first_satisfying. congruence.
    + intros _. split; [by rewrite Hrun|done].
Qed.

End ConnectionlessMore.

(* The inviter is known through a relationship that is not ready: the offer
   is dispatched on it all the same. *)
Lemma acceptInvitation_connectionless_known_inviter_witness :
  OutOfBand.isReady Demo.pendingConnection = false ∧
  (OutOfBand.acceptInvitation Demo.pendingAgent "oob-9" Demo.acceptDefaults
     (Demo.worldWith (Demo.receivedRecord "oob-9" Demo.pendingInviterInvitation))).1 =
    OutOfBand.Returned
      (OutOfBand.set_state (Demo.receivedRecord "oob-9" Demo.pendingInviterInvitation)
         OutOfBand.PrepareResponse, None) ∧
  Spec.emitted
    (OutOfBand.acceptInvitation Demo.pendingAgent "oob-9" Demo.acceptDefaults)
    (Demo.worldWith (Demo.receivedRecord "oob-9" Demo.pendingInviterInvitation)) =
    Spec.prepareEffects Demo.pendingAgent
      (Demo.receivedRecord "oob-9" Demo.pendingInviterInvitation)
      Demo.pendingInviterInvitation ++
    [OutOfBand.AgentMessageReceived Demo.offer (Some Demo.pendingConnection)].
Proof.
  split; [reflexivity|].
  apply (proj1 (proj2 (acceptInvitation_connectionless_known_inviter Demo.pendingAgent
                         Demo.acceptDefaults
                         (Demo.worldWith
                            (Demo.receivedRecord "oob-9" Demo.pendingInviterInvitation))
                         "oob-9" (Demo.receivedRecord "oob-9" Demo.pendingInviterInvitation)
                         Demo.pendingInviterInvitation [Demo.ping; Demo.offer]
                         Demo.pendingConnection
                         eq_refl eq_refl eq_refl eq_refl eq_refl eq_refl))).
  exists [Demo.ping], []. split_and!; [reflexivity|reflexivity|by repeat constructor].
Defined.

(* ===================================================================== *)
(* Further properties of reception                                       *)
(* ===================================================================== *)
Section ReceptionMore.
Import OutOfBand Spec.
Implicit Types (agent : Agent) (w : World) (r : OutOfBandRecord)
  (i : OutOfBandInvitation).

(* Acceptance of the record reception has just stored. *)
Lemma acceptInvitation_after_save agent i (config : BaseReceiveOutOfBandInvitationConfig)
    aconfig w (es : list Effect) :
  let rec := receivedRecordOf agent i config w in
  let w0 := {| store := <[record_id rec := rec]> (store w);
               log := log w ++ es; uuids := S (uuids w) |} in
  ∃ tail,
    (acceptInvitation agent (record_id rec) aconfig w0).2 =
      {| store := <[record_id rec := set_state rec PrepareResponse]> (store w0);
         log := log w0 ++ prepareEffects agent rec i ++ tail;
         uuids := S (uuids w) |} ∧
    match (acceptInvitation agent (record_id rec) aconfig w0).1 with
    | Returned res => res.1 = set_state rec PrepareResponse
    | Thrown e => acceptanceError e
    | NeverSettles => False
    end.
Proof.
  intros rec w0.
  destruct (receivedRecordOf_shape agent i config w) as (Hrole & Hinv & Hv2).
  fold rec in Hrole, Hinv, Hv2.
  assert (Hcases := acceptInvitation_cases agent aconfig w0 (record_id rec)).
  assert (store w0 !! record_id rec = Some rec) as Hr by apply lookup_insert_eq.
  rewrite Hr, Hv2, Hinv in Hcases.
  set (w1 := {| store := _; log := _; uuids := _ |}) in Hcases.
  assert (Hout := decisionTree_outcome agent aconfig (set_state rec PrepareResponse) i
                    (existingConnectionOf agent i) (routingFor aconfig rec) w1).
  destruct (logsOnly_decisionTree agent aconfig (set_state rec PrepareResponse) i
              (existingConnectionOf agent i) (routingFor aconfig rec) w1)
    as (tail & Htail & _).
  rewrite Hcases. exists tail. split.
  - rewrite Htail. subst w1. unfold logged. simpl. by rewrite <- !app_assoc.
  - destruct (decisionTree _ _ _ _ _ _ w1) as [[res|e|] w2]; simpl in *; [|done..].
    apply Hout.
Qed.

(** X16. A failed reception of a v1 invitation is not rolled back. It fails
    in two ways only: before anything is persisted or looked up, with the
    handshake-or-requests error or the already-received error, leaving
    repository and log as they were; or inside the automatic acceptance,
    with an unsupported-protocol, no-services or no-acceptable-message
    error, and then the received record stays persisted, in PrepareResponse,
    so that every later reception of the same invitation fails with the
    already-received error. The unable-to-receive error is never raised. *)
Theorem receiveInvitation_failure_not_rolled_back agent invitation i
    (config : ReceiveOutOfBandInvitationConfig) w e w1 :
  normalized agent invitation = inr i →
  receiveInvitation agent invitation config w = (Thrown e, w1) →
  (receptionError i e ∧ w1 = w) ∨
  (acceptanceError e ∧
   Js.nullish (r_autoAcceptInvitation config) true = true ∧
   store w1 !! record_id (receivedRecordOf agent i (asBase config) w) =
     Some (set_state (receivedRecordOf agent i (asBase config) w) PrepareResponse) ∧
   ∀ config',
     receiveInvitation agent invitation config' w1 =
       (Thrown (AriesFrameworkError (InvitationAlreadyReceived (invitation_id i))), w1)).
Proof.
  intros Hn. unfold receiveInvitation at 1. fold (asBase config).
  rewrite (_receiveInvitation_v1_run agent invitation i (asBase config) w Hn).
  unfold receptionError.
  destruct (absentOrEmpty (handshakeProtocols i) && absentOrEmpty (getRequests i))
    eqn:Hvalid.
  { intros [= <- <-]. left. auto. }
  destruct (negb _ && _).
  { intros [= <- <-]. left. auto. }
  change (autoAcceptInvitation (asBase config)) with (r_autoAcceptInvitation config).
  destruct (Js.nullish (r_autoAcceptInvitation config) true); [|discriminate].
  destruct (acceptInvitation_after_save agent i (asBase config)
              (acceptAfterReceive agent (asBase config)) w
              (resolutionsOf (getServices i) ++
               [RepositorySave (receivedRecordOf agent i (asBase config) w);
                StateChangedEvent (receivedRecordOf agent i (asBase config) w) None]))
    as (tail & Hw & Hout).
  cbv zeta in Hw, Hout. intros Hrun. rewrite Hrun in Hw, Hout. simpl in Hw, Hout.
  right. split_and!; [done|done|rewrite Hw; apply lookup_insert_eq|].
  intros config'.
  assert (alreadyReceived w1 (invitation_id i)) as Hdup.
  { destruct (receivedRecordOf_shape agent i (asBase config) w) as (Hrole & Hinv & _).
    eexists _, _. split; [rewrite Hw; apply lookup_insert_eq|]. split; [done|].
    unfold record_invitationId. simpl. by rewrite Hinv. }
  rewrite (receiveInvitation_duplicate agent invitation i config' w1 Hn Hdup).
  by rewrite Hvalid.
Qed.

Lemma receivedV2RecordOf_run agent invitation v2 config w :
  normalized agent invitation = inl v2 →
  _receiveInvitation agent invitation config w =
  (if Js.nullish (autoAcceptInvitation config) true
   then (Returned (receivedV2RecordOf agent v2 config w, v2_acceptInvitation agent v2),
         {| store := <[record_id (receivedV2RecordOf agent v2 config w) :=
                         receivedV2RecordOf agent v2 config w]> (store w);
            log := log w ++ [RepositorySave (receivedV2RecordOf agent v2 config w);
                             StateChangedEvent (receivedV2RecordOf agent v2 config w) None;
                             V2AcceptInvitation v2];
            uuids := S (uuids w) |})
   else (Returned (receivedV2RecordOf agent v2 config w, None),
         {| store := <[record_id (receivedV2RecordOf agent v2 config w) :=
                         receivedV2RecordOf agent v2 config w]> (store w);
            log := log w ++ [RepositorySave (receivedV2RecordOf agent v2 config w);
                             StateChangedEvent (receivedV2RecordOf agent v2 config w) None];
            uuids := S (uuids w) |})).
Proof.
  intros Hn. unfold _receiveInvitation. rewrite Hn.
  destruct (Js.nullish (autoAcceptInvitation config) true) eqn:Hauto;
    unfold bind, save, emitStateChangedEvent, writeStore, perform, ret, freshUuid;
    simpl; rewrite ?Hauto; simpl.
  - erewrite acceptInvitation_v2; [|apply lookup_insert_eq|reflexivity].
    unfold logged, receivedV2RecordOf; simpl. by rewrite <- !app_assoc.
  - unfold receivedV2RecordOf. by rewrite <- !app_assoc.
Qed.

(** X17. Reception of a v2 invitation checks nothing: it never fails, runs
    no duplicate query and resolves no service, so the same invitation can be
    received any number of times. It persists a Receiver record in state
    Initial that holds only the v2 invitation, without mediator, tags or
    stored routing even when a routing is given, announces it and, unless
    the caller declined, hands the invitation to the v2 service; the record
    it returns is still in state Initial, no transition is made. *)
Theorem receiveInvitation_v2_unchecked agent (v2 : V2OutOfBandInvitation)
    (config : ReceiveOutOfBandInvitationConfig) w :
  ∃ rec w1,
    receiveInvitation agent (IsV2OutOfBandInvitation v2) config w =
      (Returned (rec, if Js.nullish (r_autoAcceptInvitation config) true
                      then v2_acceptInvitation agent v2 else None), w1) ∧
    store w1 = <[record_id rec := rec]> (store w) ∧
    emitted (receiveInvitation agent (IsV2OutOfBandInvitation v2) config) w =
      [RepositorySave rec; StateChangedEvent rec None] ++
      (if Js.nullish (r_autoAcceptInvitation config) true
       then [V2AcceptInvitation v2] else []) ∧
    role rec = Receiver ∧ state rec = Initial ∧
    v2OutOfBandInvitation rec = Some v2 ∧ outOfBandInvitation rec = None ∧
    mediatorId rec = None ∧ recipientRouting rec = None ∧
    recipientKeyFingerprints rec = [] ∧
    ∃ rec' w2,
      receiveInvitation agent (IsV2OutOfBandInvitation v2) config w1 =
        (Returned (rec', if Js.nullish (r_autoAcceptInvitation config) true
                         then v2_acceptInvitation agent v2 else None), w2).
Proof.
  assert (Hrun : ∀ w0, receiveInvitation agent (IsV2OutOfBandInvitation v2) config w0 =
                       _ ) by
    (intros w0; exact (receivedV2RecordOf_run agent (IsV2OutOfBandInvitation v2) v2
                         (asBase config) w0 eq_refl)).
  change (autoAcceptInvitation (asBase config)) with (r_autoAcceptInvitation config) in Hrun.
  exists (receivedV2RecordOf agent v2 (asBase config) w).
  destruct (Js.nullish (r_autoAcceptInvitation config) true) eqn:Hauto.
  - eexists. split; [apply Hrun|]. split; [done|].
    split; [apply emitted_of_log; by rewrite Hrun|].
    split_and!; try reflexivity. eexists _, _. apply Hrun.
  - eexists. split; [apply Hrun|]. split; [done|].
    split; [apply emitted_of_log; by rewrite Hrun|].
    split_and!; try reflexivity. eexists _, _. apply Hrun.
Qed.

(* Without reuse, the decision tree of an invitation that lists handshake
   protocols starts one handshake, with the first supported protocol. *)
Lemma decisionTree_starts_handshake agent (config : AcceptInvitationConfig) r i hs p
    existing routing w :
  handshakeProtocols i = Some hs →
  accept_reuseConnection config ≠ Some true →
  getFirstSupportedProtocol agent hs = inr p →
  ∃ tail,
    (decisionTree agent config r i existing routing w).2 =
      logged w (AcceptOutOfBandInvitation r (handshakeConfigFor config p routing) :: tail) ∧
    List.filter isAcceptOutOfBandInvitation tail = [].
Proof.
  intros Hh Hre Hp. unfold decisionTree. rewrite Hh.
  assert (∀ (m : ConnectionRecord → M (option ConnectionRecord))
            (k : option ConnectionRecord → M AcceptResult),
    bind (match truthy_nullable existing, accept_reuseConnection config with
          | Some c, Some true => m c
          | _, _ => ret None
          end) k w = k None w) as Hnoreuse.
  { intros m k. destruct (truthy_nullable existing); [|done].
    by destruct (accept_reuseConnection config) as [[|]|]. }
  rewrite (Hnoreuse (λ c, match getRequests i with
                          | Some _ => ret (Some c)
                          | None =>
                              isHandshakeReuseSuccessful <- handleHandshakeReuse agent r c ;;
                              if isHandshakeReuseSuccessful : bool
                              then ret (Some c) else ret None
                          end)).
  rewrite Hp. fold (handshakeConfigFor config p routing).
  unfold bind, ret, lift, emitWithConnection, perform, throwAries, throw; simpl.
  destruct (getRequests i) as [ms|]; simpl.
  - destruct (isReady _); simpl.
    + destruct (Js.find _ ms); simpl; [eexists [_]|exists []]; (split; [same_world|done]).
    + eexists [_]. split; [same_world|done].
  - exists []. split; [same_world|done].
Qed.

Lemma routing_round_trip (routing : Routing) :
  routingOfRecipientRouting
    {| recipientKeyFingerprint := fingerprint (recipientKey routing);
       routingKeyFingerprints := map fingerprint (routingKeys routing);
       rr_endpoints := endpoints routing;
       rr_mediatorId := routing_mediatorId routing |} = routing.
Proof.
  destruct routing as [eps [k] rks m]. unfold routingOfRecipientRouting; simpl.
  f_equal. induction rks as [|[f] rks IH]; simpl; [done|]. by rewrite IH.
Qed.

(** X18. The routing given to a reception that does not accept at once
    comes back at acceptance. When receiveInvitation is called with a
    routing and autoAcceptInvitation false, the record it returns stores the
    routing (keys as fingerprints) and takes the routing's mediator; a later
    acceptInvitation without a routing of its own rebuilds exactly that
    routing from the record, and a handshake it starts is handed this
    routing, while a routing given to acceptInvitation takes precedence.
    With automatic acceptance of an invitation that lists handshake
    protocols nothing is stored in the record. *)
Theorem receiveInvitation_routing_round_trip agent invitation i
    (config : ReceiveOutOfBandInvitationConfig) (routing : Routing) w :
  normalized agent invitation = inr i →
  absentOrEmpty (handshakeProtocols i) && absentOrEmpty (getRequests i) = false →
  ¬ alreadyReceived w (invitation_id i) →
  r_routing config = Some routing →
  (r_autoAcceptInvitation config = Some false →
   ∃ rec w1,
     receiveInvitation agent invitation config w = (Returned (rec, None), w1) ∧
     store w1 !! record_id rec = Some rec ∧
     mediatorId rec = routing_mediatorId routing ∧
     (∀ aconfig, accept_routing aconfig = None → routingFor aconfig rec = Some routing) ∧
     (∀ aconfig other, accept_routing aconfig = Some other →
                       routingFor aconfig rec = Some other) ∧
     (∀ aconfig hs p,
        accept_routing aconfig = None →
        accept_reuseConnection aconfig ≠ Some true →
        handshakeProtocols i = Some hs →
        getFirstSupportedProtocol agent hs = inr p →
        List.filter isAcceptOutOfBandInvitation
          (emitted (acceptInvitation agent (record_id rec) aconfig) w1) =
          [AcceptOutOfBandInvitation (set_state rec PrepareResponse)
             (handshakeConfigFor aconfig p (Some routing))])) ∧
  (Js.nullish (r_autoAcceptInvitation config) true = true →
   absentOrEmpty (handshakeProtocols i) = false →
   recipientRouting (receivedRecordOf agent i (asBase config) w) = None).
Proof.
  intros Hn Hvalid Hfresh Hrouting. split.
  - intros Hauto.
    assert (Hrun := _receiveInvitation_v1_run agent invitation i (asBase config) w Hn).
    rewrite Hvalid in Hrun.
    assert ((0 <? length (receivedFor w (invitation_id i)))%nat = false) as Hnone.
    { destruct (0 <? _)%nat eqn:Hlen; [|done].
      by apply receivedFor_nonempty in Hlen. }
    rewrite Hnone, andb_false_r in Hrun.
    change (autoAcceptInvitation (asBase config)) with (r_autoAcceptInvitation config) in Hrun.
    rewrite Hauto in Hrun. simpl in Hrun.
    set (rec := receivedRecordOf agent i (asBase config) w) in *.
    assert (recipientRouting rec =
            Some {| recipientKeyFingerprint := fingerprint (recipientKey routing);
                    routingKeyFingerprints := map fingerprint (routingKeys routing);
                    rr_endpoints := endpoints routing;
                    rr_mediatorId := routing_mediatorId routing |} ∧
            mediatorId rec = routing_mediatorId routing) as [Hmeta Hmed].
    { subst rec. unfold receivedRecordOf. simpl. rewrite Hrouting, Hauto. simpl.
      by rewrite orb_true_r. }
    destruct (receivedRecordOf_shape agent i (asBase config) w) as (Hrole & Hinv & Hv2).
    fold rec in Hrole, Hinv, Hv2.
    eexists rec, _. split; [exact Hrun|].
    split; [apply lookup_insert_eq|]. split; [done|].
    assert (Hfor : ∀ aconfig, accept_routing aconfig = None →
                              routingFor aconfig rec = Some routing).
    { intros aconfig Ha. unfold routingFor. rewrite Ha, Hmeta. simpl.
      by rewrite routing_round_trip. }
    split_and!; [done| |].
    + intros aconfig other Ha. unfold routingFor. by rewrite Ha.
    + intros aconfig hs p Ha Hre Hh Hp.
      set (w1 := {| store := _; log := _; uuids := _ |}).
      assert (Hcases := acceptInvitation_cases agent aconfig w1 (record_id rec)).
      assert (store w1 !! record_id rec = Some rec) as Hr by apply lookup_insert_eq.
      rewrite Hr, Hv2, Hinv in Hcases.
      rewrite (Hfor aconfig Ha) in Hcases.
      destruct (decisionTree_starts_handshake agent aconfig (set_state rec PrepareResponse)
                  i hs p (existingConnectionOf agent i) (Some routing)
                  {| store := <[record_id rec := set_state rec PrepareResponse]> (store w1);
                     log := log w1 ++ prepareEffects agent rec i;
                     uuids := uuids w1 |} Hh Hre Hp) as (tail & Htree & Htail).
      rewrite <- Hcases in Htree.
      erewrite emitted_of_log; [|rewrite Htree; simpl; by rewrite <- app_assoc].
      rewrite List.filter_app, prepareEffects_no_handshake. simpl. by rewrite Htail.
  - intros Hauto Hh. unfold receivedRecordOf. simpl. rewrite Hrouting.
    change (autoAcceptInvitation (asBase config)) with (r_autoAcceptInvitation config).
    by rewrite Hauto, Hh.
Qed.

End ReceptionMore.

(* A known inviter asks for a protocol the agent does not have: reception
   fails inside the automatic acceptance and leaves the record behind. *)
Lemma receiveInvitation_failure_not_rolled_back_witness :
  Spec.acceptanceError
    (OutOfBand.AriesFrameworkError
       (OutOfBand.HandshakeProtocolsNotSupported ["https://example.org/handshake/1.0"]
          [Demo.didexchange10; Demo.connections10])) ∧
  ∀ config',
    OutOfBand.receiveInvitation Demo.demoAgent
      (OutOfBand.IsOutOfBandInvitation Demo.unknownProtocolInvitation) config'
      (OutOfBand.receiveInvitation Demo.demoAgent
         (OutOfBand.IsOutOfBandInvitation Demo.unknownProtocolInvitation)
         Demo.plainReceive OutOfBand.emptyWorld).2 =
    (OutOfBand.Thrown
       (OutOfBand.AriesFrameworkError (OutOfBand.InvitationAlreadyReceived "inv-8")),
     (OutOfBand.receiveInvitation Demo.demoAgent
        (OutOfBand.IsOutOfBandInvitation Demo.unknownProtocolInvitation)
        Demo.plainReceive OutOfBand.emptyWorld).2).
Proof.
  destruct (receiveInvitation_failure_not_rolled_back Demo.demoAgent
              (OutOfBand.IsOutOfBandInvitation Demo.unknownProtocolInvitation)
              Demo.unknownProtocolInvitation Demo.plainReceive OutOfBand.emptyWorld
              (OutOfBand.AriesFrameworkError
                 (OutOfBand.HandshakeProtocolsNotSupported
                    ["https://example.org/handshake/1.0"]
                    [Demo.didexchange10; Demo.connections10]))
              (OutOfBand.receiveInvitation Demo.demoAgent
                 (OutOfBand.IsOutOfBandInvitation Demo.unknownProtocolInvitation)
                 Demo.plainReceive OutOfBand.emptyWorld).2
              eq_refl eq_refl) as [[[H|H] _]|(He & _ & _ & Hagain)].
  - discriminate H.
  - discriminate H.
  - split; [exact He|exact Hagain].
Defined.

(* An invitation received for later with a routing of two endpoints: the
   record brings the routing back when it is accepted. *)
Lemma receiveInvitation_routing_round_trip_witness :
  ∃ rec w1,
    OutOfBand.receiveInvitation Demo.demoAgent
      (OutOfBand.IsOutOfBandInvitation Demo.handshakeInvitation) Demo.receiveForLater
      OutOfBand.emptyWorld = (OutOfBand.Returned (rec, None), w1) ∧
    OutOfBand.mediatorId rec = Some "mediator-1" ∧
    Spec.routingFor Demo.acceptDefaults rec = Some Demo.twoEndpointRouting.
Proof.
  destruct (receiveInvitation_routing_round_trip Demo.demoAgent
              (OutOfBand.IsOutOfBandInvitation Demo.handshakeInvitation)
              Demo.handshakeInvitation Demo.receiveForLater Demo.twoEndpointRouting
              OutOfBand.emptyWorld eq_refl eq_refl) as [Hlater _].
  - intros (k & r & Hk & _). simpl in Hk. by rewrite lookup_empty in Hk.
  - reflexivity.
  - destruct (Hlater eq_refl) as (rec & w1 & Hrun & _ & Hmed & Hfor & _).
    exists rec, w1. split_and!; [exact Hrun|exact Hmed|by apply Hfor].
Defined.

(* ===================================================================== *)
(* Creation followed by reception or deletion                            *)
(* ===================================================================== *)
Section Lifecycle.
Import OutOfBand Spec.
Implicit Types (agent : Agent) (w : World) (r : OutOfBandRecord)
  (i : OutOfBandInvitation) (c : CreateV11OutOfBandInvitationConfig).

Lemma createInvitation_v1_stores agent c w r w' :
  createInvitation agent (VersionV1 c) w = (Returned r, w') →
  store w' = <[record_id r := r]> (store w) ∧
  uuids w' = S (S (uuids w + length (Js.nullish (nonEmptyOrUndefined (messages c)) []))).
Proof.
  rewrite createInvitation_v1_run.
  destruct (configurationCheck c); [discriminate|].
  destruct (negotiatedProtocols agent c) as [e|hp]; [discriminate|].
  by intros [= <- <-].
Qed.

Lemma acceptanceError_not_duplicate x :
  ¬ acceptanceError (AriesFrameworkError (InvitationAlreadyReceived x)).
Proof. intros [[H|(? & ? & H)]|[H|H]]; discriminate H. Qed.

(** X19. An agent can receive the invitation it created. The record
    createInvitation persists has the Sender role, and the duplicate query
    of reception counts Receiver records only: when no record had been
    received for the invitation's identifier before the creation, none
    counts after it, and receiveInvitation of the created invitation at the
    same agent never fails with the already-received error. *)
Theorem receiveInvitation_of_own_invitation agent c w r w' i :
  createInvitation agent (VersionV1 c) w = (Returned r, w') →
  outOfBandInvitation r = Some i →
  ¬ alreadyReceived w (invitation_id i) →
  store w' !! record_id r = Some r ∧
  role r = Sender ∧
  record_invitationId r = Some (invitation_id i) ∧
  ¬ alreadyReceived w' (invitation_id i) ∧
  ∀ config x w2,
    receiveInvitation agent (IsOutOfBandInvitation i) config w' ≠
      (Thrown (AriesFrameworkError (InvitationAlreadyReceived x)), w2).
Proof.
  intros Hrun Hi Hfresh.
  destruct (createInvitation_v1_stores agent c w r w' Hrun) as [Hst _].
  destruct (createInvitation_v1_returned agent c w r w' Hrun) as (hp & _ & _ & Hr).
  assert (role r = Sender) as Hrole by by rewrite Hr.
  assert (¬ alreadyReceived w' (invitation_id i)) as Hfresh'.
  { intros (k & r0 & Hk & Hrole0 & Hid0). rewrite Hst in Hk.
    destruct (decide (k = record_id r)) as [->|Hne].
    - rewrite lookup_insert_eq in Hk. injection Hk as <-. congruence.
    - rewrite lookup_insert_ne in Hk by done. apply Hfresh. by exists k, r0. }
  split_and!; [rewrite Hst; apply lookup_insert_eq|done| |done|].
  { unfold record_invitationId. by rewrite Hi. }
  intros config x w2. unfold receiveInvitation. fold (asBase config).
  erewrite _receiveInvitation_v1_run; [|reflexivity].
  destruct (absentOrEmpty _ && absentOrEmpty _); [discriminate|].
  assert ((0 <? length (receivedFor w' (invitation_id i)))%nat = false) as ->.
  { destruct (0 <? _)%nat eqn:Hlen; [|done]. by apply receivedFor_nonempty in Hlen. }
  rewrite andb_false_r.
  destruct (Js.nullish (autoAcceptInvitation (asBase config)) true); [|discriminate].
  destruct (acceptInvitation_after_save agent i (asBase config)
              (acceptAfterReceive agent (asBase config)) w'
              (resolutionsOf (getServices i) ++
               [RepositorySave (receivedRecordOf agent i (asBase config) w');
                StateChangedEvent (receivedRecordOf agent i (asBase config) w') None]))
    as (tail & _ & Hout).
  cbv zeta in Hout. intros Hthrown. rewrite Hthrown in Hout. simpl in Hout.
  by apply acceptanceError_not_duplicate in Hout.
Qed.

Lemma fingerprintsOf_inline agent (svcs : list OutOfBandDidCommService) :
  fingerprintsOf agent (map InlineService svcs) =
  map (didKey_fingerprint agent) (concat (map recipientKeys svcs)) ∧
  resolutionsOf (map InlineService svcs) = [].
Proof.
  unfold fingerprintsOf, resolutionsOf. split.
  - induction svcs as [|s svcs IH]; simpl; [done|]. by rewrite IH, map_app.
  - induction svcs as [|s svcs IH]; simpl; done.
Qed.

(* What reception returns carries the tags and the invitation of the record
   it built. *)
Lemma receiveInvitation_returns_built agent invitation i
    (config : ReceiveOutOfBandInvitationConfig) w res w1 :
  normalized agent invitation = inr i →
  receiveInvitation agent invitation config w = (Returned res, w1) →
  recipientKeyFingerprints res.1 = fingerprintsOf agent (getServices i) ∧
  outOfBandInvitation res.1 = Some i ∧
  role res.1 = Receiver.
Proof.
  intros Hn. unfold receiveInvitation. fold (asBase config).
  rewrite (_receiveInvitation_v1_run agent invitation i (asBase config) w Hn).
  destruct (absentOrEmpty _ && absentOrEmpty _); [discriminate|].
  destruct (negb _ && _); [discriminate|].
  destruct (receivedRecordOf_shape agent i (asBase config) w) as (Hrole & Hinv & _).
  assert (recipientKeyFingerprints (receivedRecordOf agent i (asBase config) w) =
          fingerprintsOf agent (getServices i)) as Htags.
  { unfold receivedRecordOf. destruct (receive_routing _); [|done]. by destruct (_ || _). }
  destruct (Js.nullish (autoAcceptInvitation (asBase config)) true).
  - destruct (acceptInvitation_after_save agent i (asBase config)
                (acceptAfterReceive agent (asBase config)) w
                (resolutionsOf (getServices i) ++
                 [RepositorySave (receivedRecordOf agent i (asBase config) w);
                  StateChangedEvent (receivedRecordOf agent i (asBase config) w) None]))
      as (tail & _ & Hout).
    cbv zeta in Hout. intros Hrun. rewrite Hrun in Hout. simpl in Hout.
    rewrite Hout. simpl. done.
  - intros [= <- _]. done.
Qed.

(** X20. Both ends tag their records alike. When an invitation created by
    createInvitation at one agent is received, by receiveInvitation, at an
    agent that reads did:key identifiers the same way, the record the
    receiver gets back carries the invitation and exactly the recipient-key
    fingerprints of the sender's record: one per routing endpoint. All
    services of a created invitation are inline, so the receiver resolves no
    DID for them. *)
Theorem created_invitation_received_with_same_tags (sender receiver : Agent) c w r w' i
    (config : ReceiveOutOfBandInvitationConfig) w0 res w1 :
  createInvitation sender (VersionV1 c) w = (Returned r, w') →
  outOfBandInvitation r = Some i →
  (∀ d, didKey_fingerprint receiver d = didKey_fingerprint sender d) →
  receiveInvitation receiver (IsOutOfBandInvitation i) config w0 = (Returned res, w1) →
  outOfBandInvitation res.1 = Some i ∧
  role res.1 = Receiver ∧ role r = Sender ∧
  recipientKeyFingerprints res.1 = recipientKeyFingerprints r ∧
  length (recipientKeyFingerprints res.1) = length (endpoints (routingOfCreate sender c)) ∧
  resolutionsOf (getServices i) = [].
Proof.
  intros Hcreate Hi Hsame Hreceive.
  destruct (createInvitation_v1_returned sender c w r w' Hcreate) as (hp & _ & _ & Hr).
  destruct (receiveInvitation_returns_built receiver (IsOutOfBandInvitation i) i config
              w0 res w1 eq_refl Hreceive)
    as (Htags & Hinv & Hrole).
  assert (i = createdInvitation sender c hp w) as Hi'.
  { rewrite Hr in Hi. simpl in Hi. congruence. }
  assert (getServices i = map InlineService (createdServices sender (routingOfCreate sender c)))
    as Hsvcs by by rewrite Hi'.
  destruct (fingerprintsOf_inline receiver
              (createdServices sender (routingOfCreate sender c))) as [Hfp Hres].
  split_and!; [done|done|by rewrite Hr| | |by rewrite Hsvcs].
  - rewrite Htags, Hsvcs, Hfp, Hr. simpl. apply map_ext. intros d. apply Hsame.
  - rewrite Htags, Hsvcs, Hfp, createdServices_recipientKeys.
    by rewrite length_map, length_replicate.
Qed.

Lemma fromFingerprint_fingerprint (k : Key) : fromFingerprint (fingerprint k) = k.
Proof. by destruct k. Qed.

(** X21. Deleting a record right after it was created undoes the creation.
    For a record created with a mediated routing, under an identifier the
    repository did not hold, and with no relationship made from it yet,
    deleteById asks for the related relationships, releases at the routing's
    mediator the routing's recipient key, once per endpoint of the routing,
    and deletes the record: the repository is again what it was before the
    creation. The keys are rebuilt from the record's fingerprint tags, which
    requires the did:key of the recipient key to read back as its
    fingerprint. *)
Theorem createInvitation_then_deleteById agent c w r w' (m : string) :
  createInvitation agent (VersionV1 c) w = (Returned r, w') →
  store w !! record_id r = None →
  routing_mediatorId (routingOfCreate agent c) = Some m →
  Js.truthy_string m = true →
  findAllByOutOfBandId agent (record_id r) = [] →
  didKey_fingerprint agent (didKey_did agent (recipientKey (routingOfCreate agent c))) =
    fingerprint (recipientKey (routingOfCreate agent c)) →
  ∃ w2,
    deleteById agent (record_id r) w' = (Returned tt, w2) ∧
    store w2 = store w ∧
    emitted (deleteById agent (record_id r)) w' =
      [FindAllByOutOfBandId (record_id r);
       RemoveRouting
         (replicate (length (endpoints (routingOfCreate agent c)))
            (recipientKey (routingOfCreate agent c))) m;
       RepositoryDelete (record_id r)].
Proof.
  intros Hcreate Hfresh Hmed Hm Hnone Hkey.
  destruct (createInvitation_v1_stores agent c w r w' Hcreate) as [Hst _].
  destruct (createInvitation_v1_returned agent c w r w' Hcreate) as (hp & _ & _ & Hr).
  assert (store w' !! record_id r = Some r) as Hstored.
  { rewrite Hst. apply lookup_insert_eq. }
  assert (Hrun := deleteById_run agent w' (record_id r) r Hstored).
  assert (mediatorId r = Some m) as Hmr by by rewrite Hr.
  assert (map fromFingerprint (recipientKeyFingerprints r) =
          replicate (length (endpoints (routingOfCreate agent c)))
            (recipientKey (routingOfCreate agent c))) as Hkeys.
  { rewrite Hr. simpl. rewrite createdServices_recipientKeys.
    generalize (length (endpoints (routingOfCreate agent c))). intros n.
    induction n as [|n IH]; [done|].
    cbn [replicate map]. by rewrite Hkey, fromFingerprint_fingerprint, IH. }
  rewrite Hmr, Hm, Hnone, Hkeys in Hrun. simpl in Hrun.
  eexists. split; [exact Hrun|]. split.
  - simpl. rewrite Hst. by apply delete_insert_id.
  - apply emitted_of_log. by rewrite Hrun.
Qed.

(** X22. deleteById fails with the record-not-found error, before any call
    and without any change, when the repository holds nothing under the
    identifier. For a stored record it first asks the connections module
    for the related relationships, then releases at most once the keys
    rebuilt from the record's fingerprint tags, at the record's mediator,
    and deletes the record last; it removes exactly that record, draws no
    identifier, and deleting the same identifier again fails. *)
Theorem deleteById_removes_exactly agent w (id : string) :
  (store w !! id = None →
   deleteById agent id w = (Thrown (RecordNotFoundError id), w)) ∧
  (∀ r, store w !! id = Some r →
        ∃ released w',
          deleteById agent id w = (Returned tt, w') ∧
          emitted (deleteById agent id) w =
            [FindAllByOutOfBandId id] ++ released ++ [RepositoryDelete id] ∧
          (released = [] ∨
           ∃ m, mediatorId r = Some m ∧
                released =
                  [RemoveRouting (map fromFingerprint (recipientKeyFingerprints r)) m]) ∧
          store w' = delete id (store w) ∧
          (∀ k, k ≠ id → store w' !! k = store w !! k) ∧
          uuids w' = uuids w ∧
          deleteById agent id w' = (Thrown (RecordNotFoundError id), w')).
Proof.
  assert (Hmissing : ∀ w0, store w0 !! id = None →
            deleteById agent id w0 = (Thrown (RecordNotFoundError id), w0)).
  { intros w0 Hr. unfold deleteById.
    by rewrite (bind_thrown _ _ _ _ _ (getById_missing _ _ Hr)). }
  split; [apply Hmissing|].
  intros r Hr. assert (Hrun := deleteById_run agent w id r Hr).
  eexists _, _. split; [exact Hrun|].
  split; [apply emitted_of_log; by rewrite Hrun|].
  split_and!.
  - destruct (mediatorId r) as [m|]; [|by left].
    destruct (_ && _); [right; eauto|by left].
  - done.
  - intros k Hk. simpl. by apply lookup_delete_ne.
  - done.
  - apply Hmissing. simpl. apply lookup_delete_eq.
Qed.

End Lifecycle.

(* The demo agent creates an invitation and may receive it itself. *)
Lemma receiveInvitation_of_own_invitation_witness :
  OutOfBand.role Demo.createdByDefault = OutOfBand.Sender ∧
  OutOfBand.record_invitationId Demo.createdByDefault = Some "uuid-0" ∧
  ¬ Spec.alreadyReceived Demo.afterCreateDefaults "uuid-0" ∧
  ∀ config x w2,
    OutOfBand.receiveInvitation Demo.demoAgent
      (OutOfBand.IsOutOfBandInvitation
         (Spec.createdInvitation Demo.demoAgent Demo.createDefaults
            (Some [Demo.didexchange10; Demo.connections10]) OutOfBand.emptyWorld))
      config Demo.afterCreateDefaults ≠
    (OutOfBand.Thrown
       (OutOfBand.AriesFrameworkError (OutOfBand.InvitationAlreadyReceived x)), w2).
Proof.
  destruct (receiveInvitation_of_own_invitation Demo.demoAgent Demo.createDefaults
              OutOfBand.emptyWorld Demo.createdByDefault Demo.afterCreateDefaults
              (Spec.createdInvitation Demo.demoAgent Demo.createDefaults
                 (Some [Demo.didexchange10; Demo.connections10]) OutOfBand.emptyWorld)
              eq_refl eq_refl)
    as (_ & Hrole & Hid & Hfresh & Hreceive).
  - intros (k & r & Hk & _). simpl in Hk. by rewrite lookup_empty in Hk.
  - split_and!; [exact Hrole|exact Hid|exact Hfresh|exact Hreceive].
Defined.

(* An invitation created with a routing of two endpoints, received by an
   agent of the same kind. *)
Lemma created_invitation_received_with_same_tags_witness :
  OutOfBand.recipientKeyFingerprints
    (OutOfBand.set_state
       (Spec.receivedRecordOf Demo.demoAgent Demo.invitationWithRouting
          (Spec.asBase Demo.plainReceive) OutOfBand.emptyWorld)
       OutOfBand.PrepareResponse) =
    OutOfBand.recipientKeyFingerprints Demo.createdWithRouting ∧
  OutOfBand.recipientKeyFingerprints Demo.createdWithRouting =
    ["z6MkRecipient"; "z6MkRecipient"].
Proof.
  destruct (created_invitation_received_with_same_tags Demo.demoAgent Demo.demoAgent
              Demo.createWithRouting OutOfBand.emptyWorld Demo.createdWithRouting
              Demo.afterCreateWithRouting Demo.invitationWithRouting Demo.plainReceive
              OutOfBand.emptyWorld
              (OutOfBand.set_state
                 (Spec.receivedRecordOf Demo.demoAgent Demo.invitationWithRouting
                    (Spec.asBase Demo.plainReceive) OutOfBand.emptyWorld)
                 OutOfBand.PrepareResponse,
               Some Demo.newConnection)
              (OutOfBand.receiveInvitation Demo.demoAgent
                 (OutOfBand.IsOutOfBandInvitation Demo.invitationWithRouting)
                 Demo.plainReceive OutOfBand.emptyWorld).2
              eq_refl eq_refl (λ d, eq_refl) eq_refl)
    as (_ & _ & _ & Htags & _).
  split; [exact Htags|reflexivity].
Defined.

(* The record created with the mediated routing of two endpoints, deleted
   at once: the recipient key is released twice and the repository is empty
   again. *)
Lemma createInvitation_then_deleteById_witness :
  ∃ w2,
    OutOfBand.deleteById Demo.demoAgent "uuid-1" Demo.afterCreateWithRouting =
      (OutOfBand.Returned tt, w2) ∧
    OutOfBand.store w2 = ∅ ∧
    Spec.emitted (OutOfBand.deleteById Demo.demoAgent "uuid-1") Demo.afterCreateWithRouting =
      [OutOfBand.FindAllByOutOfBandId "uuid-1";
       OutOfBand.RemoveRouting
         [{| OutOfBand.fingerprint := "z6MkRecipient" |};
          {| OutOfBand.fingerprint := "z6MkRecipient" |}] "mediator-1";
       OutOfBand.RepositoryDelete "uuid-1"].
Proof.
  apply (createInvitation_then_deleteById Demo.demoAgent Demo.createWithRouting
           OutOfBand.emptyWorld Demo.createdWithRouting Demo.afterCreateWithRouting
           "mediator-1" eq_refl eq_refl eq_refl eq_refl eq_refl eq_refl).
Defined.

(* ===================================================================== *)
(* The reuse wait, and acceptance without a selectable protocol          *)
(* ===================================================================== *)
Section ReuseTiming.
Import OutOfBand Spec.

(* The promise built on first(p) by map, timeout and catchError settles no
   later than the timeout, and before it when it settles with true. *)
Lemma settles_by_deadline {A} (p : A → bool) (T : N) (o : Rx.Observable A) (acc : N) :
  ∃ t b,
    Rx.firstValueFrom
      (Rx.catchError (λ _, Rx.of_ false)
         (Rx.timeout T (Rx.map (λ _, true) (Rx.delayed acc (Rx.first p o))))) =
      Rx.Resolved t b ∧
    (t ≤ T)%N ∧ (b = true → (t < T)%N).
Proof.
  revert acc. induction o as [d v rest IH|d|d e|]; intros acc; simpl.
  - destruct (p v) eqn:Hv; simpl.
    + destruct (acc + d <? T)%N eqn:Hlt; simpl; eexists _, _; (split; [reflexivity|]).
      * apply N.ltb_lt in Hlt. split; [lia|done].
      * split; [lia|done].
    + rewrite delayed_delayed. apply IH.
  - destruct (acc + d <? T)%N eqn:Hlt; simpl; eexists _, _; (split; [reflexivity|]).
    + apply N.ltb_lt in Hlt. split; [lia|done].
    + split; [lia|done].
  - destruct (acc + d <? T)%N eqn:Hlt; simpl; eexists _, _; (split; [reflexivity|]).
    + apply N.ltb_lt in Hlt. split; [lia|done].
    + split; [lia|done].
  - eexists _, _. split; [reflexivity|]. split; [lia|done].
Qed.

(** X23. The wait for the reuse-accepted signal is bounded. Whatever reuse
    message, record and relationship it is set up for, and whatever the
    agent observes, the promise of the reuse sub-protocol resolves, never
    rejects and never stays pending; it resolves no later than 15000 ms
    after the subscription, strictly earlier when it resolves to true, and
    when no signal is ever observed it resolves to false at exactly
    15000 ms. *)
Theorem reuseAcceptedEventPromise_bounded agent (m : HandshakeReuseMessage)
    (r : OutOfBandRecord) (c : ConnectionRecord) :
  ∃ t b,
    reuseAcceptedEventPromise agent m r c = Rx.Resolved t b ∧
    (t ≤ REUSE_TIMEOUT_MS)%N ∧
    (b = true → (t < REUSE_TIMEOUT_MS)%N) ∧
    (handshakeReused agent = Rx.Silent → t = REUSE_TIMEOUT_MS ∧ b = false).
Proof.
  unfold reuseAcceptedEventPromise.
  destruct (settles_by_deadline (reuseAccepted m r c) REUSE_TIMEOUT_MS
              (filterContextCorrelationId (contextCorrelationId agent)
                 (handshakeReused agent)) 0)
    as (t & b & Hrun & Hle & Hlt).
  rewrite delayed_0 in Hrun.
  exists t, b. split_and!; [exact Hrun|exact Hle|exact Hlt|].
  intros Hsilent. rewrite Hsilent in Hrun. simpl in Hrun. by injection Hrun as <- <-.
Qed.

End ReuseTiming.

Section SelectionMore.
Import OutOfBand Spec.
Implicit Types (agent : Agent) (w : World) (r : OutOfBandRecord)
  (i : OutOfBandInvitation) (config : AcceptInvitationConfig).

(* Without reuse, the decision tree of an invitation that lists handshake
   protocols fails at once when none can be selected. *)
Lemma decisionTree_fails_selection agent config r i hs e existing routing w :
  handshakeProtocols i = Some hs →
  truthy_nullable existing = None ∨ accept_reuseConnection config ≠ Some true →
  getFirstSupportedProtocol agent hs = inl e →
  decisionTree agent config r i existing routing w = (Thrown e, w).
Proof.
  intros Hh Hno Hp. unfold decisionTree. rewrite Hh.
  assert (∀ (m : ConnectionRecord → M (option ConnectionRecord))
            (k : option ConnectionRecord → M AcceptResult),
    bind (match truthy_nullable existing, accept_reuseConnection config with
          | Some c, Some true => m c
          | _, _ => ret None
          end) k w = k None w) as Hnoreuse.
  { intros m k. destruct Hno as [->|Hne]; [done|].
    destruct (truthy_nullable existing); [|done].
    by destruct (accept_reuseConnection config) as [[|]|]. }
  rewrite (Hnoreuse (λ c, match getRequests i with
                          | Some _ => ret (Some c)
                          | None =>
                              isHandshakeReuseSuccessful <- handleHandshakeReuse agent r c ;;
                              if isHandshakeReuseSuccessful : bool
                              then ret (Some c) else ret None
                          end)).
  by rewrite Hp.
Qed.

(** X24. An invitation whose handshake-protocol list holds no protocol the
    agent supports cannot be accepted without reuse, and an empty list is
    such a list: acceptInvitation makes the transition to PrepareResponse
    and then fails with the unsupported-protocol error; no handshake is
    started and, although reception lets an empty list with attached
    requests through as a connectionless invitation, none of its requests is
    ever dispatched. *)
Theorem acceptInvitation_without_selectable_protocol agent config w (id : string) r i
    (hs : list HandshakeProtocol) :
  store w !! id = Some r →
  v2OutOfBandInvitation r = None →
  outOfBandInvitation r = Some i →
  handshakeProtocols i = Some hs →
  Forall (λ p, p ∉ locallySupported agent) hs →
  truthy_nullable (existingConnectionOf agent i) = None ∨
    accept_reuseConnection config ≠ Some true →
  (∃ e, (acceptInvitation agent id config w).1 = Thrown e ∧
        unsupportedProtocolError e) ∧
  emitted (acceptInvitation agent id config) w = prepareEffects agent r i ∧
  store (acceptInvitation agent id config w).2 !! record_id r =
    Some (set_state r PrepareResponse) ∧
  (hs = [] → ∀ ms, requests i = Some ms → ms ≠ [] →
     absentOrEmpty (handshakeProtocols i) && absentOrEmpty (getRequests i) = false).
Proof.
  intros Hr Hv2 Hi Hh Hnone Hno.
  apply getFirstSupportedProtocol_fails in Hnone as [e He].
  assert (Hrun := acceptInvitation_cases agent config w id).
  rewrite Hr, Hv2, Hi in Hrun.
  rewrite (decisionTree_fails_selection agent config _ i hs e _ _ _ Hh Hno He) in Hrun.
  split_and!.
  - exists e. split; [by rewrite Hrun|]. by eapply getFirstSupportedProtocol_error_kind.
  - apply emitted_of_log. by rewrite Hrun.
  - rewrite Hrun. simpl. apply lookup_insert_eq.
  - intros -> ms Hm Hne. unfold getRequests. rewrite Hh, Hm. simpl.
    by destruct ms.
Qed.

Lemma getFirstSupportedProtocol_singleton agent (q p : HandshakeProtocol) :
  getFirstSupportedProtocol agent [q] = inr p → p = q.
Proof.
  rewrite getFirstSupportedProtocol_unfold.
  destruct (getSupportedHandshakeProtocols agent) as [e|supported]; [discriminate|].
  simpl. destruct (Js.includes supported q); [|discriminate]. by intros [= <-].
Qed.

(** X25. An implicit invitation is never reused. When
    receiveImplicitInvitation accepts automatically and the agent supports
    one of the protocols, it resolves the DID once, persists and announces
    the record, looks for an existing relationship, makes the transition and
    then always starts a new handshake, with the first supported protocol of
    the list, the caller's routing and the agent's label as default, also
    when a relationship with the DID exists; no reuse signal is sent. With
    no protocol list given the handshake is a did-exchange. *)
Theorem receiveImplicitInvitation_starts_handshake agent
    (c : ReceiveOutOfBandImplicitInvitationConfig) w (p : HandshakeProtocol) :
  Js.nullish (i_autoAcceptInvitation c) true = true →
  getFirstSupportedProtocol agent (implicitProtocols c) = inr p →
  (receiveImplicitInvitation agent c w).1 =
    Returned (set_state (implicitRecord agent c w) PrepareResponse,
              Some (acceptOutOfBandInvitation agent
                      (set_state (implicitRecord agent c w) PrepareResponse)
                      (handshakeConfigFor (implicitAccept agent c) p (i_routing c)))) ∧
  emitted (receiveImplicitInvitation agent c) w =
    [ResolveServicesFromDid (did c);
     RepositorySave (implicitRecord agent c w);
     StateChangedEvent (implicitRecord agent c w) None] ++
    prepareEffects agent (implicitRecord agent c w) (implicitInvitation c) ++
    [AcceptOutOfBandInvitation (set_state (implicitRecord agent c w) PrepareResponse)
       (handshakeConfigFor (implicitAccept agent c) p (i_routing c))] ∧
  List.filter isSendMessage (emitted (receiveImplicitInvitation agent c) w) = [] ∧
  hs_label (handshakeConfigFor (implicitAccept agent c) p (i_routing c)) =
    Some (default (config_label agent) (i_label c)) ∧
  (implicit_handshakeProtocols c = None → p = DidExchange).
Proof.
  intros Hauto Hp.
  assert (implicitProtocols c ≠ []) as Hne.
  { intros Hnil. rewrite Hnil in Hp.
    assert (∃ e, getFirstSupportedProtocol agent [] = inl e) as [e He]
      by by apply getFirstSupportedProtocol_fails.
    congruence. }
  assert (Hrun := receiveImplicitInvitation_run agent c w Hne).
  rewrite Hauto in Hrun.
  destruct (implicitRecord_shape agent c w) as (Hid & Hrole & Hinv & Hv2).
  set (rec := implicitRecord agent c w) in *.
  set (w0 := {| store := _; log := _; uuids := _ |}) in Hrun.
  assert (store w0 !! record_id rec = Some rec) as Hr by apply lookup_insert_eq.
  rewrite (acceptInvitation_v1 agent _ w0 _ rec _ Hr eq_refl Hv2 Hinv) in Hrun.
  assert (routingFor (implicitAccept agent c) rec = i_routing c) as Hrouting.
  { unfold routingFor. simpl. destruct (i_routing c) as [routing|] eqn:Hri; [done|].
    subst rec. unfold implicitRecord. by rewrite Hri. }
  rewrite Hrouting in Hrun.
  erewrite decisionTree_new_handshake in Hrun; [|reflexivity|reflexivity|discriminate].
  rewrite Hp in Hrun.
  assert (emitted (receiveImplicitInvitation agent c) w =
    [ResolveServicesFromDid (did c); RepositorySave rec; StateChangedEvent rec None] ++
    prepareEffects agent rec (implicitInvitation c) ++
    [AcceptOutOfBandInvitation (set_state rec PrepareResponse)
       (handshakeConfigFor (implicitAccept agent c) p (i_routing c))]) as Hemit.
  { apply emitted_of_log. rewrite Hrun. subst w0. simpl. by rewrite <- !app_assoc. }
  split_and!.
  - by rewrite Hrun.
  - exact Hemit.
  - rewrite Hemit. unfold prepareEffects.
    by destruct (invitationDids agent (implicitInvitation c)).
  - reflexivity.
  - intros Hnone. unfold implicitProtocols in Hp. rewrite Hnone in Hp.
    by apply getFirstSupportedProtocol_singleton in Hp.
Qed.

End SelectionMore.

(* An empty handshake-protocol array next to an attached offer: valid for
   reception, never accepted. *)
Lemma acceptInvitation_without_selectable_protocol_witness :
  (∃ e, (OutOfBand.acceptInvitation Demo.demoAgent "oob-4" Demo.acceptDefaults
           (Demo.worldWith (Demo.receivedRecord "oob-4" Demo.emptyHandshakeInvitation))).1 =
          OutOfBand.Thrown e ∧
        Spec.unsupportedProtocolError e) ∧
  OutOfBand.absentOrEmpty (OutOfBand.handshakeProtocols Demo.emptyHandshakeInvitation) &&
    OutOfBand.absentOrEmpty (OutOfBand.getRequests Demo.emptyHandshakeInvitation) = false.
Proof.
  destruct (acceptInvitation_without_selectable_protocol Demo.demoAgent Demo.acceptDefaults
              (Demo.worldWith (Demo.receivedRecord "oob-4" Demo.emptyHandshakeInvitation))
              "oob-4" (Demo.receivedRecord "oob-4" Demo.emptyHandshakeInvitation)
              Demo.emptyHandshakeInvitation [] eq_refl eq_refl eq_refl eq_refl
              (Forall_nil_2 _) (or_introl eq_refl))
    as (Hthrown & _ & _ & Hvalid).
  split; [exact Hthrown|]. by apply (Hvalid eq_refl [Demo.offer]).
Defined.

(* An implicit invitation for the DID of an inviter the agent already has a
   ready relationship with: a new did-exchange handshake is started. *)
Lemma receiveImplicitInvitation_starts_handshake_witness :
  OutOfBand.findByInvitationDid Demo.demoAgent "did:peer:known" = [Demo.readyConnection] ∧
  (OutOfBand.receiveImplicitInvitation Demo.demoAgent (Demo.implicitFor "did:peer:known")
     OutOfBand.emptyWorld).1 =
    OutOfBand.Returned
      (OutOfBand.set_state
         (Spec.implicitRecord Demo.demoAgent (Demo.implicitFor "did:peer:known")
            OutOfBand.emptyWorld)
         OutOfBand.PrepareResponse,
       Some Demo.newConnection) ∧
  List.filter Spec.isSendMessage
    (Spec.emitted
       (OutOfBand.receiveImplicitInvitation Demo.demoAgent
          (Demo.implicitFor "did:peer:known"))
       OutOfBand.emptyWorld) = [].
Proof.
  destruct (receiveImplicitInvitation_starts_handshake Demo.demoAgent
              (Demo.implicitFor "did:peer:known") OutOfBand.emptyWorld
              OutOfBand.DidExchange eq_refl eq_refl)
    as (Hres & _ & Hsilent & _).
  split_and!; [reflexivity|exact Hres|exact Hsilent].
Defined.

(* ===================================================================== *)
(* The legacy ways of creating an invitation                             *)
(* ===================================================================== *)
Section LegacyCreation.
Import OutOfBand Spec Legacy.
Implicit Types (agent : Agent) (w : World).

Variable convertToOldInvitation : OutOfBandInvitation → ConnectionInvitationMessage.
Variable getOutOfBandInvitation : OutOfBandRecord → Failure + OutOfBandInvitation.
Variable getResolvedServiceForOutOfBandServices :
  list InvitationService → M ResolvedDidCommService.
Variable fromResolvedDidCommService : ResolvedDidCommService → string.
Variable toBase64URL : PlaintextMessage → string.

(* The accessor returns the v1 invitation a record holds. *)
Hypothesis getOutOfBandInvitation_held :
  ∀ r i, outOfBandInvitation r = Some i → getOutOfBandInvitation r = inr i.

(** X26. createLegacyInvitation creates an ordinary out-of-band record that
    offers the connections protocol only. It never fails on the
    configuration; it succeeds exactly when the agent supports the
    connections protocol, and fails with the unsupported-protocol error,
    leaving nothing behind, otherwise (also when the agent supports
    did-exchange). On success the record is persisted as createInvitation
    persists it, its invitation carries no request, and the legacy
    invitation returned is the conversion of that very invitation. *)
Theorem createLegacyInvitation_connections_only agent
    (config : CreateLegacyInvitationConfig) w :
  configurationCheck (withConnectionsProtocol config) = None ∧
  (Connections ∈ locallySupported agent →
   ∃ r i w',
     createLegacyInvitation agent convertToOldInvitation getOutOfBandInvitation config w =
       (Returned (r, convertToOldInvitation i), w') ∧
     createInvitation agent (VersionV1 (withConnectionsProtocol config)) w =
       (Returned r, w') ∧
     store w' !! record_id r = Some r ∧
     outOfBandInvitation r = Some i ∧
     handshakeProtocols i = Some [Connections] ∧
     requests i = None) ∧
  (Connections ∉ locallySupported agent →
   ∃ e,
     createLegacyInvitation agent convertToOldInvitation getOutOfBandInvitation config w =
       (Thrown e, w) ∧
     unsupportedProtocolError e).
Proof.
  assert (configurationCheck (withConnectionsProtocol config) = None) as Hc.
  { unfold configurationCheck. simpl.
    by destruct (Js.nullish (legacy_create_multiUseInvitation config) false). }
  assert (Hrun := createInvitation_v1_run agent (withConnectionsProtocol config) w).
  rewrite Hc in Hrun.
  unfold negotiatedProtocols in Hrun. simpl in Hrun.
  destruct (assertHandshakeProtocols_cases agent [Connections]) as [Hpass Hfail].
  split; [done|]. split.
  - intros Hin.
    assert (assertHandshakeProtocols agent [Connections] = inr tt) as Ha.
    { apply Hpass. unfold locallySupported in Hin.
      destruct (getSupportedHandshakeProtocols agent) as [e|supported].
      - by apply elem_of_nil in Hin.
      - exists supported. split; [done|]. by repeat constructor. }
    rewrite Ha in Hrun.
    eexists _, _, _. unfold createLegacyInvitation.
    rewrite (bind_returned _ _ _ _ _ Hrun).
    erewrite getOutOfBandInvitation_held; [|reflexivity].
    split; [reflexivity|]. split; [exact Hrun|].
    split; [apply lookup_insert_eq|]. done.
  - intros Hnotin.
    destruct (assertHandshakeProtocols agent [Connections]) as [e|[]] eqn:Ha.
    + exists e. unfold createLegacyInvitation.
      rewrite (bind_thrown _ _ _ _ _ Hrun). split; [done|]. by apply Hfail.
    + destruct Hnotin. destruct (proj1 Hpass eq_refl) as (supported & Hs & Hall).
      unfold locallySupported. rewrite Hs. by apply Forall_cons in Hall as [? _].
Qed.

(** X27. createLegacyConnectionlessInvitation goes through createInvitation
    with the handshake left on: it fails, before anything is persisted or
    resolved, when the agent supports no handshake protocol, and the record
    it persists otherwise lists the agent's handshake protocols next to the
    one request, which is attached without a service decorator. The service
    is resolved only after the record is persisted; the message handed back
    is the caller's message with the resolved service set on it, and the URL
    is the domain followed by "?d_m=" and the encoding of that message. *)
Theorem createLegacyConnectionlessInvitation_keeps_handshake agent
    (config : CreateLegacyConnectionlessInvitationConfig) w :
  (∀ e, getSupportedHandshakeProtocols agent = inl e →
        createLegacyConnectionlessInvitation agent getOutOfBandInvitation
          getResolvedServiceForOutOfBandServices fromResolvedDidCommService toBase64URL
          config w = (Thrown e, w)) ∧
  (∀ supported, getSupportedHandshakeProtocols agent = inr supported →
     ∃ r i w',
       createInvitation agent (VersionV1 (withMessage config)) w = (Returned r, w') ∧
       store w' !! record_id r = Some r ∧
       outOfBandInvitation r = Some i ∧
       handshakeProtocols i = Some supported ∧
       requests i = Some [clearService (legacy_message config)] ∧
       reusable r = false ∧
       (∀ e w2,
          getResolvedServiceForOutOfBandServices (getServices i) w' = (Thrown e, w2) →
          createLegacyConnectionlessInvitation agent getOutOfBandInvitation
            getResolvedServiceForOutOfBandServices fromResolvedDidCommService toBase64URL
            config w = (Thrown e, w2)) ∧
       (∀ resolved w2,
          getResolvedServiceForOutOfBandServices (getServices i) w' =
            (Returned resolved, w2) →
          createLegacyConnectionlessInvitation agent getOutOfBandInvitation
            getResolvedServiceForOutOfBandServices fromResolvedDidCommService toBase64URL
            config w =
            (Returned
               {| result_message :=
                    setService (legacy_message config)
                      (fromResolvedDidCommService resolved);
                  invitationUrl :=
                    legacy_domain config +:+ "?d_m=" +:+
                    toBase64URL (setService (legacy_message config)
                                   (fromResolvedDidCommService resolved));
                  result_outOfBandRecord := r |}, w2))).
Proof.
  assert (Hrun := createInvitation_v1_run agent (withMessage config) w).
  assert (configurationCheck (withMessage config) = None) as Hc by reflexivity.
  rewrite Hc in Hrun. unfold negotiatedProtocols in Hrun. simpl in Hrun.
  split.
  - intros e He. rewrite He in Hrun. unfold createLegacyConnectionlessInvitation.
    by rewrite (bind_thrown _ _ _ _ _ Hrun).
  - intros supported Hs. rewrite Hs in Hrun.
    eexists _, _, _. split; [exact Hrun|].
    split; [apply lookup_insert_eq|]. split; [reflexivity|].
    split; [reflexivity|]. split; [reflexivity|]. split; [reflexivity|].
    split.
    + intros e w2 Hres. unfold createLegacyConnectionlessInvitation.
      rewrite (bind_returned _ _ _ _ _ Hrun).
      erewrite getOutOfBandInvitation_held; [|reflexivity].
      unfold lift. unfold bind at 1. unfold ret at 1.
      by rewrite (bind_thrown _ _ _ _ _ Hres).
    + intros resolved w2 Hres. unfold createLegacyConnectionlessInvitation.
      rewrite (bind_returned _ _ _ _ _ Hrun).
      erewrite getOutOfBandInvitation_held; [|reflexivity].
      unfold lift. unfold bind at 1. unfold ret at 1.
      by rewrite (bind_returned _ _ _ _ _ Hres).
Qed.

End LegacyCreation.

Lemma legacyDemo_accessor (r : OutOfBand.OutOfBandRecord) (i : OutOfBand.OutOfBandInvitation) :
  OutOfBand.outOfBandInvitation r = Some i → LegacyDemo.getOutOfBandInvitation r = inr i.
Proof. unfold LegacyDemo.getOutOfBandInvitation. by intros ->. Qed.

(* The demo agent supports the connections protocol. *)
Lemma createLegacyInvitation_connections_only_witness :
  ∃ r i w',
    Legacy.createLegacyInvitation Demo.demoAgent LegacyDemo.convertToOldInvitation
      LegacyDemo.getOutOfBandInvitation LegacyDemo.legacyDefaults OutOfBand.emptyWorld =
      (OutOfBand.Returned (r, LegacyDemo.convertToOldInvitation i), w') ∧
    OutOfBand.outOfBandInvitation r = Some i ∧
    OutOfBand.handshakeProtocols i = Some [OutOfBand.Connections].
Proof.
  destruct (createLegacyInvitation_connections_only LegacyDemo.convertToOldInvitation
              LegacyDemo.getOutOfBandInvitation legacyDemo_accessor
              Demo.demoAgent LegacyDemo.legacyDefaults OutOfBand.emptyWorld)
    as (_ & Hok & _).
  destruct Hok as (r & i & w' & Hrun & _ & _ & Hi & Hh & _).
  - apply (list_elem_of_further _ _ _ (list_elem_of_here _ _)).
  - exists r, i, w'. split_and!; [exact Hrun|exact Hi|exact Hh].
Defined.

(* The offer, turned into a legacy connection-less invitation by the demo
   agent: the record lists both handshake protocols. *)
Lemma createLegacyConnectionlessInvitation_keeps_handshake_witness :
  ∃ r i,
    OutOfBand.outOfBandInvitation r = Some i ∧
    OutOfBand.handshakeProtocols i = Some [Demo.didexchange10; Demo.connections10] ∧
    OutOfBand.requests i = Some [Demo.offer] ∧
    (Legacy.createLegacyConnectionlessInvitation Demo.demoAgent
       LegacyDemo.getOutOfBandInvitation LegacyDemo.getResolvedServiceForOutOfBandServices
       LegacyDemo.fromResolvedDidCommService LegacyDemo.toBase64URL
       LegacyDemo.offerAtDomain OutOfBand.emptyWorld).1 =
      OutOfBand.Returned
        {| Legacy.result_message := Legacy.setService Demo.offer "did:key:z6MkRecipient";
           Legacy.invitationUrl := "https://issuer.example?d_m=m-offer";
           Legacy.result_outOfBandRecord := r |}.
Proof.
  destruct (proj2 (createLegacyConnectionlessInvitation_keeps_handshake
                     LegacyDemo.getOutOfBandInvitation
                     LegacyDemo.getResolvedServiceForOutOfBandServices
                     LegacyDemo.fromResolvedDidCommService LegacyDemo.toBase64URL
                     legacyDemo_accessor
                     Demo.demoAgent LegacyDemo.offerAtDomain OutOfBand.emptyWorld)
              [Demo.didexchange10; Demo.connections10] eq_refl)
    as (r & i & w' & _ & _ & Hi & Hh & Hreq & _ & _ & Hok).
  exists r, i. split_and!; [exact Hi|exact Hh|exact Hreq|].
  by rewrite (Hok LegacyDemo.resolvedService w' eq_refl).
Defined.
